(** * The arbitrage agent of [src/agent/agent.py]

    A shallow embedding of the decision-and-execution engine: the probe
    ([simulate_arbitrage]), the scan-and-select loop, the gas admission guard
    and the nonce-serialised submission ([execute_arbitrage]), the per-block
    handler ([handle_new_block]) and the polling loop ([main]).

    Every remote call (pool quote, contract simulation, gas estimation, fee
    suggestion, broadcast, receipt) is an input of the model: the environment
    records say what each call answered, a value or a raised exception.
    Python values keep their dynamic type where the code depends on it
    ([int], [float], [decimal.Decimal], [None]); floats are IEEE 754 binary64,
    computed with the Standard Library's [SpecFloat].

    The agent is a single coroutine: [nonce_lock] never has a second
    claimant and is left out.  Logging and the Telegram alert swallow their
    own failures; what they format is modelled where formatting can raise.
    The program is taken as Python 3.12 or later runs it: line 223 has a
    backslash inside an f-string expression, which earlier versions refuse
    to parse. *)

From Stdlib Require Import ZArith NArith QArith Qpower List Bool Lia Lqa Ascii String.
From Stdlib Require Import Permutation Sorted.
From Stdlib Require Import Floats.SpecFloat.
Import ListNotations.
Local Open Scope Z_scope.

(** ** Exceptions and fallible computations *)

(** The exceptions the code can meet.  All of them derive from Python's
    [Exception], so every [except Exception] clause catches each of them.
    [Web3Error] stands for whatever a remote call raises (transport error,
    [ContractLogicError], [TimeExhausted], ...). *)
Inductive exn : Type :=
| TypeError
| ValueError
| OverflowError
| ZeroDivisionError
| IndexError
| UnboundLocalError
| Web3Error (msg : string).

Inductive result (A : Type) : Type :=
| Ok (a : A)
| Raise (e : exn).
Arguments Ok {A} a.
Arguments Raise {A} e.

Definition rbind {A B : Type} (r : result A) (k : A -> result B) : result B :=
  match r with
  | Ok a => k a
  | Raise e => Raise e
  end.

(** [try: body except Exception: handler] *)
Definition rcatch {A : Type} (body : result A) (handler : exn -> result A) : result A :=
  match body with
  | Ok a => Ok a
  | Raise e => handler e
  end.

Declare Scope result_scope.
Delimit Scope result_scope with result.
Notation "x <- c ;; k" := (rbind c (fun x => k))
  (at level 61, c at next level, right associativity) : result_scope.
Notation "' p <- c ;; k" := (rbind c (fun p => k))
  (at level 61, p pattern, c at next level, right associativity) : result_scope.

(** ** Python numbers *)

(** binary64: 53 bits of precision, infinities at exponent 1024. *)
Definition prec : Z := 53.
Definition emax : Z := 1024.

Definition float : Type := spec_float.

(** A [decimal.Decimal] holding [dec_coeff * 10 ^ dec_exp]. *)
Record decimal : Type := { dec_coeff : Z; dec_exp : Z }.

Inductive pynum : Type :=
| PInt (z : Z)
| PFloat (f : float)
| PDecimal (d : decimal).

(** An integer as an exact (not yet rounded) binary number. *)
Definition exact_int (z : Z) : float :=
  match z with
  | Z0 => S754_zero false
  | Zpos p => S754_finite false p 0
  | Zneg p => S754_finite true p 0
  end.

Definition is_infinite (f : float) : bool :=
  match f with
  | S754_infinity _ => true
  | _ => false
  end.

(** [float(z)]: round to nearest, ties to even; an integer beyond the range
    of binary64 raises [OverflowError]. *)
Definition float_of_int (z : Z) : result float :=
  let f := binary_normalize prec emax z 0 false in
  if is_infinite f then Raise OverflowError else Ok f.

(** A decimal literal [num / den] of the source text, correctly rounded. *)
Definition float_literal (num den : Z) : float :=
  SFdiv prec emax (exact_int num) (exact_int den).

(** [x * y] on floats never raises: an overflow gives an infinity. *)
Definition float_mul (x y : float) : float := SFmul prec emax x y.
Definition float_add (x y : float) : float := SFadd prec emax x y.
Definition float_sub (x y : float) : float := SFsub prec emax x y.

Definition is_zero (f : float) : bool :=
  match f with
  | S754_zero _ => true
  | _ => false
  end.

(** [x / y] on floats raises [ZeroDivisionError] on a zero divisor. *)
Definition float_div (x y : float) : result float :=
  if is_zero y then Raise ZeroDivisionError else Ok (SFdiv prec emax x y).

(** [z * y] with [z] an [int] and [y] a [float]: the integer is converted first. *)
Definition int_mul_float (z : Z) (y : float) : result float :=
  (x <- float_of_int z ;; Ok (float_mul x y))%result.

Definition float_mul_int (x : float) (z : Z) : result float :=
  (y <- float_of_int z ;; Ok (float_mul x y))%result.

(** [z / y] with [z] an [int] and [y] a [float]. *)
Definition int_div_float (z : Z) (y : float) : result float :=
  (x <- float_of_int z ;; float_div x y)%result.

(** [a / b] on two [int]s: true division, the exact quotient correctly rounded. *)
Definition int_truediv (a b : Z) : result float :=
  if b =? 0 then Raise ZeroDivisionError
  else
    let q := SFdiv prec emax (exact_int a) (exact_int b) in
    if is_infinite q then Raise OverflowError else Ok q.

(** [int(f)]: truncation toward zero; [int(inf)] raises [OverflowError] and
    [int(nan)] raises [ValueError]. *)
Definition int_of_float (f : float) : result Z :=
  match f with
  | S754_zero _ => Ok 0
  | S754_infinity _ => Raise OverflowError
  | S754_nan => Raise ValueError
  | S754_finite s m e =>
      let a := match e with
               | Zneg p => Z.shiftr (Zpos m) (Zpos p)
               | _ => Z.shiftl (Zpos m) e
               end in
      Ok (if s then - a else a)
  end.

(** [a - b] where the right operand is a [float], as in the net-profit
    subtraction.  [int - float] converts the integer; [Decimal - float] is
    not defined by Python and raises [TypeError]. *)
Definition sub_float (a : pynum) (b : float) : result float :=
  match a with
  | PInt z => (x <- float_of_int z ;; Ok (float_sub x b))%result
  | PFloat x => Ok (float_sub x b)
  | PDecimal _ => Raise TypeError
  end.

(** *** Comparison

    Python compares [int], [float] and [Decimal] by exact numeric value; a
    NaN compares false with everything. *)
Inductive xval : Type :=
| XNaN
| XNegInf
| XFin (q : Q)
| XPosInf.

Definition float_value (f : float) : xval :=
  match f with
  | S754_nan => XNaN
  | S754_infinity s => if s then XNegInf else XPosInf
  | S754_zero _ => XFin 0
  | S754_finite s m e =>
      let q := (inject_Z (Zpos m) * Qpower 2 e)%Q in
      XFin (if s then Qopp q else q)
  end.

Definition value (a : pynum) : xval :=
  match a with
  | PInt z => XFin (inject_Z z)
  | PFloat f => float_value f
  | PDecimal d => XFin (inject_Z (dec_coeff d) * Qpower 10 (dec_exp d))%Q
  end.

Definition xgt (a b : xval) : bool :=
  match a, b with
  | XNaN, _ | _, XNaN => false
  | XPosInf, XPosInf => false
  | XPosInf, _ => true
  | _, XPosInf => false
  | XNegInf, _ => false
  | XFin _, XNegInf => true
  | XFin p, XFin q => match (p ?= q)%Q with Gt => true | _ => false end
  end.

(** [a > b] *)
Definition py_gt (a b : pynum) : bool := xgt (value a) (value b).

(** ** Unit conversion: [w3.from_wei(number, 'ether')]

    The library function (eth_utils) returns the [int] 0 for 0, raises
    [ValueError] outside [1 .. 2**256 - 1], and otherwise divides the number
    by [10**18] as a [Decimal]. *)
Definition MAX_WEI : N := 2 ^ 256 - 1.

Definition from_wei (number : N) : result pynum :=
  if (number =? 0)%N then Ok (PInt 0)
  else if (MAX_WEI <? number)%N then Raise ValueError
  else Ok (PDecimal {| dec_coeff := Z.of_N number; dec_exp := -18 |}).

(** [w3.from_wei(number, 'gwei')] of an [int] of either sign: the same
    function with the unit [10**9]; a negative number is out of range too. *)
Definition from_wei_gwei (number : Z) : result pynum :=
  if number =? 0 then Ok (PInt 0)
  else if (number <? 0) || (Z.of_N MAX_WEI <? number) then Raise ValueError
  else Ok (PDecimal {| dec_coeff := number; dec_exp := -9 |}).

(** ** Configuration *)

(** One entry of [PAIRS]. *)
Record Pair : Type := {
  name : string;
  token : string;
  token_name : string;
  uniswap_pair : string;
  sushiswap_pair : string;
  path1 : list string;
  path2 : list string;
  decimals : Z
}.

(** The module-level settings [execute_arbitrage] reads.  A setting that was
    never assigned holds Python's [None]. *)
Record config : Type := {
  PAIRS : list Pair;
  LOAN_AMOUNTS : list N;
  MIN_PROFIT_THRESHOLD : Z;
  MAX_GAS_PRICE : option Z;
  BASE_PRIORITY_FEE : option Z
}.

Definition DEADLINE_DELTA : Z := 300.
Definition POLL_INTERVAL : Z := 1.
Definition MAX_BACKOFF : Z := 600.
Definition INITIAL_BACKOFF : Z := 10.
Definition GAS_BUFFER : float := float_literal 12 10.

Definition WETH : string := "0xC02aaA39b223FE8D0A0e5C4F27eAD9083C756Cc2".
Definition USDT : string := "0xdAC17F958D2ee523a2206206994597C13D831ec7".
Definition USDC : string := "0xA0b86991c6218b36c1d19D4a2e9Eb0cE3606eB48".

Definition WETH_USDT : Pair := {|
  name := "WETH/USDT";
  token := USDT;
  token_name := "USDT";
  uniswap_pair := "0x0d4a11d5EEaaC28EC3F61d100daF4d40471f1852";
  sushiswap_pair := "0x06da0fd433C1A5d7a4faa01111c044910A184553";
  path1 := [WETH; USDT];
  path2 := [USDT; WETH];
  decimals := 6
|}.

Definition USDC_WETH : Pair := {|
  name := "USDC/WETH";
  token := USDC;
  token_name := "USDC";
  uniswap_pair := "0xB4e16d0168e52d35CaCD2c6185b44281Ec28C9Dc";
  sushiswap_pair := "0x397FF1542f962076d0BFE58eA045FfA2d347ACa0";
  path1 := [WETH; USDC];
  path2 := [USDC; WETH];
  decimals := 6
|}.

Definition ether : Z := 10 ^ 18.
Definition gwei : Z := 10 ^ 9.

(** The settings as [main] leaves them.  [main] declares
    [global w3, contract, WETH, PAIRS, LOAN_AMOUNTS, MIN_PROFIT_THRESHOLD]
    only: its assignments to [MAX_GAS_PRICE] and [BASE_PRIORITY_FEE] bind
    locals of [main], and the module-level names keep their initial [None]. *)
Definition deployed_config : config := {|
  PAIRS := [WETH_USDT; USDC_WETH];
  LOAN_AMOUNTS := [Z.to_N (1 * ether); Z.to_N (10 * ether)];
  MIN_PROFIT_THRESHOLD := ether / 1000000;
  MAX_GAS_PRICE := None;
  BASE_PRIORITY_FEE := None
|}.

(** The settings [main] writes down, had they all reached module level. *)
Definition reference_config : config := {|
  PAIRS := [WETH_USDT; USDC_WETH];
  LOAN_AMOUNTS := [Z.to_N (1 * ether); Z.to_N (10 * ether)];
  MIN_PROFIT_THRESHOLD := ether / 1000000;
  MAX_GAS_PRICE := Some (100 * gwei);
  BASE_PRIORITY_FEE := Some (2 * gwei)
|}.

(** ** The probe: [simulate_arbitrage] *)

(** What the network answers during one probe. *)
Record probe_env : Type := {
  (** [uniswap_router.functions.getAmountsOut(amount_in, path1).call()] *)
  uniswap_getAmountsOut : result (list N);
  (** [sushiswap_router.functions.getAmountsOut(token_out, path2).call()] *)
  sushiswap_getAmountsOut : N -> result (list N);
  (** [contract.functions.simulateArbitrage(...).call()] *)
  simulateArbitrage : result (bool * N);
  (** [w3.eth.estimate_gas(tx)] *)
  probe_estimate_gas : result N;
  (** [w3.eth.gas_price] *)
  probe_gas_price : result N
}.

(** [xs[-1]] *)
Definition last_item (xs : list N) : result N :=
  match rev xs with
  | [] => Raise IndexError
  | x :: _ => Ok x
  end.

(** The locals assigned inside the inner [try] of the probe.  A local the
    control flow has not reached yet is unbound. *)
Record gas_locals : Type := {
  gas_estimate : option N;
  gas_price : option N;
  gas_cost_wei : option Z;
  gas_cost_weth : float
}.

(** Reading a local variable. *)
Definition read_local {A : Type} (v : option A) : result A :=
  match v with
  | Some a => Ok a
  | None => Raise UnboundLocalError
  end.

(** The total fee in wei, lines 162-164: 0.3% of each quoted output, the two
    raw amounts added as they are and truncated. *)
Definition total_fees_wei (token_out weth_out : N) : result Z :=
  (fee_token_wei <- int_mul_float (Z.of_N token_out) (float_literal 3 1000) ;;
   fee_weth_wei <- int_mul_float (Z.of_N weth_out) (float_literal 3 1000) ;;
   int_of_float (float_add fee_token_wei fee_weth_wei))%result.

(** Lines 189-196: the gas cost in WETH, or the fallback 0.01 when anything
    in the inner [try] raises.  The warning of the fallback branch formats
    [w3.from_wei(amount_in, 'ether')]. *)
Definition estimate_gas_cost (w : probe_env) (amount_in : N) : result gas_locals :=
  let fallback (ge gp : option N) (gcw : option Z) : result gas_locals :=
    (_ <- from_wei amount_in ;;
     Ok {| gas_estimate := ge; gas_price := gp; gas_cost_wei := gcw;
           gas_cost_weth := float_literal 1 100 |})%result in
  match probe_estimate_gas w with
  | Raise _ => fallback None None None
  | Ok ge =>
      match probe_gas_price w with
      | Raise _ => fallback (Some ge) None None
      | Ok gp =>
          match (buffered <- int_mul_float (Z.of_N ge) GAS_BUFFER ;;
                 cost <- float_mul_int buffered (Z.of_N gp) ;;
                 int_of_float cost)%result with
          | Raise _ => fallback (Some ge) (Some gp) None
          | Ok gcw =>
              match int_truediv gcw (10 ^ 18) with
              | Raise _ => fallback (Some ge) (Some gp) (Some gcw)
              | Ok weth =>
                  Ok {| gas_estimate := Some ge; gas_price := Some gp;
                        gas_cost_wei := Some gcw; gas_cost_weth := weth |}
              end
          end
      end
  end.

(** What a probe hands back: [(profitable, estimated_profit, net_profit_weth,
    gas_cost_weth)]. *)
Record probe_result : Type := {
  profitable : bool;
  estimated_profit : Z;
  net_profit_weth : pynum;
  gas_cost : pynum
}.

(** The tuple [False, 0, 0, 0] of the exception handler. *)
Definition failure_tuple : probe_result :=
  {| profitable := false; estimated_profit := 0;
     net_profit_weth := PInt 0; gas_cost := PInt 0 |}.

(** Lines 136-218, the body of the outer [try]. *)
Definition simulate_arbitrage_body (w : probe_env) (amount_in : N) : result probe_result :=
  (out1 <- uniswap_getAmountsOut w ;;
   token_out <- last_item out1 ;;
   out2 <- sushiswap_getAmountsOut w token_out ;;
   weth_out <- last_item out2 ;;
   fee_step1 <- int_mul_float (Z.of_N token_out) (float_literal 3 1000) ;;
   fee_step2 <- int_mul_float (Z.of_N weth_out) (float_literal 3 1000) ;;
   fees_wei <- total_fees_wei token_out weth_out ;;
   total_fees_weth <- int_div_float fees_wei (float_literal (10 ^ 18) 1) ;;
   '(is_profitable, profit) <- simulateArbitrage w ;;
   gas <- estimate_gas_cost w amount_in ;;
   gross_profit_weth <- from_wei profit ;;
   after_fees <- sub_float gross_profit_weth total_fees_weth ;;
   net <- sub_float (PFloat after_fees) (gas_cost_weth gas) ;;
   _ <- from_wei amount_in ;;
   _ <- read_local (gas_estimate gas) ;;
   _ <- read_local (gas_price gas) ;;
   _ <- read_local (gas_cost_wei gas) ;;
   Ok {| profitable := is_profitable; estimated_profit := Z.of_N profit;
         net_profit_weth := PFloat net; gas_cost := PFloat (gas_cost_weth gas) |})%result.

(** [simulate_arbitrage(pair, amount_in)].  The handler builds the revert
    reason and sends the alert through functions that swallow their own
    exceptions; its log line formats [w3.from_wei(amount_in, 'ether')]. *)
Definition simulate_arbitrage (w : probe_env) (amount_in : N) : result probe_result :=
  rcatch (simulate_arbitrage_body w amount_in)
         (fun _ => (_ <- from_wei amount_in ;; Ok failure_tuple)%result).

(** ** Scan and selection: the loop of [execute_arbitrage] *)

(** The six [best_*] locals of [execute_arbitrage]. *)
Record best : Type := {
  best_pair : option Pair;
  best_amount : option N;
  best_profit : Z;
  best_net_profit : pynum;
  best_profitable : bool;
  best_gas_cost : pynum
}.

(** Lines 228-233; [best_net_profit = -float('inf')]. *)
Definition initial_best : best := {|
  best_pair := None;
  best_amount := None;
  best_profit := 0;
  best_net_profit := PFloat (S754_infinity true);
  best_profitable := false;
  best_gas_cost := PInt 0
|}.

(** The test of lines 244-248. *)
Definition improves (cfg : config) (b : best) (r : probe_result) : bool :=
  profitable r
  && (MIN_PROFIT_THRESHOLD cfg <=? estimated_profit r)
  && py_gt (net_profit_weth r) (best_net_profit b)
  && py_gt (net_profit_weth r) (PInt 0).

(** Lines 244-254: one probe result against the best so far. *)
Definition update_best (cfg : config) (b : best) (probe : Pair * N * probe_result) : best :=
  let '(p, amount_in, r) := probe in
  if improves cfg b r then
    {| best_pair := Some p;
       best_amount := Some amount_in;
       best_profit := estimated_profit r;
       best_net_profit := net_profit_weth r;
       best_profitable := true;
       best_gas_cost := gas_cost r |}
  else b.

(** The selection over the results of one scan, in scan order. *)
Definition select_best (cfg : config) (results : list (Pair * N * probe_result)) : best :=
  fold_left (update_best cfg) results initial_best.

(** The items of a list with their positions, counted from [i]. *)
Fixpoint enumerate {A : Type} (i : nat) (xs : list A) : list (nat * A) :=
  match xs with
  | [] => []
  | x :: rest => (i, x) :: enumerate (S i) rest
  end.

(** Lines 235-236: every pair (outer loop) with every amount (inner loop).
    The network answers of the probe of the [i]-th pair with the [j]-th
    amount are [world i j]. *)
Definition probe_sequence (cfg : config) (world : nat -> nat -> probe_env)
  : list (Pair * N * probe_env) :=
  flat_map (fun ip : nat * Pair =>
              map (fun ja : nat * N => (snd ip, snd ja, world (fst ip) (fst ja)))
                  (enumerate 0 (LOAN_AMOUNTS cfg)))
           (enumerate 0 (PAIRS cfg)).

(** Lines 237-254, probe after probe.  The alert of line 240 formats
    [w3.from_wei(amount_in, 'ether')]. *)
Fixpoint scan_loop (cfg : config) (probes : list (Pair * N * probe_env)) (b : best)
  : result best :=
  match probes with
  | [] => Ok b
  | (p, amount_in, w) :: rest =>
      (r <- simulate_arbitrage w amount_in ;;
       _ <- from_wei amount_in ;;
       scan_loop cfg rest (update_best cfg b (p, amount_in, r)))%result
  end.

(** ** Agent state and the state-and-exception monad of a cycle *)

(** The transaction dictionary [build_transaction] returns, then signed:
    the call of [executeArbitrage] with its pair, amount and deadline, the
    four fields line 284 hands over, and the ['gas'] the library fills in. *)
Record transaction : Type := {
  tx_pair : Pair;
  tx_amount : option N;
  tx_deadline : Z;
  maxFeePerGas : Z;
  maxPriorityFeePerGas : Z;
  nonce : Z;
  chainId : Z;
  gas : Z
}.

Inductive report : Type :=
| NoProfitableOpportunity
| MaxFeeTooHigh (max_fee : Z)
| TransactionSent
| ExecutedSuccessfully
| TransactionFailed
| ExecutionFailed (e : exn)
| NewBlock (block_number : Z)
| BlockHandlingError (e : exn)
| FailedToFetchBlockNumber (e : exn).

(** What the agent does to the outside, oldest first. *)
Inductive event : Type :=
| Built (tx : transaction)
| Signed (tx : transaction)
| Broadcast (tx : transaction)
| Logged (r : report)
| Slept (seconds : Z).

(** The module-level [last_nonce] and the agent's actions so far. *)
Record agent_state : Type := {
  last_nonce : option Z;
  trace : list event
}.

Definition M (A : Type) : Type := agent_state -> result A * agent_state.

Definition ret {A : Type} (a : A) : M A := fun s => (Ok a, s).

Definition bind {A B : Type} (m : M A) (k : A -> M B) : M B :=
  fun s =>
    match m s with
    | (Ok a, s') => k a s'
    | (Raise e, s') => (Raise e, s')
    end.

(** An exception keeps the state reached when it was raised. *)
Definition catch {A : Type} (body : M A) (handler : exn -> M A) : M A :=
  fun s =>
    match body s with
    | (Ok a, s') => (Ok a, s')
    | (Raise e, s') => handler e s'
    end.

(** A remote call or a pure fallible step. *)
Definition call {A : Type} (r : result A) : M A := fun s => (r, s).

Definition get_last_nonce : M (option Z) := fun s => (Ok (last_nonce s), s).

Definition put_last_nonce (n : option Z) : M unit :=
  fun s => (Ok tt, {| last_nonce := n; trace := trace s |}).

Definition emit (e : event) : M unit :=
  fun s => (Ok tt, {| last_nonce := last_nonce s; trace := trace s ++ [e] |}).

Declare Scope agent_scope.
Delimit Scope agent_scope with agent.
Notation "x <- c ;; k" := (bind c (fun x => k))
  (at level 61, c at next level, right associativity) : agent_scope.
Notation "c ;; k" := (bind c (fun _ => k))
  (at level 61, right associativity) : agent_scope.

(** ** One execution cycle: [execute_arbitrage] *)

(** What the network answers during one cycle. *)
Record cycle_env : Type := {
  (** the probes, by index of pair and index of amount *)
  world : nat -> nat -> probe_env;
  (** [(await w3.eth.get_block('latest'))['baseFeePerGas']] *)
  latest_baseFeePerGas : result Z;
  (** [w3.eth.max_priority_fee] *)
  max_priority_fee : result Z;
  (** [w3.eth.get_transaction_count(WALLET_ADDRESS, 'pending')], line 271 *)
  get_transaction_count : result Z;
  (** [datetime.now()]: the reading of the host's wall clock, a naive local
      time, in whole seconds (the fraction is what [int] drops in line 94) *)
  now : Z;
  (** [.timestamp()] of a naive local time: the POSIX time the zone rules of
      the host give that reading *)
  timestamp : Z -> Z;
  (** [w3.eth.chain_id] *)
  chain_id : result Z;
  (** [.build_transaction({...})]: the dictionary has no ['gas'], so the
      library estimates the gas itself and fills it in; this is that gas *)
  build_transaction : result Z;
  (** [w3.eth.estimate_gas(tx)], line 291 *)
  estimate_gas : result Z;
  (** [w3.eth.account.sign_transaction(tx, private_key=PRIVATE_KEY)] *)
  sign_transaction : result unit;
  (** [w3.eth.send_raw_transaction(signed_tx.rawTransaction)] *)
  send_raw_transaction : result string;
  (** [(await w3.eth.wait_for_transaction_receipt(tx_hash, timeout=120)).status] *)
  wait_for_transaction_receipt : result Z;
  (** [w3.eth.get_transaction_count(WALLET_ADDRESS, 'pending')], line 313 *)
  resync_transaction_count : result Z
}.

(** [build_deadline()]: [DEADLINE_DELTA] seconds are added to the naive
    local time, and the sum is converted to POSIX time. *)
Definition build_deadline (env : cycle_env) : Z :=
  timestamp env (now env + DEADLINE_DELTA).

(** [min(cap, suggested)]; comparing with [None] raises [TypeError]. *)
Definition py_min (cap : option Z) (suggested : Z) : result Z :=
  match cap with
  | None => Raise TypeError
  | Some c => Ok (if suggested <? c then suggested else c)
  end.

(** [max_fee > cap]; comparing with [None] raises [TypeError]. *)
Definition exceeds (max_fee : Z) (cap : option Z) : result bool :=
  match cap with
  | None => Raise TypeError
  | Some c => Ok (c <? max_fee)
  end.

(** [best_pair[...]]; subscripting [None] raises [TypeError]. *)
Definition subscript (p : option Pair) : result Pair :=
  match p with
  | None => Raise TypeError
  | Some x => Ok x
  end.

(** Lines 270-273. *)
Definition acquire_nonce (env : cycle_env) : M Z :=
  (held <- get_last_nonce ;;
   match held with
   | None =>
       count <- call (get_transaction_count env) ;;
       put_last_nonce (Some count) ;;
       ret count
   | Some n =>
       put_last_nonce (Some (n + 1)) ;;
       ret (n + 1)
   end)%agent.

(** Lines 269-308, the body of the [try] (the lock has a single holder: the
    agent is one coroutine). *)
Definition submit (env : cycle_env) (b : best) (max_fee priority_fee : Z) : M bool :=
  (n <- acquire_nonce env ;;
   p <- call (subscript (best_pair b)) ;;
   chain <- call (chain_id env) ;;
   filled <- call (build_transaction env) ;;
   let tx := {| tx_pair := p;
                tx_amount := best_amount b;
                tx_deadline := build_deadline env;
                maxFeePerGas := max_fee;
                maxPriorityFeePerGas := priority_fee;
                nonce := n;
                chainId := chain;
                gas := filled |} in
   emit (Built tx) ;;
   gas_estimate <- call (estimate_gas env) ;;
   gas_limit <- call (buffered <- int_mul_float gas_estimate GAS_BUFFER ;;
                      int_of_float buffered)%result ;;
   let tx := {| tx_pair := tx_pair tx;
                tx_amount := tx_amount tx;
                tx_deadline := tx_deadline tx;
                maxFeePerGas := maxFeePerGas tx;
                maxPriorityFeePerGas := maxPriorityFeePerGas tx;
                nonce := nonce tx;
                chainId := chainId tx;
                gas := gas_limit |} in
   call (sign_transaction env) ;;
   emit (Signed tx) ;;
   call (send_raw_transaction env) ;;
   emit (Broadcast tx) ;;
   emit (Logged TransactionSent) ;;
   status <- call (wait_for_transaction_receipt env) ;;
   if status =? 1 then
     emit (Logged ExecutedSuccessfully) ;;
     ret true
   else
     emit (Logged TransactionFailed) ;;
     held <- get_last_nonce ;;
     decremented <- call (match held with
                          | Some k => Ok (k - 1)
                          | None => Raise TypeError
                          end) ;;
     put_last_nonce (Some decremented) ;;
     ret false)%agent.

(** Lines 309-314, the handler of the [try]. *)
Definition resynchronize (env : cycle_env) (e : exn) : M bool :=
  (emit (Logged (ExecutionFailed e)) ;;
   count <- call (resync_transaction_count env) ;;
   put_last_nonce (Some count) ;;
   ret false)%agent.

(** Lines 268-314: the [try] statement, one submission attempt. *)
Definition attempt (env : cycle_env) (b : best) (max_fee priority_fee : Z) : M bool :=
  catch (submit env b max_fee priority_fee) (resynchronize env).

(** Lines 256-314: what follows the scan.  The warning of line 265 formats
    [w3.from_wei(max_fee, 'gwei')]. *)
Definition after_scan (cfg : config) (env : cycle_env) (b : best) : M bool :=
  (if negb (best_profitable b) then
     emit (Logged NoProfitableOpportunity) ;;
     ret false
   else
     base_fee <- call (latest_baseFeePerGas env) ;;
     suggested <- call (max_priority_fee env) ;;
     priority_fee <- call (py_min (BASE_PRIORITY_FEE cfg) suggested) ;;
     let max_fee := base_fee + priority_fee in
     too_high <- call (exceeds max_fee (MAX_GAS_PRICE cfg)) ;;
     if too_high then
       call (from_wei_gwei max_fee) ;;
       emit (Logged (MaxFeeTooHigh max_fee)) ;;
       ret false
     else
       attempt env b max_fee priority_fee)%agent.

(** [execute_arbitrage()] *)
Definition execute_arbitrage (cfg : config) (env : cycle_env) : M bool :=
  (b <- call (scan_loop cfg (probe_sequence cfg (world env)) initial_best) ;;
   after_scan cfg env b)%agent.

(** The cycle from the selection on, for a given list of probe results. *)
Definition execute_selected (cfg : config) (env : cycle_env)
    (results : list (Pair * N * probe_result)) : M bool :=
  after_scan cfg env (select_best cfg results).

(** ** The block handler and the polling loop *)

(** [handle_new_block(block_number)] returns [(success, backoff)]. *)
Definition handle_new_block (cfg : config) (env : cycle_env) (block_number : Z)
  : agent_state -> (bool * Z) * agent_state :=
  fun s =>
    match (emit (Logged (NewBlock block_number)) ;; execute_arbitrage cfg env)%agent s with
    | (Ok success, s') => ((success, 0), s')
    | (Raise e, s') =>
        ((false, INITIAL_BACKOFF),
         {| last_nonce := last_nonce s';
            trace := trace s' ++ [Logged (BlockHandlingError e)] |})
    end.

(** One turn of the [while True] loop: the height read and, should the
    height have advanced, the network answers of the cycle it starts. *)
Record tick : Type := {
  block_number : result Z;
  cycle : cycle_env
}.

(** How far a run of the agent got. *)
Inductive run : Type :=
| Exited (code : Z)
| Returned (s : agent_state)
| Crashed (e : exn) (s : agent_state)
| Polling (last_block : Z) (s : agent_state).

Definition sleep (seconds : Z) (s : agent_state) : agent_state :=
  {| last_nonce := last_nonce s; trace := trace s ++ [Slept seconds] |}.

(** Lines 393-401, for as many turns as [ticks] describes; [Polling] says
    the loop is still running after them. *)
Fixpoint poll (cfg : config) (ticks : list tick) (last_block : Z) (s : agent_state) : run :=
  match ticks with
  | [] => Polling last_block s
  | t :: rest =>
      match block_number t with
      | Raise e => Crashed e s
      | Ok current_block =>
          if last_block <? current_block then
            let '((success, backoff), s') := handle_new_block cfg (cycle t) current_block s in
            if negb success && negb (backoff =? 0)
            then poll cfg rest current_block (sleep backoff s')
            else poll cfg rest current_block s'
          else poll cfg rest last_block (sleep POLL_INTERVAL s)
      end
  end.

(** What happens before the loop. *)
Record startup : Type := {
  (** every required environment variable is set, line 41 *)
  environment_complete : bool;
  (** [PrimeFlashArb.json] is read and holds an ['abi'] *)
  abi_loaded : bool;
  (** [provider.connect()] *)
  connect : result unit;
  (** the height read of line 388 *)
  first_block_number : result Z
}.

Definition initial_state : agent_state := {| last_nonce := None; trace := [] |}.

Definition run_agent (cfg : config) (boot : startup) (ticks : list tick) : run :=
  if negb (environment_complete boot) then Exited 1
  else if negb (abi_loaded boot) then Exited 1
  else
    match connect boot with
    | Raise e => Crashed e initial_state
    | Ok _ =>
        match first_block_number boot with
        | Raise e =>
            Returned {| last_nonce := None;
                        trace := [Logged (FailedToFetchBlockNumber e)] |}
        | Ok last_block => poll cfg ticks last_block initial_state
        end
    end.

(** [main()] runs with the settings it leaves at module level. *)
Definition main (boot : startup) (ticks : list tick) : run :=
  run_agent deployed_config boot ticks.

(** ** Vocabulary of the properties

    Signs of float results.

    [not_positive f] says [f > 0] is false; [not_negative f] says [f < 0] is
    false.  A NaN is both. *)

Definition not_positive (f : float) : bool :=
  match f with
  | S754_finite false _ _ | S754_infinity false => false
  | _ => true
  end.

Definition not_negative (f : float) : bool :=
  match f with
  | S754_finite true _ _ | S754_infinity true => false
  | _ => true
  end.

Definition signed_as (s : bool) (f : float) : bool :=
  if s then not_positive f else not_negative f.

(** A result is a candidate when it is flagged profitable, its gross profit
    reaches the threshold and its net profit is positive. *)
Definition qualifies (cfg : config) (r : probe_result) : bool :=
  profitable r
  && (MIN_PROFIT_THRESHOLD cfg <=? estimated_profit r)
  && py_gt (net_profit_weth r) (PInt 0).

(** The [best_*] locals once the probe of [p] with [amount_in] is selected. *)
Definition chosen (p : Pair) (amount_in : N) (r : probe_result) : best := {|
  best_pair := Some p;
  best_amount := Some amount_in;
  best_profit := estimated_profit r;
  best_net_profit := net_profit_weth r;
  best_profitable := true;
  best_gas_cost := gas_cost r
|}.

Definition result_of (probe : Pair * N * probe_result) : probe_result := snd probe.

(** A state of the selection loop after the probes [seen]: nothing selected
    and no candidate so far, or the first of the candidates with the greatest
    net profit. *)
Inductive selection (cfg : config) (seen : list (Pair * N * probe_result)) : best -> Prop :=
| nothing_selected :
    (forall x, In x seen -> qualifies cfg (result_of x) = false) ->
    selection cfg seen initial_best
| first_greatest (before after : list (Pair * N * probe_result))
    (p : Pair) (amount_in : N) (r : probe_result) :
    seen = before ++ (p, amount_in, r) :: after ->
    qualifies cfg r = true ->
    (forall x, In x before -> qualifies cfg (result_of x) = true ->
               py_gt (net_profit_weth r) (net_profit_weth (result_of x)) = true) ->
    (forall x, In x after -> qualifies cfg (result_of x) = true ->
               py_gt (net_profit_weth (result_of x)) (net_profit_weth r) = false) ->
    selection cfg seen (chosen p amount_in r).

(** A cycle that ends right after the scan: it returns [False], leaves the
    nonce alone and only logs. *)
Definition idle_outcome (what : report) (s : agent_state) : result bool * agent_state :=
  (Ok false, {| last_nonce := last_nonce s; trace := trace s ++ [Logged what] |}).


(** [magnitude_below B f]: [f] is zero or finite, and below [2 ^ B] in
    absolute value. *)
Definition magnitude_below (B : Z) (f : float) : Prop :=
  match f with
  | S754_zero _ => True
  | S754_finite _ m e => Zpos (digits2_pos m) + e <= B
  | _ => False
  end.

(** A wei amount [w3.from_wei] accepts: a [uint256]. *)
Definition is_uint256 (n : N) : Prop := (n <= MAX_WEI)%N.

(** Every remote call of the probe answers (quotes, simulation, gas
    estimation), and the quotes are not empty. *)
Definition answers_all (w : probe_env) : bool :=
  match uniswap_getAmountsOut w with
  | Ok out1 =>
      match last_item out1 with
      | Ok token_out =>
          match sushiswap_getAmountsOut w token_out with
          | Ok out2 =>
              match last_item out2, simulateArbitrage w,
                    probe_estimate_gas w, probe_gas_price w with
              | Ok _, Ok _, Ok _, Ok _ => true
              | _, _, _, _ => false
              end
          | Raise _ => false
          end
      | Raise _ => false
      end
  | Raise _ => false
  end.

(** Every call of the probe answers: the quotes end on [token_out] and
    [weth_out], the simulation reports [(flag, profit)], the gas estimation
    [units] at the price [price]. *)
Definition answers (w : probe_env) (token_out weth_out : N) (flag : bool)
    (profit units price : N) : Prop :=
  exists out1 out2,
    uniswap_getAmountsOut w = Ok out1
    /\ last_item out1 = Ok token_out
    /\ sushiswap_getAmountsOut w token_out = Ok out2
    /\ last_item out2 = Ok weth_out
    /\ simulateArbitrage w = Ok (flag, profit)
    /\ probe_estimate_gas w = Ok units
    /\ probe_gas_price w = Ok price.

(** A probe of 1 WETH through WETH/USDT where every call answers and the
    contract reports no profit. *)
Definition zero_profit_probe : probe_env := {|
  uniswap_getAmountsOut := Ok [Z.to_N ether; 2000000000%N];
  sushiswap_getAmountsOut := fun token_out => Ok [token_out; Z.to_N (999 * 10 ^ 15)];
  simulateArbitrage := Ok (false, 0%N);
  probe_estimate_gas := Ok 200000%N;
  probe_gas_price := Ok (Z.to_N (30 * gwei))
|}.

(** A probe of 1 WETH through WETH/USDT where every call answers and the
    contract reports a profit of 0.02 WETH. *)
Definition profitable_probe : probe_env := {|
  uniswap_getAmountsOut := Ok [Z.to_N ether; 2000000000%N];
  sushiswap_getAmountsOut := fun token_out => Ok [token_out; Z.to_N (1020 * 10 ^ 15)];
  simulateArbitrage := Ok (true, Z.to_N (20 * 10 ^ 15));
  probe_estimate_gas := Ok 200000%N;
  probe_gas_price := Ok (Z.to_N (30 * gwei))
|}.

(** The same probe with a gas estimation that fails. *)
Definition unestimated_probe : probe_env := {|
  uniswap_getAmountsOut := Ok [Z.to_N ether; 2000000000%N];
  sushiswap_getAmountsOut := fun token_out => Ok [token_out; Z.to_N (999 * 10 ^ 15)];
  simulateArbitrage := Ok (false, 0%N);
  probe_estimate_gas := Raise (Web3Error "execution reverted");
  probe_gas_price := Ok (Z.to_N (30 * gwei))
|}.

(** Following the spec's words (4.1, step 2): a proportional fee of 0.3% on
    each swap leg, "expressed in the base asset's unit".  [wei_per_unit] is
    the worth in wei of one smallest unit of the pair's token. *)
Definition feeCost_spec (wei_per_unit : Q) (token_out weth_out : N) : Q :=
  ((3 # 1000) * (inject_Z (Z.of_N token_out) * wei_per_unit)
   + (3 # 1000) * inject_Z (Z.of_N weth_out))%Q.

(** The events a computation added to the trace. *)
Definition new_events (s s' : agent_state) : list event :=
  skipn (List.length (trace s)) (trace s').

(** The transactions that were built, signed or broadcast. *)
Definition transactions_in (events : list event) : list transaction :=
  flat_map (fun e => match e with
                     | Built tx | Signed tx | Broadcast tx => [tx]
                     | Logged _ | Slept _ => []
                     end) events.

(** The gas guard turns the cycle down: the fee it computes from the two
    observed fees and the two caps exceeds the cap on the max fee. *)
Definition guard_rejects (cfg : config) (env : cycle_env) : Prop :=
  exists base_fee suggested cap max_cap,
    latest_baseFeePerGas env = Ok base_fee
    /\ max_priority_fee env = Ok suggested
    /\ BASE_PRIORITY_FEE cfg = Some cap
    /\ MAX_GAS_PRICE cfg = Some max_cap
    /\ max_cap < base_fee + Z.min cap suggested.

(** An amount [w3.from_wei] converts: between 0 and [2**256 - 1]. *)
Definition convertible (number : Z) : Prop := 0 <= number <= Z.of_N MAX_WEI.

(** The fee the guard computes is one the warning of line 265 can format. *)
Definition guard_fee_convertible (cfg : config) (env : cycle_env) : Prop :=
  forall base_fee suggested cap,
    latest_baseFeePerGas env = Ok base_fee ->
    max_priority_fee env = Ok suggested ->
    BASE_PRIORITY_FEE cfg = Some cap ->
    convertible (base_fee + Z.min cap suggested).

(** Consecutive submission attempts, each with its selection and fees. *)
Record submission : Type := {
  sub_env : cycle_env;
  sub_best : best;
  sub_max_fee : Z;
  sub_priority_fee : Z
}.

Fixpoint submissions (attempts : list submission) (s : agent_state)
  : list (result bool) * agent_state :=
  match attempts with
  | [] => ([], s)
  | a :: rest =>
      let (r, s1) := attempt (sub_env a) (sub_best a) (sub_max_fee a) (sub_priority_fee a) s in
      let (rs, s2) := submissions rest s1 in
      (r :: rs, s2)
  end.

(** A cycle in which every call answers and the transaction confirms; the
    fees are those of the spec's example (base fee 80 gwei, suggested
    priority fee 5 gwei).  The host's zone is one hour ahead of UTC. *)
Definition confirmed_cycle : cycle_env := {|
  world := fun _ _ => zero_profit_probe;
  latest_baseFeePerGas := Ok (80 * gwei);
  max_priority_fee := Ok (5 * gwei);
  get_transaction_count := Ok 5;
  now := 1700003600;
  timestamp := fun local => local - 3600;
  chain_id := Ok 1;
  build_transaction := Ok 250000;
  estimate_gas := Ok 250000;
  sign_transaction := Ok tt;
  send_raw_transaction := Ok "0x5e1f"%string;
  wait_for_transaction_receipt := Ok 1;
  resync_transaction_count := Ok 6
|}.

(** The transaction is mined with a failure status. *)
Definition reverted_cycle : cycle_env := {|
  world := world confirmed_cycle;
  latest_baseFeePerGas := latest_baseFeePerGas confirmed_cycle;
  max_priority_fee := max_priority_fee confirmed_cycle;
  get_transaction_count := get_transaction_count confirmed_cycle;
  now := now confirmed_cycle;
  timestamp := timestamp confirmed_cycle;
  chain_id := chain_id confirmed_cycle;
  build_transaction := build_transaction confirmed_cycle;
  estimate_gas := estimate_gas confirmed_cycle;
  sign_transaction := sign_transaction confirmed_cycle;
  send_raw_transaction := send_raw_transaction confirmed_cycle;
  wait_for_transaction_receipt := Ok 0;
  resync_transaction_count := Ok 6
|}.

(** The broadcast fails; nothing reached the network, whose pending count
    is still 5. *)
Definition unsent_cycle : cycle_env := {|
  world := world confirmed_cycle;
  latest_baseFeePerGas := latest_baseFeePerGas confirmed_cycle;
  max_priority_fee := max_priority_fee confirmed_cycle;
  get_transaction_count := get_transaction_count confirmed_cycle;
  now := now confirmed_cycle;
  timestamp := timestamp confirmed_cycle;
  chain_id := chain_id confirmed_cycle;
  build_transaction := build_transaction confirmed_cycle;
  estimate_gas := estimate_gas confirmed_cycle;
  sign_transaction := sign_transaction confirmed_cycle;
  send_raw_transaction := Raise (Web3Error "connection closed");
  wait_for_transaction_receipt := wait_for_transaction_receipt confirmed_cycle;
  resync_transaction_count := Ok 5
|}.

(** The base fee is 99 gwei. *)
Definition expensive_cycle : cycle_env := {|
  world := world confirmed_cycle;
  latest_baseFeePerGas := Ok (99 * gwei);
  max_priority_fee := max_priority_fee confirmed_cycle;
  get_transaction_count := get_transaction_count confirmed_cycle;
  now := now confirmed_cycle;
  timestamp := timestamp confirmed_cycle;
  chain_id := chain_id confirmed_cycle;
  build_transaction := build_transaction confirmed_cycle;
  estimate_gas := estimate_gas confirmed_cycle;
  sign_transaction := sign_transaction confirmed_cycle;
  send_raw_transaction := send_raw_transaction confirmed_cycle;
  wait_for_transaction_receipt := wait_for_transaction_receipt confirmed_cycle;
  resync_transaction_count := resync_transaction_count confirmed_cycle
|}.

(** Two candidates, as in the spec's end-to-end example: net profits of
    0.002 and 0.0005 WETH. *)
Definition candidate (net : float) : probe_result := {|
  profitable := true;
  estimated_profit := 3 * 10 ^ 15;
  net_profit_weth := PFloat net;
  gas_cost := PFloat (float_literal 1 1000)
|}.

Definition two_candidates : list (Pair * N * probe_result) :=
  [ (WETH_USDT, Z.to_N (1 * ether), candidate (float_literal 5 10000));
    (USDC_WETH, Z.to_N (10 * ether), candidate (float_literal 2 1000)) ].

(** Two candidates with the same net profit. *)
Definition tied_candidates : list (Pair * N * probe_result) :=
  [ (WETH_USDT, Z.to_N (1 * ether), candidate (float_literal 2 1000));
    (USDC_WETH, Z.to_N (10 * ether), candidate (float_literal 2 1000)) ].

(** An agent that holds the nonce 7. *)
Definition holding_7 : agent_state := {| last_nonce := Some 7; trace := [] |}.

(** The gas estimation of the probe fails. *)
Definition gas_estimation_fails (w : probe_env) : Prop :=
  (exists e, probe_estimate_gas w = Raise e) \/ (exists e, probe_gas_price w = Raise e).

(** A started agent and three turns of its loop: the height has not moved,
    the height has advanced, the height read fails. *)
Definition booted : startup := {|
  environment_complete := true;
  abi_loaded := true;
  connect := Ok tt;
  first_block_number := Ok 100
|}.

Definition same_height : tick := {| block_number := Ok 100; cycle := confirmed_cycle |}.
Definition next_height : tick := {| block_number := Ok 101; cycle := confirmed_cycle |}.
Definition failed_read : tick := {|
  block_number := Raise (Web3Error "connection closed");
  cycle := confirmed_cycle
|}.

(** * The rest of the module *)

(** ** Telegram text: [escape_markdown] and [send_telegram_alert]

    A text is the sequence of its bytes in UTF-8.  The characters
    [escape_markdown] looks for are ASCII, and UTF-8 uses an ASCII byte for
    nothing but that character, so the regular expression acts on the bytes
    as it does on the code points. *)

(** [escape_chars], line 18. *)
Definition escape_chars : string := "_*[]()~`>#+-=|{}.!".

Fixpoint occurs (c : ascii) (s : string) : bool :=
  match s with
  | EmptyString => false
  | String d rest => if Ascii.eqb c d then true else occurs c rest
  end.

(** The character class of the pattern: one of [escape_chars]. *)
Definition special (c : ascii) : bool := occurs c escape_chars.

Definition backslash : ascii := "\".

(** [escape_markdown(text)]: [re.sub] puts a backslash in front of every
    character of the class. *)
Fixpoint escape_markdown (text : string) : string :=
  match text with
  | EmptyString => EmptyString
  | String c rest =>
      if special c then String backslash (String c (escape_markdown rest))
      else String c (escape_markdown rest)
  end.

(** [text.replace(old, new)] for a one-character [old]. *)
Fixpoint replace_char (old : ascii) (new : string) (text : string) : string :=
  match text with
  | EmptyString => EmptyString
  | String c rest =>
      if Ascii.eqb c old then (new ++ replace_char old new rest)%string
      else String c (replace_char old new rest)
  end.

(** [reason.replace('(', '\\(').replace(')', '\\)')], line 223. *)
Definition escape_parentheses (reason : string) : string :=
  replace_char ")" "\)" (replace_char "(" "\(" reason).

(** What [session.post] gives: the HTTP status and, when asked, the body. *)
Record telegram_response : Type := {
  status : Z;
  response_text : result string
}.

(** What [send_telegram_alert] writes with [logger.error]. *)
Inductive alert_log : Type :=
| FailedToSend (body : string)
| TelegramAlertError (e : exn).

(** [send_telegram_alert(message)], with [session_post text] the outcome of
    posting a payload whose text is [text].  It returns what the coroutine
    returns and the lines it logs. *)
Definition send_telegram_alert (session_post : string -> result telegram_response)
    (message : string) : result unit * list alert_log :=
  let escaped_message := escape_markdown message in
  match session_post escaped_message with
  | Ok response =>
      if negb (status response =? 200) then
        match response_text response with
        | Ok body => (Ok tt, [FailedToSend body])
        | Raise e => (Ok tt, [TelegramAlertError e])
        end
      else (Ok tt, [])
  | Raise e => (Ok tt, [TelegramAlertError e])
  end.

(** Reading an escaped text: a backslash in front of a character of the
    class stands for that character. *)
Fixpoint unescape (text : string) : string :=
  match text with
  | EmptyString => EmptyString
  | String c rest =>
      match rest with
      | String d rest' =>
          if Ascii.eqb c backslash && special d then String d (unescape rest')
          else String c (unescape rest)
      | EmptyString => String c EmptyString
      end
  end.

Fixpoint count_special (text : string) : nat :=
  match text with
  | EmptyString => 0
  | String c rest => (if special c then 1 else 0) + count_special rest
  end.

Fixpoint count_parentheses (text : string) : nat :=
  match text with
  | EmptyString => 0
  | String c rest =>
      (if Ascii.eqb c "(" || Ascii.eqb c ")" then 1 else 0) + count_parentheses rest
  end.

(** ** Vocabulary of the further properties *)

(** The transaction with another gas limit. *)
Definition with_gas (limit : Z) (tx : transaction) : transaction := {|
  tx_pair := tx_pair tx;
  tx_amount := tx_amount tx;
  tx_deadline := tx_deadline tx;
  maxFeePerGas := maxFeePerGas tx;
  maxPriorityFeePerGas := maxPriorityFeePerGas tx;
  nonce := nonce tx;
  chainId := chainId tx;
  gas := limit
|}.

(** A cycle on a host whose clocks go back one hour, from two hours ahead
    of UTC to one, 100 seconds after the deadline is asked for: a reading
    before the change is taken two hours ahead of UTC, a later one one hour
    ahead. *)
Definition clock_change_cycle : cycle_env := {|
  world := world confirmed_cycle;
  latest_baseFeePerGas := latest_baseFeePerGas confirmed_cycle;
  max_priority_fee := max_priority_fee confirmed_cycle;
  get_transaction_count := get_transaction_count confirmed_cycle;
  now := 1700007200;
  timestamp := fun local => if local <? 1700007300 then local - 7200 else local - 3600;
  chain_id := chain_id confirmed_cycle;
  build_transaction := build_transaction confirmed_cycle;
  estimate_gas := estimate_gas confirmed_cycle;
  sign_transaction := sign_transaction confirmed_cycle;
  send_raw_transaction := send_raw_transaction confirmed_cycle;
  wait_for_transaction_receipt := wait_for_transaction_receipt confirmed_cycle;
  resync_transaction_count := resync_transaction_count confirmed_cycle
|}.

(** The transactions that were broadcast. *)
Definition broadcasts (events : list event) : list transaction :=
  flat_map (fun e => match e with
                     | Broadcast tx => [tx]
                     | _ => []
                     end) events.

(** The heights [handle_new_block] was called with. *)
Definition heights_handled (events : list event) : list Z :=
  flat_map (fun e => match e with
                     | Logged (NewBlock n) => [n]
                     | _ => []
                     end) events.

(** The durations the loop slept. *)
Definition sleeps (events : list event) : list Z :=
  flat_map (fun e => match e with
                     | Slept seconds => [seconds]
                     | _ => []
                     end) events.

(** The state a run ended in, or is in after the turns described. *)
Definition run_state (r : run) : agent_state :=
  match r with
  | Exited _ => initial_state
  | Returned s => s
  | Crashed _ s => s
  | Polling _ s => s
  end.

(** The transaction [confirmed_cycle] sends for the better of
    [two_candidates] when the network counts 5 pending transactions. *)
Definition sent_transaction : transaction := {|
  tx_pair := USDC_WETH;
  tx_amount := Some (Z.to_N (10 * ether));
  tx_deadline := 1700000300;
  maxFeePerGas := 82 * gwei;
  maxPriorityFeePerGas := 2 * gwei;
  nonce := 5;
  chainId := 1;
  gas := 300000
|}.

(** The gas estimation of the submission fails. *)
Definition unestimated_cycle : cycle_env := {|
  world := world confirmed_cycle;
  latest_baseFeePerGas := latest_baseFeePerGas confirmed_cycle;
  max_priority_fee := max_priority_fee confirmed_cycle;
  get_transaction_count := get_transaction_count confirmed_cycle;
  now := now confirmed_cycle;
  timestamp := timestamp confirmed_cycle;
  chain_id := chain_id confirmed_cycle;
  build_transaction := build_transaction confirmed_cycle;
  estimate_gas := Raise (Web3Error "execution reverted");
  sign_transaction := sign_transaction confirmed_cycle;
  send_raw_transaction := send_raw_transaction confirmed_cycle;
  wait_for_transaction_receipt := wait_for_transaction_receipt confirmed_cycle;
  resync_transaction_count := Ok 5
|}.

(** The receipt does not come in time, and the handler's fetch fails too. *)
Definition disconnected_cycle : cycle_env := {|
  world := world confirmed_cycle;
  latest_baseFeePerGas := latest_baseFeePerGas confirmed_cycle;
  max_priority_fee := max_priority_fee confirmed_cycle;
  get_transaction_count := get_transaction_count confirmed_cycle;
  now := now confirmed_cycle;
  timestamp := timestamp confirmed_cycle;
  chain_id := chain_id confirmed_cycle;
  build_transaction := build_transaction confirmed_cycle;
  estimate_gas := estimate_gas confirmed_cycle;
  sign_transaction := sign_transaction confirmed_cycle;
  send_raw_transaction := send_raw_transaction confirmed_cycle;
  wait_for_transaction_receipt := Raise (Web3Error "not in the chain after 120 seconds");
  resync_transaction_count := Raise (Web3Error "connection closed")
|}.

(** What a run whose cycles all end right after the scan leaves in the
    trace: the logs of the loop and the sleeps between two height reads. *)
Definition idle_event (e : event) : bool :=
  match e with
  | Logged (NewBlock _) => true
  | Logged NoProfitableOpportunity => true
  | Logged (FailedToFetchBlockNumber _) => true
  | Slept seconds => seconds =? POLL_INTERVAL
  | _ => false
  end.

(** The height read of a turn answers. *)
Definition height_read (t : tick) : Prop := exists n, block_number t = Ok n.

(** The settings [main] writes down with a second loan amount of [2 ** 256]
    wei, one more than [w3.from_wei] converts. *)
Definition oversized_config : config := {|
  PAIRS := PAIRS reference_config;
  LOAN_AMOUNTS := [Z.to_N (1 * ether); (2 ^ 256)%N];
  MIN_PROFIT_THRESHOLD := MIN_PROFIT_THRESHOLD reference_config;
  MAX_GAS_PRICE := MAX_GAS_PRICE reference_config;
  BASE_PRIORITY_FEE := BASE_PRIORITY_FEE reference_config
|}.
(** * Properties *)

(** ** The order behind [>] *)

Section Order.

Lemma xgt_fin (p q : Q) : xgt (XFin p) (XFin q) = true <-> (q < p)%Q.
Proof.
  simpl. rewrite (Qgt_alt p q).
  destruct (p ?= q)%Q; split; intro H; congruence.
Qed.

Lemma xgt_fin_false (p q : Q) : xgt (XFin p) (XFin q) = false <-> (p <= q)%Q.
Proof.
  simpl. rewrite (Qle_alt p q).
  destruct (p ?= q)%Q; split; intro H; congruence.
Qed.

Lemma xgt_trans (a b c : xval) :
  xgt a b = true -> xgt b c = true -> xgt a c = true.
Proof.
  destruct a as [| |p|], b as [| |q|], c as [| |r|];
    try reflexivity; try discriminate.
  rewrite !xgt_fin. intros H1 H2. exact (Qlt_trans _ _ _ H2 H1).
Qed.

(** [y <= z < x] gives [y < x] as soon as [y] is a number. *)
Lemma xgt_after_not_gt (x y z : xval) :
  xgt x z = true -> xgt y z = false -> y <> XNaN -> xgt x y = true.
Proof.
  destruct x as [| |p|], y as [| |q|], z as [| |r|];
    try reflexivity; try discriminate; try congruence.
  rewrite xgt_fin, xgt_fin, xgt_fin_false. intros H1 H2 _.
  exact (Qle_lt_trans _ _ _ H2 H1).
Qed.

Lemma xgt_irrefl (a : xval) : xgt a a = false.
Proof.
  destruct a as [| |p|]; try reflexivity.
  apply xgt_fin_false. apply Qle_refl.
Qed.

(** Whatever exceeds 0 is a number and exceeds minus infinity. *)
Lemma positive_is_number (a : pynum) :
  py_gt a (PInt 0) = true -> value a <> XNaN /\ xgt (value a) XNegInf = true.
Proof.
  unfold py_gt. simpl. destruct (value a); simpl; intro H;
    try discriminate; split; congruence.
Qed.

End Order.

(** ** Signs of float results *)

Section Signs.

Lemma binary_round_aux_sign (s : bool) (m e : Z) (l : location) :
  signed_as s (binary_round_aux prec emax s m e l) = true.
Proof.
  unfold binary_round_aux.
  destruct (shr_fexp prec emax m e l) as [mrs' e'].
  destruct (shr_fexp prec emax _ e' loc_Exact) as [mrs'' e''].
  destruct (shr_m mrs'') as [|p|p]; [| destruct (e'' <=? emax - prec) |];
    destruct s; reflexivity.
Qed.

Lemma binary_round_sign (s : bool) (m : positive) (e : Z) :
  signed_as s (binary_round prec emax s m e) = true.
Proof.
  unfold binary_round.
  destruct (shl_align m e _) as [mz ez]. apply binary_round_aux_sign.
Qed.

Lemma binary_normalize_nonneg (z e : Z) :
  0 <= z -> not_negative (binary_normalize prec emax z e false) = true.
Proof.
  destruct z as [|p|p]; intro H; try lia; simpl; [reflexivity|].
  exact (binary_round_sign false p e).
Qed.

Lemma binary_normalize_nonpos (z e : Z) :
  z <= 0 -> not_positive (binary_normalize prec emax z e false) = true.
Proof.
  destruct z as [|p|p]; intro H; try lia; simpl; [reflexivity|].
  exact (binary_round_sign true p e).
Qed.

Lemma float_of_int_nonneg (z : Z) (f : float) :
  0 <= z -> float_of_int z = Ok f -> not_negative f = true.
Proof.
  unfold float_of_int. intros Hz.
  pose proof (binary_normalize_nonneg z 0 Hz) as Hs.
  destruct (binary_normalize prec emax z 0 false) as [s|s| |s m e];
    simpl; intro H; inversion H; subst; exact Hs.
Qed.

Lemma exact_int_nonneg (z : Z) : 0 <= z -> not_negative (exact_int z) = true.
Proof. destruct z; intro; try lia; reflexivity. Qed.

(** The product of two floats that are not negative, and the quotient of
    one by a positive float. *)
Lemma float_mul_nonneg (x y : float) :
  not_negative x = true -> not_negative y = true ->
  not_negative (float_mul x y) = true.
Proof.
  destruct x as [[|]|[|]| |[|] mx ex], y as [[|]|[|]| |[|] my ey];
    try discriminate; try reflexivity.
  intros _ _. exact (binary_round_aux_sign false _ _ _).
Qed.

Lemma SFdiv_nonneg (x : float) (my : positive) (ey : Z) :
  not_negative x = true ->
  not_negative (SFdiv prec emax x (S754_finite false my ey)) = true.
Proof.
  destruct x as [[|]|[|]| |[|] mx ex]; try discriminate; try reflexivity.
  intros _. unfold SFdiv.
  destruct (SFdiv_core_binary prec emax (Z.pos mx) ex (Z.pos my) ey) as [[mz ez] lz].
  exact (binary_round_aux_sign false _ _ _).
Qed.

Lemma float_add_nonneg (x y : float) :
  not_negative x = true -> not_negative y = true ->
  not_negative (float_add x y) = true.
Proof.
  destruct x as [[|]|[|]| |[|] mx ex], y as [[|]|[|]| |[|] my ey];
    try discriminate; try reflexivity.
  intros _ _. unfold float_add, SFadd.
  apply binary_normalize_nonneg. simpl. lia.
Qed.

(** [x - y] with [x] not positive and [y] not negative. *)
Lemma float_sub_nonpos (x y : float) :
  not_positive x = true -> not_negative y = true ->
  not_positive (float_sub x y) = true.
Proof.
  destruct x as [[|]|[|]| |[|] mx ex], y as [[|]|[|]| |[|] my ey];
    try discriminate; try reflexivity.
  intros _ _. unfold float_sub, SFsub.
  apply binary_normalize_nonpos. simpl. lia.
Qed.

Lemma int_of_float_nonneg (f : float) (z : Z) :
  not_negative f = true -> int_of_float f = Ok z -> 0 <= z.
Proof.
  destruct f as [s|s| |[|] m e]; try discriminate; simpl; intros _ H;
    inversion H; subst; clear H; [lia|].
  destruct e as [|p|p].
  - rewrite Z.shiftl_0_r. lia.
  - apply Z.shiftl_nonneg. lia.
  - apply Z.shiftr_nonneg. lia.
Qed.

(** A float that is not positive does not exceed 0. *)
Lemma not_positive_not_gt (f : float) :
  not_positive f = true -> py_gt (PFloat f) (PInt 0) = false.
Proof.
  unfold py_gt. destruct f as [s|[|]| |[|] m e]; try discriminate;
    intros _; simpl value; try reflexivity.
  apply xgt_fin_false. change (inject_Z 0) with 0%Q.
  assert (H : (0 < inject_Z (Z.pos m) * Qpower 2 e)%Q).
  { apply Qmult_lt_0_compat; [reflexivity | apply Qpower_0_lt; reflexivity]. }
  apply Qlt_le_weak. apply Qopp_lt_compat in H. exact H.
Qed.

End Signs.

(** ** Magnitudes of float results

    Enough to see that the arithmetic of a probe on [uint256] amounts never
    overflows. *)

Section Magnitude.

Lemma digits2_pos_size (p : positive) : digits2_pos p = Pos.size p.
Proof. induction p; simpl; congruence. Qed.

Lemma Zdigits2_log2 (m : Z) : 0 < m -> Zdigits2 m = Z.log2 m + 1.
Proof.
  destruct m as [|p|p]; try lia. intros _. simpl Zdigits2.
  rewrite digits2_pos_size. destruct p; simpl; lia.
Qed.

Lemma Zdigits2_nonneg (m : Z) : 0 <= Zdigits2 m.
Proof. destruct m; simpl; lia. Qed.

Lemma Zdigits2_le (a b : Z) : 0 <= a <= b -> Zdigits2 a <= Zdigits2 b.
Proof.
  intros [Ha Hab]. destruct (Z.eq_dec a 0) as [-> | Hne].
  - apply Zdigits2_nonneg.
  - rewrite !Zdigits2_log2 by lia. apply Z.add_le_mono_r. apply Z.log2_le_mono. lia.
Qed.

Lemma Zdigits2_succ (m : Z) : 0 <= m -> Zdigits2 (m + 1) <= Zdigits2 m + 1.
Proof.
  intro H. destruct (Z.eq_dec m 0) as [-> | Hne]; [simpl; lia|].
  rewrite !Zdigits2_log2 by lia. pose proof (Z.log2_succ_le m) as H'.
  unfold Z.succ in H'. lia.
Qed.

Lemma Zdigits2_shiftr (m k : Z) :
  0 <= m -> 0 <= k -> Zdigits2 (Z.shiftr m k) <= Z.max 0 (Zdigits2 m - k).
Proof.
  intros Hm Hk. destruct (Z.eq_dec m 0) as [-> | Hne].
  - rewrite Z.shiftr_0_l. simpl. lia.
  - assert (Hs : 0 <= Z.shiftr m k) by (apply Z.shiftr_nonneg; lia).
    destruct (Z.eq_dec (Z.shiftr m k) 0) as [-> | Hne']; [simpl; lia|].
    rewrite (Zdigits2_log2 (Z.shiftr m k)) by lia.
    rewrite (Zdigits2_log2 m) by lia.
    rewrite Z.log2_shiftr by lia.
    assert (k <= Z.log2 m).
    { destruct (Z.le_gt_cases k (Z.log2 m)); [assumption|].
      exfalso. apply Hne'. apply Z.shiftr_eq_0; lia. }
    lia.
Qed.

Lemma Zdigits2_shiftl (m k : Z) :
  0 < m -> 0 <= k -> Zdigits2 (Z.shiftl m k) = Zdigits2 m + k.
Proof.
  intros Hm Hk.
  assert (0 < Z.shiftl m k)
    by (rewrite Z.shiftl_mul_pow2 by lia; apply Z.mul_pos_pos; [lia | apply Z.pow_pos_nonneg; lia]).
  rewrite !Zdigits2_log2 by lia. rewrite Z.log2_shiftl by lia. lia.
Qed.


Lemma shr_1_m (r : shr_record) : 0 <= shr_m r -> shr_m (shr_1 r) = Z.shiftr (shr_m r) 1.
Proof.
  destruct r as [m r s]. simpl shr_m. intro H. rewrite <- Z.div2_spec.
  destruct m as [|[p|p|]|p]; try lia; reflexivity.
Qed.

Lemma iter_shr_1_m (p : positive) (r : shr_record) :
  0 <= shr_m r -> shr_m (iter_pos shr_1 p r) = Z.shiftr (shr_m r) (Zpos p).
Proof.
  revert r. induction p as [p IH | p IH |]; intros r H; simpl iter_pos.
  - assert (H1 : 0 <= shr_m (shr_1 r))
      by (rewrite shr_1_m by assumption; apply Z.shiftr_nonneg; assumption).
    assert (H2 : 0 <= shr_m (iter_pos shr_1 p (shr_1 r)))
      by (rewrite IH by assumption; apply Z.shiftr_nonneg; assumption).
    rewrite IH, IH, shr_1_m by assumption.
    rewrite !Z.shiftr_shiftr by lia. f_equal. lia.
  - assert (H2 : 0 <= shr_m (iter_pos shr_1 p r))
      by (rewrite IH by assumption; apply Z.shiftr_nonneg; assumption).
    rewrite IH, IH by assumption.
    rewrite !Z.shiftr_shiftr by lia. f_equal. lia.
  - apply shr_1_m. assumption.
Qed.

Lemma shr_record_of_loc_m (m : Z) (l : location) : shr_m (shr_record_of_loc m l) = m.
Proof. destruct l as [|[]]; reflexivity. Qed.

(** What [shr_fexp] gives: a mantissa that is not negative, an exponent
    under [E], and no more digits above it than [X] and [E] allow. *)
Lemma shr_fexp_bound (m e : Z) (l : location) (X E : Z) :
  0 <= m -> Zdigits2 m + e <= X -> e <= E -> X - 53 <= E -> -1074 <= E ->
  let '(mrs, e') := shr_fexp prec emax m e l in
  0 <= shr_m mrs /\ e' <= E /\ Zdigits2 (shr_m mrs) + e' <= Z.max X E.
Proof.
  intros Hm HX HE HXE Hlow. unfold shr_fexp, shr.
  pose proof (Zdigits2_nonneg m) as Hd.
  assert (Hfexp : fexp prec emax (Zdigits2 m + e) <= E)
    by (unfold fexp, SpecFloat.emin, prec, emax; lia).
  destruct (fexp prec emax (Zdigits2 m + e) - e) as [|n|n] eqn:Hn;
    rewrite ?shr_record_of_loc_m; try (repeat split; lia).
  rewrite iter_shr_1_m by (rewrite shr_record_of_loc_m; assumption).
  rewrite shr_record_of_loc_m.
  pose proof (Zdigits2_shiftr m (Zpos n) Hm) as Hs.
  repeat split; [apply Z.shiftr_nonneg; assumption | lia | lia].
Qed.

Lemma round_nearest_even_bound (m : Z) (l : location) :
  0 <= m ->
  0 <= round_nearest_even m l /\ Zdigits2 (round_nearest_even m l) <= Zdigits2 m + 1.
Proof.
  intro Hm. pose proof (Zdigits2_succ m Hm). pose proof (Zdigits2_nonneg m).
  unfold round_nearest_even. destruct l as [|[]]; try destruct (Z.even m); split; lia.
Qed.

(** Rounding a number below [2 ^ X] gives zero or a finite float below
    [2 ^ (X + 1)], as long as [X] is in the range of binary64. *)
Lemma binary_round_aux_magnitude (s : bool) (m e : Z) (l : location) (X : Z) :
  0 <= m -> Zdigits2 m + e <= X -> -1074 <= X <= 971 ->
  magnitude_below (X + 1) (binary_round_aux prec emax s m e l).
Proof.
  intros Hm HX [Hlow Hhigh]. unfold binary_round_aux.
  pose proof (Zdigits2_nonneg m) as Hd.
  pose proof (shr_fexp_bound m e l X X Hm HX ltac:(lia) ltac:(lia) Hlow) as H1.
  destruct (shr_fexp prec emax m e l) as [mrs' e'].
  destruct H1 as (Hm' & He' & Hd').
  destruct (round_nearest_even_bound (shr_m mrs') (loc_of_shr_record mrs') Hm') as [Hr Hrd].
  pose proof (shr_fexp_bound _ e' loc_Exact (X + 1) X Hr ltac:(lia) He' ltac:(lia) Hlow) as H2.
  destruct (shr_fexp prec emax _ e' loc_Exact) as [mrs'' e''].
  destruct H2 as (Hm'' & He'' & Hd'').
  destruct (shr_m mrs'') as [|p|p] eqn:Hp; [exact I | | lia].
  simpl Zdigits2 in Hd''.
  unfold prec, emax. destruct (Z.leb_spec e'' (1024 - 53)); [| lia].
  cbn [magnitude_below]. lia.
Qed.


Lemma shl_align_digits (m : positive) (e e' : Z) :
  let '(mz, ez) := shl_align m e e' in
  Zpos (digits2_pos mz) + ez = Zpos (digits2_pos m) + e.
Proof.
  unfold shl_align. destruct (e' - e) as [|d|d] eqn:Hd; try reflexivity.
  assert (Hiter : forall k, digits2_pos (Pos.iter xO m k) = (digits2_pos m + k)%positive).
  { intro k. induction k using Pos.peano_ind.
    - simpl. lia.
    - rewrite Pos.iter_succ. simpl. rewrite IHk. lia. }
  rewrite Hiter. lia.
Qed.

Lemma binary_round_magnitude (s : bool) (m : positive) (e X : Z) :
  Zpos (digits2_pos m) + e <= X -> -1074 <= X <= 971 ->
  magnitude_below (X + 1) (binary_round prec emax s m e).
Proof.
  intros HX Hrange. unfold binary_round.
  pose proof (shl_align_digits m e (fexp prec emax (Z.pos (digits2_pos m) + e))) as H.
  destruct (shl_align m e _) as [mz ez].
  apply binary_round_aux_magnitude; [lia | cbn [Zdigits2]; lia | assumption].
Qed.

Lemma binary_normalize_magnitude (z e X : Z) (s : bool) :
  Zdigits2 z + e <= X -> -1074 <= X <= 971 ->
  magnitude_below (X + 1) (binary_normalize prec emax z e s).
Proof.
  intros HX Hrange. destruct z as [|p|p]; cbn [binary_normalize Zdigits2] in *;
    [exact I | |]; apply binary_round_magnitude; assumption.
Qed.

Lemma magnitude_below_le (B B' : Z) (f : float) :
  B <= B' -> magnitude_below B f -> magnitude_below B' f.
Proof. destruct f; cbn [magnitude_below]; intros; try assumption; lia. Qed.

(** [float(z)] goes through for every integer of at most [X] bits. *)
Lemma float_of_int_magnitude (z X : Z) :
  Zdigits2 z <= X -> 0 <= X <= 971 ->
  exists f, float_of_int z = Ok f /\ magnitude_below (X + 1) f.
Proof.
  intros HX Hrange. unfold float_of_int.
  pose proof (binary_normalize_magnitude z 0 X false ltac:(lia) ltac:(lia)) as H.
  destruct (binary_normalize prec emax z 0 false); try contradiction;
    eexists; split; try reflexivity; exact H.
Qed.

Lemma uint256_digits (n : N) : is_uint256 n -> Zdigits2 (Z.of_N n) <= 256.
Proof.
  unfold is_uint256, MAX_WEI. intro H.
  destruct (N.eq_dec n 0) as [-> | Hne]; [simpl; lia|].
  rewrite Zdigits2_log2 by lia.
  assert (Z.log2 (Z.of_N n) < 256); [| lia].
  apply Z.log2_lt_pow2; [lia|].
  change (2 ^ 256) with (Z.of_N (2 ^ 256)). lia.
Qed.

Lemma float_mul_magnitude (x y : float) (X Y : Z) :
  magnitude_below X x -> magnitude_below Y y -> -1074 <= X + Y <= 971 ->
  magnitude_below (X + Y + 1) (float_mul x y).
Proof.
  destruct x as [sx|sx| |sx mx ex], y as [sy|sy| |sy my ey];
    cbn [magnitude_below float_mul SFmul];
    try contradiction; try (intros; exact I).
  intros HX HY Hrange.
  apply binary_round_aux_magnitude; [lia | | assumption].
  assert (H : Zdigits2 (Z.pos (mx * my)) <= Zdigits2 (Z.pos mx) + Zdigits2 (Z.pos my)).
  { rewrite !Zdigits2_log2 by lia. rewrite Pos2Z.inj_mul.
    pose proof (Z.log2_mul_above (Z.pos mx) (Z.pos my)). lia. }
  cbn [Zdigits2] in *. lia.
Qed.


Lemma shl_align_snd (m : positive) (e e' : Z) : e' <= e -> snd (shl_align m e e') = e'.
Proof.
  intro H. unfold shl_align. destruct (e' - e) as [|d|d] eqn:Hd; cbn [snd]; lia.
Qed.

Lemma Zdigits2_add (a b : Z) :
  0 < a -> 0 < b -> Zdigits2 (a + b) <= Z.max (Zdigits2 a) (Zdigits2 b) + 1.
Proof.
  intros Ha Hb. rewrite !Zdigits2_log2 by lia.
  destruct (Z.le_ge_cases a b) as [Hab | Hab].
  - assert (H : Z.log2 (a + b) <= Z.log2 (2 * b)) by (apply Z.log2_le_mono; lia).
    rewrite Z.log2_double in H by lia. lia.
  - assert (H : Z.log2 (a + b) <= Z.log2 (2 * a)) by (apply Z.log2_le_mono; lia).
    rewrite Z.log2_double in H by lia. lia.
Qed.

(** The sum of two floats that are not negative. *)
Lemma float_add_magnitude (x y : float) (X : Z) :
  not_negative x = true -> not_negative y = true ->
  magnitude_below X x -> magnitude_below X y -> -1074 <= X <= 970 ->
  magnitude_below (X + 2) (float_add x y).
Proof.
  destruct x as [[|]|[|]| |[|] mx ex], y as [[|]|[|]| |[|] my ey];
    try discriminate; cbn [magnitude_below float_add SFadd];
    try contradiction; try (intros; exact I); intros _ _ HX HY Hrange;
    try (cbn [magnitude_below]; lia).
  cbn [cond_Zopp].
  pose proof (shl_align_digits mx ex (Z.min ex ey)) as Hx.
  pose proof (shl_align_digits my ey (Z.min ex ey)) as Hy.
  pose proof (shl_align_snd mx ex (Z.min ex ey) ltac:(lia)) as Hsx.
  pose proof (shl_align_snd my ey (Z.min ex ey) ltac:(lia)) as Hsy.
  destruct (shl_align mx ex (Z.min ex ey)) as [ax ez1].
  destruct (shl_align my ey (Z.min ex ey)) as [ay ez2].
  cbn [fst snd] in *. subst ez1 ez2.
  replace (X + 2) with ((X + 1) + 1) by lia.
  apply binary_normalize_magnitude; [| lia].
  pose proof (Zdigits2_add (Z.pos ax) (Z.pos ay) ltac:(lia) ltac:(lia)) as H.
  cbn [Zdigits2] in H. lia.
Qed.

Lemma Zdigits2_opp (z : Z) : Zdigits2 (- z) = Zdigits2 z.
Proof. destruct z; reflexivity. Qed.

(** [int(f)] goes through for every float that is zero or finite. *)
Lemma int_of_float_magnitude (f : float) (B : Z) :
  magnitude_below B f ->
  exists z, int_of_float f = Ok z /\ Zdigits2 z <= Z.max 0 B.
Proof.
  destruct f as [s|s| |s m e]; cbn [magnitude_below int_of_float];
    try contradiction; intro H.
  - exists 0. split; [reflexivity | simpl; lia].
  - eexists. split; [reflexivity|].
    assert (Ha : Zdigits2 (match e with
                           | Z.neg p => Z.shiftr (Z.pos m) (Z.pos p)
                           | _ => Z.shiftl (Z.pos m) e
                           end) <= Z.max 0 B).
    { destruct e as [|p|p].
      - rewrite Z.shiftl_0_r. cbn [Zdigits2]. lia.
      - rewrite Zdigits2_shiftl by lia. cbn [Zdigits2]. lia.
      - pose proof (Zdigits2_shiftr (Z.pos m) (Z.pos p) ltac:(lia) ltac:(lia)) as H'.
        cbn [Zdigits2] in H'. lia. }
    destruct s; [rewrite Zdigits2_opp |]; exact Ha.
Qed.

(** The quotient by a finite divisor. *)
Lemma SFdiv_magnitude (x : float) (sy : bool) (my : positive) (ey : Z) (B X : Z) :
  magnitude_below B x ->
  B - (Zpos (digits2_pos my) + ey) + 1 <= X -> -1074 <= X <= 971 ->
  magnitude_below (X + 1) (SFdiv prec emax x (S754_finite sy my ey)).
Proof.
  destruct x as [sx|sx| |sx mx ex]; cbn [magnitude_below SFdiv];
    try contradiction; try (intros; exact I).
  intros HB HX Hrange. unfold SFdiv_core_binary.
  set (d1 := Zdigits2 (Z.pos mx)). set (d2 := Zdigits2 (Z.pos my)).
  set (e' := Z.min (fexp prec emax (d1 + ex - (d2 + ey))) (ex - ey)).
  set (m' := match ex - ey - e' with
             | 0 => Z.pos mx
             | Z.pos _ => Z.shiftl (Z.pos mx) (ex - ey - e')
             | Z.neg _ => 0
             end).
  assert (Hd1 : d1 = Z.pos (digits2_pos mx)) by reflexivity.
  assert (Hd2 : d2 = Z.pos (digits2_pos my)) by reflexivity.
  assert (Hs : e' <= ex - ey) by apply Z.le_min_r.
  assert (Hfexp : e' <= Z.max (d1 + ex - (d2 + ey) - 53) (-1074)).
  { etransitivity; [apply Z.le_min_l |].
    unfold fexp, SpecFloat.emin, prec, emax. apply Z.eq_le_incl. reflexivity. }
  assert (Hm' : 0 < m' /\ Zdigits2 m' = d1 + (ex - ey - e')).
  { unfold m'. clear m'. clearbody e' d1 d2.
    destruct (ex - ey - e') as [|p|p] eqn:Hp; try lia.
    - split; [lia | cbn [Zdigits2]; lia].
    - split.
      + rewrite Z.shiftl_mul_pow2 by lia. apply Z.mul_pos_pos; [lia|].
        apply Z.pow_pos_nonneg; lia.
      + rewrite Zdigits2_shiftl by lia. cbn [Zdigits2]. lia. }
  clearbody m' e' d1. destruct Hm' as [Hpos Hdig].
  pose proof (Z_div_mod m' (Z.pos my) ltac:(lia)) as Hdiv.
  change IntDef.Z.div_eucl with Z.div_eucl.
  destruct (Z.div_eucl m' (Z.pos my)) as [q r] eqn:Hqr.
  assert (Hq : q = m' / Z.pos my) by (unfold Z.div; rewrite Hqr; reflexivity).
  assert (Hq0 : 0 <= q) by (rewrite Hq; apply Z.div_pos; lia).
  assert (Hqd : Zdigits2 q <= Z.max 0 (Zdigits2 m' - (d2 - 1))).
  { assert (Hlog : 2 ^ (d2 - 1) <= Z.pos my).
    { unfold d2. rewrite Zdigits2_log2 by lia.
      replace (Z.log2 (Z.pos my) + 1 - 1) with (Z.log2 (Z.pos my)) by lia.
      apply Z.log2_spec. lia. }
    clearbody d2.
    assert (Hle : q <= Z.shiftr m' (d2 - 1)).
    { rewrite Hq, Z.shiftr_div_pow2 by lia.
      apply Z.div_le_compat_l; [lia|]. split; [| exact Hlog].
      apply Z.pow_pos_nonneg; lia. }
    pose proof (Zdigits2_shiftr m' (d2 - 1) ltac:(lia) ltac:(lia)) as Hsr.
    pose proof (Zdigits2_le q (Z.shiftr m' (d2 - 1)) (conj Hq0 Hle)). lia. }
  clearbody d2.
  apply binary_round_aux_magnitude; [exact Hq0 | | exact Hrange].
  lia.
Qed.

End Magnitude.

(** ** Selection *)

Section Selection.

Variable cfg : config.

Lemma improves_qualifies (b : best) (r : probe_result) :
  improves cfg b r = qualifies cfg r && py_gt (net_profit_weth r) (best_net_profit b).
Proof.
  unfold improves, qualifies.
  destruct (profitable r), (MIN_PROFIT_THRESHOLD cfg <=? estimated_profit r),
    (py_gt (net_profit_weth r) (best_net_profit b)),
    (py_gt (net_profit_weth r) (PInt 0)); reflexivity.
Qed.

Lemma qualifies_positive (r : probe_result) :
  qualifies cfg r = true -> py_gt (net_profit_weth r) (PInt 0) = true.
Proof.
  unfold qualifies. intro H. apply andb_true_iff in H. tauto.
Qed.

Lemma candidate_beats_initial (r : probe_result) :
  qualifies cfg r = true -> improves cfg initial_best r = true.
Proof.
  intro H. rewrite improves_qualifies, H. simpl.
  apply (positive_is_number _ (qualifies_positive r H)).
Qed.

Lemma selection_step (seen : list (Pair * N * probe_result)) (b : best)
    (x : Pair * N * probe_result) :
  selection cfg seen b -> selection cfg (seen ++ [x]) (update_best cfg b x).
Proof.
  destruct x as [[p amount_in] r]. intros [Hnone | before after p0 a0 r0 Hseen Hq0 Hbefore Hafter];
    unfold update_best.
  - destruct (qualifies cfg r) eqn:Hq.
    + rewrite (candidate_beats_initial r Hq).
      apply (first_greatest cfg _ seen [] p amount_in r); auto.
      * intros y Hy Hqy. rewrite (Hnone y Hy) in Hqy. discriminate.
      * intros y [].
    + rewrite improves_qualifies, Hq. simpl.
      apply nothing_selected. intros y Hy.
      apply in_app_or in Hy. destruct Hy as [Hy | [<- | []]]; auto.
  - rewrite improves_qualifies.
    destruct (qualifies cfg r) eqn:Hq; simpl;
      [destruct (py_gt (net_profit_weth r) (net_profit_weth r0)) eqn:Hgt |].
    + apply (first_greatest cfg _ (before ++ (p0, a0, r0) :: after) [] p amount_in r);
        auto; [congruence | | intros y []].
      intros y Hy Hqy. apply in_app_or in Hy. unfold py_gt in *.
      destruct Hy as [Hy | [<- | Hy]].
      * exact (xgt_trans _ _ _ Hgt (Hbefore y Hy Hqy)).
      * exact Hgt.
      * apply (xgt_after_not_gt _ _ _ Hgt (Hafter y Hy Hqy)).
        apply (positive_is_number _ (qualifies_positive _ Hqy)).
    + apply (first_greatest cfg _ before (after ++ [(p, amount_in, r)]) p0 a0 r0); auto.
      * rewrite Hseen, <- app_assoc. reflexivity.
      * intros y Hy Hqy. apply in_app_or in Hy.
        destruct Hy as [Hy | [<- | []]]; auto.
    + apply (first_greatest cfg _ before (after ++ [(p, amount_in, r)]) p0 a0 r0); auto.
      * rewrite Hseen, <- app_assoc. reflexivity.
      * intros y Hy Hqy. apply in_app_or in Hy.
        destruct Hy as [Hy | [<- | []]]; auto.
        simpl in Hqy. congruence.
Qed.

Lemma selection_fold (rest seen : list (Pair * N * probe_result)) (b : best) :
  selection cfg seen b ->
  selection cfg (seen ++ rest) (fold_left (update_best cfg) rest b).
Proof.
  revert seen b. induction rest as [|x rest IH]; intros seen b H; simpl.
  - rewrite app_nil_r. exact H.
  - replace (seen ++ x :: rest) with ((seen ++ [x]) ++ rest)
      by (rewrite <- app_assoc; reflexivity).
    apply IH. apply selection_step. exact H.
Qed.

Lemma select_best_selection (results : list (Pair * N * probe_result)) :
  selection cfg results (select_best cfg results).
Proof.
  apply (selection_fold results [] initial_best).
  apply nothing_selected. intros x [].
Qed.

End Selection.

(** The probes of one scan are the pairs (outer loop) with the amounts
    (inner loop), in the order of the two lists. *)
Lemma enumerate_snd {A : Type} (xs : list A) (i : nat) :
  map snd (enumerate i xs) = xs.
Proof.
  revert i. induction xs as [|x xs IH]; intro i; simpl; [reflexivity|].
  rewrite IH. reflexivity.
Qed.

Lemma probe_sequence_order (cfg : config) (world : nat -> nat -> probe_env) :
  map fst (probe_sequence cfg world) = list_prod (PAIRS cfg) (LOAN_AMOUNTS cfg).
Proof.
  unfold probe_sequence.
  generalize 0%nat at 2. generalize (PAIRS cfg) as pairs.
  induction pairs as [|p pairs IH]; intro i; simpl; [reflexivity|].
  rewrite map_app, IH. f_equal.
  rewrite map_map. simpl.
  rewrite <- (enumerate_snd (LOAN_AMOUNTS cfg) 0) at 2.
  rewrite map_map. reflexivity.
Qed.

(** C1. Over any list of probe results, in scan order, the selection loop
    ends in one of two ways.  Either the [best_*] locals hold a candidate
    (flagged profitable, gross profit at least the threshold, net profit
    positive) whose net profit is strictly greater than that of every
    candidate before it and not exceeded by any candidate after it: the
    greatest net profit, the first seen among equals.  Or the list has no
    candidate, nothing is selected, and the cycle returns [False] having
    only logged: nothing is built, signed or broadcast and the nonce is
    untouched.  The scan order is pairs in the outer loop, amounts in the
    inner one. *)
Theorem selection_takes_first_greatest_net_profit :
  forall (cfg : config) (results : list (Pair * N * probe_result)),
    ((exists before p amount_in r after,
        results = before ++ (p, amount_in, r) :: after
        /\ qualifies cfg r = true
        /\ select_best cfg results = chosen p amount_in r
        /\ (forall x, In x before -> qualifies cfg (result_of x) = true ->
                      py_gt (net_profit_weth r) (net_profit_weth (result_of x)) = true)
        /\ (forall x, In x after -> qualifies cfg (result_of x) = true ->
                      py_gt (net_profit_weth (result_of x)) (net_profit_weth r) = false))
     \/ ((forall x, In x results -> qualifies cfg (result_of x) = false)
         /\ best_profitable (select_best cfg results) = false
         /\ forall env s,
             execute_selected cfg env results s = idle_outcome NoProfitableOpportunity s))
    /\ forall world,
        map fst (probe_sequence cfg world) = list_prod (PAIRS cfg) (LOAN_AMOUNTS cfg).
Proof.
  intros cfg results. split; [| apply probe_sequence_order].
  pose proof (select_best_selection cfg results) as H.
  unfold execute_selected.
  remember (select_best cfg results) as b eqn:Hb.
  destruct H as [Hnone | before after p amount_in r Hres Hq Hbefore Hafter].
  - right. repeat split; auto.
  - left. exists before, p, amount_in, r, after. repeat split; auto.
Qed.

(** The spec's example: of net profits 0.0005 and 0.002 the selection takes
    0.002; of two equal net profits it takes the first. *)
Lemma selection_examples :
  select_best reference_config two_candidates
  = chosen USDC_WETH (Z.to_N (10 * ether)) (candidate (float_literal 2 1000))
  /\ select_best reference_config (rev two_candidates)
     = chosen USDC_WETH (Z.to_N (10 * ether)) (candidate (float_literal 2 1000))
  /\ select_best reference_config tied_candidates
     = chosen WETH_USDT (Z.to_N (1 * ether)) (candidate (float_literal 2 1000)).
Proof. vm_compute. repeat split; reflexivity. Qed.

(** ** The probe *)

Ltac step_ok H :=
  match type of H with
  | rbind ?c _ = Ok _ =>
      let E := fresh "E" in
      destruct c eqn:E; cbn [rbind] in H; [| discriminate H]
  end.

Tactic Notation "step" hyp(H) "as" ident(x) ident(E) :=
  match type of H with
  | rbind ?c _ = Ok _ =>
      destruct c as [x|] eqn:E; cbn [rbind] in H; [| discriminate H]
  end.

Section Probe.

Lemma literal_0_003 : float_literal 3 1000 = S754_finite false 6917529027641082 (-61).
Proof. vm_compute. reflexivity. Qed.

Lemma literal_1e18 : float_literal (10 ^ 18) 1 = S754_finite false 7812500000000000 7.
Proof. vm_compute. reflexivity. Qed.

Lemma literal_0_01 : float_literal 1 100 = S754_finite false 5764607523034235 (-59).
Proof. vm_compute. reflexivity. Qed.

Lemma literal_1_2 : GAS_BUFFER = S754_finite false 5404319552844595 (-52).
Proof. vm_compute. reflexivity. Qed.

Lemma from_wei_uint256 (n : N) : is_uint256 n -> exists v, from_wei n = Ok v.
Proof.
  unfold is_uint256, from_wei. intro H.
  destruct (n =? 0)%N; [eexists; reflexivity|].
  destruct (N.ltb_spec MAX_WEI n); [lia | eexists; reflexivity].
Qed.

(** [from_wei] hands back a [Decimal] for everything but 0. *)
Lemma from_wei_int (n : N) (z : Z) : from_wei n = Ok (PInt z) -> n = 0%N /\ z = 0.
Proof.
  unfold from_wei. destruct (N.eqb_spec n 0); [intro H; inversion H; auto|].
  destruct (MAX_WEI <? n)%N; discriminate.
Qed.

Lemma from_wei_not_float (n : N) (f : float) : from_wei n <> Ok (PFloat f).
Proof.
  unfold from_wei. destruct (n =? 0)%N; [discriminate|].
  destruct (MAX_WEI <? n)%N; discriminate.
Qed.

Lemma int_mul_float_nonneg (n : N) (y f : float) :
  not_negative y = true -> int_mul_float (Z.of_N n) y = Ok f -> not_negative f = true.
Proof.
  unfold int_mul_float. intros Hy H. step_ok H. inversion H; subst.
  apply float_mul_nonneg; [| exact Hy].
  apply (float_of_int_nonneg (Z.of_N n)); [lia | exact E].
Qed.

Lemma float_mul_int_nonneg (x : float) (n : N) (f : float) :
  not_negative x = true -> float_mul_int x (Z.of_N n) = Ok f -> not_negative f = true.
Proof.
  unfold float_mul_int. intros Hx H. step_ok H. inversion H; subst.
  apply float_mul_nonneg; [exact Hx|].
  apply (float_of_int_nonneg (Z.of_N n)); [lia | exact E].
Qed.

Lemma total_fees_wei_nonneg (token_out weth_out : N) (z : Z) :
  total_fees_wei token_out weth_out = Ok z -> 0 <= z.
Proof.
  unfold total_fees_wei. intro H. do 2 step_ok H.
  apply (int_of_float_nonneg _ _ (float_add_nonneg _ _
           (int_mul_float_nonneg _ (float_literal 3 1000) _ eq_refl E)
           (int_mul_float_nonneg _ (float_literal 3 1000) _ eq_refl E0)) H).
Qed.

Lemma int_div_float_nonneg (z : Z) (my : positive) (ey : Z) (f : float) :
  0 <= z -> int_div_float z (S754_finite false my ey) = Ok f -> not_negative f = true.
Proof.
  unfold int_div_float. intros Hz H. step_ok H.
  unfold float_div in H. simpl in H. inversion H; subst.
  apply SFdiv_nonneg. apply (float_of_int_nonneg z); assumption.
Qed.

Lemma int_truediv_nonneg (z : Z) (f : float) :
  0 <= z -> int_truediv z (10 ^ 18) = Ok f -> not_negative f = true.
Proof.
  unfold int_truediv. change (10 ^ 18 =? 0) with false. cbv iota.
  change (exact_int (10 ^ 18)) with (S754_finite false (Z.to_pos (10 ^ 18)) 0).
  intros Hz H.
  pose proof (SFdiv_nonneg (exact_int z) (Z.to_pos (10 ^ 18)) 0 (exact_int_nonneg z Hz)) as Hs.
  destruct (is_infinite _); [discriminate|]. inversion H; subst. exact Hs.
Qed.

(** The gas cost of a probe is never negative, and a local is unbound only
    on the fallback. *)
Lemma estimate_gas_cost_nonneg (w : probe_env) (amount_in : N) (g : gas_locals) :
  estimate_gas_cost w amount_in = Ok g -> not_negative (gas_cost_weth g) = true.
Proof.
  unfold estimate_gas_cost. intro H.
  assert (Hfallback : forall ge gp gcw,
             (_ <- from_wei amount_in ;;
              Ok {| gas_estimate := ge; gas_price := gp; gas_cost_wei := gcw;
                    gas_cost_weth := float_literal 1 100 |})%result = Ok g ->
             not_negative (gas_cost_weth g) = true).
  { intros ge gp gcw H'. step_ok H'. inversion H'; subst. reflexivity. }
  destruct (probe_estimate_gas w) as [ge|]; [| eauto].
  destruct (probe_gas_price w) as [gp|]; [| eauto].
  destruct (rbind (int_mul_float (Z.of_N ge) GAS_BUFFER) _) as [gcw|] eqn:Ecost; [| eauto].
  destruct (int_truediv gcw (10 ^ 18)) as [weth|] eqn:Ediv; [| eauto].
  inversion H; subst; simpl.
  apply (int_truediv_nonneg gcw); [| exact Ediv].
  do 2 step_ok Ecost.
  apply (int_of_float_nonneg _ _ (float_mul_int_nonneg _ _ _
           (int_mul_float_nonneg _ GAS_BUFFER _ eq_refl E) E0) Ecost).
Qed.

(** A local of the inner [try] is bound only if the call that assigns it
    answered; when the gas estimation fails the cost is the fallback 0.01. *)
Lemma estimate_gas_cost_bound (w : probe_env) (amount_in : N) (g : gas_locals) :
  estimate_gas_cost w amount_in = Ok g ->
  (forall ge, gas_estimate g = Some ge ->
              probe_estimate_gas w = Ok ge
              /\ (gas_price g = None -> gas_cost_weth g = float_literal 1 100))
  /\ (forall gp, gas_price g = Some gp -> probe_gas_price w = Ok gp).
Proof.
  unfold estimate_gas_cost. intro H.
  destruct (probe_estimate_gas w) as [ge|];
    [destruct (probe_gas_price w) as [gp|];
     [destruct (rbind (int_mul_float (Z.of_N ge) GAS_BUFFER) _) as [gcw|];
      [destruct (int_truediv gcw (10 ^ 18)) as [weth|] | ] | ] | ];
    try (step H as v Ev); injection H as <-;
    cbn [gas_estimate gas_price gas_cost_weth];
    (split; intros x Hx; try discriminate Hx; injection Hx as <-;
     repeat split; auto; discriminate).
Qed.

Lemma estimate_gas_cost_fallback (w : probe_env) (amount_in : N) :
  is_uint256 amount_in ->
  gas_estimation_fails w ->
  exists g, estimate_gas_cost w amount_in = Ok g
            /\ gas_cost_weth g = float_literal 1 100
            /\ (gas_estimate g = None \/ gas_price g = None).
Proof.
  intros Hamount Hfails. unfold estimate_gas_cost.
  destruct (from_wei_uint256 _ Hamount) as [v ->]. cbn [rbind].
  destruct (probe_estimate_gas w) as [ge|] eqn:Ege.
  - destruct (probe_gas_price w) as [gp|] eqn:Egp.
    + destruct Hfails as [[e He] | [e He]]; congruence.
    + eexists. repeat split. right. reflexivity.
  - eexists. repeat split. left. reflexivity.
Qed.

(** When the body of the probe comes to its [return], the contract reported
    a profit of 0 and the net profit is [0 - fees - gas], not positive. *)
Lemma simulate_arbitrage_body_returns (w : probe_env) (amount_in : N) (r : probe_result) :
  simulate_arbitrage_body w amount_in = Ok r ->
  simulateArbitrage w = Ok (profitable r, 0%N)
  /\ estimated_profit r = 0
  /\ answers_all w = true
  /\ exists net, net_profit_weth r = PFloat net /\ not_positive net = true.
Proof.
  unfold simulate_arbitrage_body. intro H.
  step H as out1 Eout1. step H as token_out Etoken. step H as out2 Eout2.
  step H as weth_out Eweth. step H as fee_step1 Efee1. step H as fee_step2 Efee2.
  step H as fees_wei Efees. step H as total_fees_weth Eweth_fees.
  step H as answer Esim. destruct answer as [flag profit].
  step H as g Egas. step H as gross Egross.
  destruct gross as [z | f | d].
  - destruct (from_wei_int _ _ Egross) as [-> ->].
    step H as after_fees Eafter. step H as net Enet. step H as logged Elog.
    step H as ge Ege. step H as gp Egp. step H as gcw Egcw.
    injection H as <-. cbn [profitable estimated_profit net_profit_weth].
    split; [reflexivity | split; [reflexivity | split]].
    { destruct (estimate_gas_cost_bound _ _ _ Egas) as [Hge Hgp].
      unfold answers_all. rewrite Eout1, Etoken, Eout2, Eweth, Esim.
      destruct (gas_estimate g); [| discriminate Ege].
      destruct (gas_price g); [| discriminate Egp].
      destruct (Hge _ eq_refl) as [-> _]. rewrite (Hgp _ eq_refl). reflexivity. }
    exists net. split; [reflexivity|].
    change (Ok (float_sub after_fees (gas_cost_weth g)) = Ok net) in Enet.
    change (Ok (float_sub (S754_zero false) total_fees_weth) = Ok after_fees) in Eafter.
    injection Enet as <-. injection Eafter as <-.
    apply float_sub_nonpos; [| exact (estimate_gas_cost_nonneg _ _ _ Egas)].
    apply (float_sub_nonpos (S754_zero false) total_fees_weth); [reflexivity|].
    rewrite literal_1e18 in Eweth_fees.
    exact (int_div_float_nonneg _ _ _ _ (total_fees_wei_nonneg _ _ _ Efees) Eweth_fees).
  - destruct (from_wei_not_float _ _ Egross).
  - discriminate H.
Qed.

(** *** The arithmetic of a probe on [uint256] answers goes through *)

Lemma uint256_float (n : N) :
  is_uint256 n ->
  exists f, float_of_int (Z.of_N n) = Ok f /\ magnitude_below 257 f.
Proof.
  intro H.
  exact (float_of_int_magnitude (Z.of_N n) 256 (uint256_digits n H) ltac:(lia)).
Qed.

Lemma int_mul_float_magnitude (n : N) (y : float) (Y : Z) :
  is_uint256 n -> magnitude_below Y y -> -1074 <= 257 + Y <= 971 ->
  exists f, int_mul_float (Z.of_N n) y = Ok f /\ magnitude_below (257 + Y + 1) f.
Proof.
  intros Hn Hy Hrange. unfold int_mul_float.
  destruct (uint256_float n Hn) as (x & -> & Hx). cbn [rbind].
  eexists. split; [reflexivity|]. apply float_mul_magnitude; assumption.
Qed.

Lemma fees_go_through (token_out weth_out : N) :
  is_uint256 token_out -> is_uint256 weth_out ->
  exists fee_step1 fee_step2 fees_wei total_fees_weth,
    int_mul_float (Z.of_N token_out) (float_literal 3 1000) = Ok fee_step1
    /\ int_mul_float (Z.of_N weth_out) (float_literal 3 1000) = Ok fee_step2
    /\ total_fees_wei token_out weth_out = Ok fees_wei
    /\ int_div_float fees_wei (float_literal (10 ^ 18) 1) = Ok total_fees_weth.
Proof.
  intros Ht Hw.
  assert (Hlit : magnitude_below (-8) (float_literal 3 1000))
    by (rewrite literal_0_003; cbn; lia).
  destruct (int_mul_float_magnitude token_out _ (-8) Ht Hlit ltac:(lia)) as (f1 & Hf1 & Hm1).
  destruct (int_mul_float_magnitude weth_out _ (-8) Hw Hlit ltac:(lia)) as (f2 & Hf2 & Hm2).
  pose proof (float_add_magnitude f1 f2 250
                (int_mul_float_nonneg _ (float_literal 3 1000) _ eq_refl Hf1)
                (int_mul_float_nonneg _ (float_literal 3 1000) _ eq_refl Hf2)
                Hm1 Hm2 ltac:(lia)) as Hsum.
  destruct (int_of_float_magnitude _ _ Hsum) as (z & Hz & Hzd).
  destruct (float_of_int_magnitude z 252 ltac:(lia) ltac:(lia)) as (x & Hx & _).
  exists f1, f2, z. eexists. repeat split; [exact Hf1 | exact Hf2 | |].
  - unfold total_fees_wei. rewrite Hf1, Hf2. cbn [rbind]. exact Hz.
  - unfold int_div_float. rewrite Hx. cbn [rbind]. rewrite literal_1e18. reflexivity.
Qed.

Lemma gas_goes_through (w : probe_env) (amount_in units price : N) :
  probe_estimate_gas w = Ok units -> probe_gas_price w = Ok price ->
  is_uint256 units -> is_uint256 price ->
  exists cost_wei cost_weth,
    estimate_gas_cost w amount_in
    = Ok {| gas_estimate := Some units; gas_price := Some price;
            gas_cost_wei := Some cost_wei; gas_cost_weth := cost_weth |}.
Proof.
  intros Hunits Hprice Hu Hp. unfold estimate_gas_cost. rewrite Hunits, Hprice.
  assert (Hbuf : magnitude_below 1 GAS_BUFFER) by (rewrite literal_1_2; cbn; lia).
  destruct (int_mul_float_magnitude units _ 1 Hu Hbuf ltac:(lia)) as (f1 & -> & Hm1).
  cbn [rbind]. unfold float_mul_int.
  destruct (uint256_float price Hp) as (fp & -> & Hmp). cbn [rbind].
  pose proof (float_mul_magnitude f1 fp _ _ Hm1 Hmp ltac:(lia)) as Hcost.
  destruct (int_of_float_magnitude _ _ Hcost) as (z & -> & Hzd).
  unfold int_truediv. change (10 ^ 18 =? 0) with false. cbv iota.
  change (exact_int (10 ^ 18)) with (S754_finite false (Z.to_pos (10 ^ 18)) 0).
  assert (Hz : magnitude_below 517 (exact_int z))
    by (destruct z; cbn [exact_int magnitude_below Zdigits2] in *; lia).
  pose proof (SFdiv_magnitude (exact_int z) false (Z.to_pos (10 ^ 18)) 0 517 458 Hz
                ltac:(cbn; lia) ltac:(lia)) as Hq.
  destruct (SFdiv prec emax (exact_int z) _); try contradiction;
    cbn [is_infinite]; eexists; eexists; reflexivity.
Qed.

(** The same, with the figures of lines 191-193. *)
Lemma gas_figures (w : probe_env) (amount_in units price : N) :
  probe_estimate_gas w = Ok units -> probe_gas_price w = Ok price ->
  is_uint256 units -> is_uint256 price ->
  exists buffered product cost_wei cost_weth,
    int_mul_float (Z.of_N units) GAS_BUFFER = Ok buffered
    /\ float_mul_int buffered (Z.of_N price) = Ok product
    /\ int_of_float product = Ok cost_wei
    /\ int_truediv cost_wei (10 ^ 18) = Ok cost_weth
    /\ estimate_gas_cost w amount_in
       = Ok {| gas_estimate := Some units; gas_price := Some price;
               gas_cost_wei := Some cost_wei; gas_cost_weth := cost_weth |}.
Proof.
  intros Hunits Hprice Hu Hp.
  assert (Hbuf : magnitude_below 1 GAS_BUFFER) by (rewrite literal_1_2; cbn; lia).
  destruct (int_mul_float_magnitude units _ 1 Hu Hbuf ltac:(lia)) as (f1 & Hf1 & Hm1).
  destruct (uint256_float price Hp) as (fp & Hfp & Hmp).
  pose proof (float_mul_magnitude f1 fp _ _ Hm1 Hmp ltac:(lia)) as Hcost.
  destruct (int_of_float_magnitude _ _ Hcost) as (z & Hz & Hzd).
  assert (Hproduct : float_mul_int f1 (Z.of_N price) = Ok (float_mul f1 fp))
    by (unfold float_mul_int; rewrite Hfp; reflexivity).
  assert (Hdiv : exists cost, int_truediv z (10 ^ 18) = Ok cost).
  { unfold int_truediv. change (10 ^ 18 =? 0) with false. cbv iota.
    change (exact_int (10 ^ 18)) with (S754_finite false (Z.to_pos (10 ^ 18)) 0).
    assert (Hmz : magnitude_below 517 (exact_int z))
      by (destruct z; cbn [exact_int magnitude_below Zdigits2] in *; lia).
    pose proof (SFdiv_magnitude (exact_int z) false (Z.to_pos (10 ^ 18)) 0 517 458 Hmz
                  ltac:(cbn; lia) ltac:(lia)) as Hq.
    destruct (SFdiv prec emax (exact_int z) _); try contradiction;
      cbn [is_infinite]; eexists; reflexivity. }
  destruct Hdiv as [cost Hdiv].
  exists f1, (float_mul f1 fp), z, cost.
  split; [exact Hf1 | split; [exact Hproduct | split; [exact Hz | split; [exact Hdiv |]]]].
  unfold estimate_gas_cost. rewrite Hunits, Hprice, Hf1. cbn [rbind].
  rewrite Hproduct. cbn [rbind]. rewrite Hz, Hdiv. reflexivity.
Qed.

Lemma estimate_gas_cost_total (w : probe_env) (amount_in : N) :
  is_uint256 amount_in -> exists g, estimate_gas_cost w amount_in = Ok g.
Proof.
  intro H. unfold estimate_gas_cost. destruct (from_wei_uint256 _ H) as [v ->].
  cbn [rbind].
  repeat match goal with
         | |- context [match ?x with _ => _ end] => destruct x
         end; eexists; reflexivity.
Qed.

(** With every call answering in [uint256] and a profit other than 0, the
    body raises [TypeError] at the subtraction. *)
Lemma nonzero_profit_raises_TypeError (w : probe_env) (amount_in : N)
    (token_out weth_out : N) (flag : bool) (profit units price : N) :
  answers w token_out weth_out flag profit units price ->
  is_uint256 amount_in -> is_uint256 token_out -> is_uint256 weth_out ->
  is_uint256 profit -> profit <> 0%N ->
  simulate_arbitrage_body w amount_in = Raise TypeError.
Proof.
  intros (out1 & out2 & H1 & H2 & H3 & H4 & H5 & _) Ha Ht Hw Hp Hne.
  unfold simulate_arbitrage_body.
  destruct (fees_go_through token_out weth_out Ht Hw) as (f1 & f2 & z & fees & F1 & F2 & F3 & F4).
  destruct (estimate_gas_cost_total w amount_in Ha) as [g Hg].
  rewrite H1. cbn [rbind]. rewrite H2. cbn [rbind]. rewrite H3. cbn [rbind].
  rewrite H4. cbn [rbind]. rewrite F1. cbn [rbind]. rewrite F2. cbn [rbind].
  rewrite F3. cbn [rbind]. rewrite F4. cbn [rbind]. rewrite H5. cbn [rbind].
  rewrite Hg. cbn [rbind].
  unfold from_wei at 1. destruct (N.eqb_spec profit 0); [contradiction|].
  unfold is_uint256 in Hp. destruct (N.ltb_spec MAX_WEI profit); [lia|].
  reflexivity.
Qed.

(** With every call answering in [uint256] and a profit of 0, the probe
    returns its own figures: the fees of lines 162-165, the gas cost of
    lines 191-193, and [0 - fees - gas]. *)
Lemma zero_profit_figures (w : probe_env) (amount_in : N)
    (token_out weth_out : N) (flag : bool) (units price : N) :
  answers w token_out weth_out flag 0 units price ->
  is_uint256 amount_in -> is_uint256 token_out -> is_uint256 weth_out ->
  is_uint256 units -> is_uint256 price ->
  exists (fees_wei : Z) (fees buffered product : float) (cost_wei : Z) (cost : float),
    total_fees_wei token_out weth_out = Ok fees_wei
    /\ int_div_float fees_wei (float_literal (10 ^ 18) 1) = Ok fees
    /\ int_mul_float (Z.of_N units) GAS_BUFFER = Ok buffered
    /\ float_mul_int buffered (Z.of_N price) = Ok product
    /\ int_of_float product = Ok cost_wei
    /\ int_truediv cost_wei (10 ^ 18) = Ok cost
    /\ simulate_arbitrage w amount_in
       = Ok {| profitable := flag; estimated_profit := 0;
               net_profit_weth := PFloat (float_sub (float_sub (exact_int 0) fees) cost);
               gas_cost := PFloat cost |}
    /\ not_positive (float_sub (float_sub (exact_int 0) fees) cost) = true.
Proof.
  intros (out1 & out2 & H1 & H2 & H3 & H4 & H5 & H6 & H7) Ha Ht Hw Hu Hp.
  destruct (fees_go_through token_out weth_out Ht Hw) as (f1 & f2 & z & fees & F1 & F2 & F3 & F4).
  destruct (gas_figures w amount_in units price H6 H7 Hu Hp)
    as (buffered & product & cw & cost & G1 & G2 & G3 & G4 & Hg).
  destruct (from_wei_uint256 _ Ha) as [v Hv].
  assert (Hbody : simulate_arbitrage_body w amount_in
                  = Ok {| profitable := flag; estimated_profit := 0;
                          net_profit_weth :=
                            PFloat (float_sub (float_sub (exact_int 0) fees) cost);
                          gas_cost := PFloat cost |}).
  { unfold simulate_arbitrage_body.
    rewrite H1. cbn [rbind]. rewrite H2. cbn [rbind]. rewrite H3. cbn [rbind].
    rewrite H4. cbn [rbind]. rewrite F1. cbn [rbind]. rewrite F2. cbn [rbind].
    rewrite F3. cbn [rbind]. rewrite F4. cbn [rbind]. rewrite H5. cbn [rbind].
    rewrite Hg. cbn [rbind gas_cost_weth gas_estimate gas_price gas_cost_wei].
    change (from_wei 0) with (Ok (PInt 0)). cbn [rbind].
    change (sub_float (PInt 0) fees) with (Ok (float_sub (exact_int 0) fees)).
    cbn [rbind sub_float]. rewrite Hv. reflexivity. }
  exists z, fees, buffered, product, cw, cost.
  repeat (split; [assumption |]). split.
  - unfold simulate_arbitrage. rewrite Hbody. reflexivity.
  - destruct (simulate_arbitrage_body_returns _ _ _ Hbody) as (_ & _ & _ & net & Hnet & Hsign).
    cbn [net_profit_weth] in Hnet. injection Hnet as <-. exact Hsign.
Qed.

Lemma failure_tuple_never_improves (cfg : config) (b : best) :
  improves cfg b failure_tuple = false.
Proof. reflexivity. Qed.

(** A probe on a [uint256] amount always returns, and what it returns never
    passes the test of the selection loop. *)
Lemma simulate_arbitrage_never_improves (w : probe_env) (amount_in : N) :
  is_uint256 amount_in ->
  exists r, simulate_arbitrage w amount_in = Ok r
            /\ (simulate_arbitrage_body w amount_in = Ok r \/ r = failure_tuple)
            /\ (forall cfg b, improves cfg b r = false)
            /\ (forall cfg, qualifies cfg r = false).
Proof.
  intro Hamount. unfold simulate_arbitrage.
  destruct (simulate_arbitrage_body w amount_in) as [r|e] eqn:Hbody; cbn [rcatch].
  - exists r. split; [reflexivity | split; [left; reflexivity |]].
    destruct (simulate_arbitrage_body_returns _ _ _ Hbody) as (_ & _ & _ & net & Hnet & Hsign).
    assert (Hgt : py_gt (net_profit_weth r) (PInt 0) = false)
      by (rewrite Hnet; apply not_positive_not_gt; exact Hsign).
    split; intros; unfold improves, qualifies; rewrite Hgt; apply andb_false_r.
  - destruct (from_wei_uint256 _ Hamount) as [v ->]. cbn [rbind].
    exists failure_tuple. repeat split; auto.
Qed.

Lemma scan_loop_never_selects (cfg : config) (probes : list (Pair * N * probe_env)) (b : best) :
  Forall (fun probe => is_uint256 (snd (fst probe))) probes ->
  scan_loop cfg probes b = Ok b.
Proof.
  induction 1 as [| [[p amount_in] w] probes Hamount _ IH]; [reflexivity|].
  cbn [scan_loop]. simpl in Hamount.
  destruct (simulate_arbitrage_never_improves w amount_in Hamount) as (r & -> & _ & Hr & _).
  destruct (from_wei_uint256 _ Hamount) as [v ->]. cbn [rbind].
  unfold update_best. rewrite Hr. exact IH.
Qed.

Lemma probe_sequence_amounts (cfg : config) (world : nat -> nat -> probe_env) :
  Forall is_uint256 (LOAN_AMOUNTS cfg) ->
  Forall (fun probe => is_uint256 (snd (fst probe))) (probe_sequence cfg world).
Proof.
  intro H. apply Forall_forall. intros [[p amount_in] w] Hin. simpl.
  apply (in_map fst) in Hin. rewrite probe_sequence_order in Hin. simpl in Hin.
  apply in_prod_iff in Hin. destruct Hin as [_ Hin].
  exact (proj1 (Forall_forall _ _) H _ Hin).
Qed.

(** Whatever the network answers, a cycle ends right after the scan. *)
Lemma execute_arbitrage_idle (cfg : config) (env : cycle_env) (s : agent_state) :
  Forall is_uint256 (LOAN_AMOUNTS cfg) ->
  execute_arbitrage cfg env s = idle_outcome NoProfitableOpportunity s.
Proof.
  intro H. unfold execute_arbitrage, bind, call.
  rewrite (scan_loop_never_selects cfg _ initial_best (probe_sequence_amounts cfg _ H)).
  reflexivity.
Qed.

End Probe.

(** C3 as stated fails: when the contract reports a profit of 0, [from_wei]
    hands back the [int] 0, the subtraction is a float subtraction, and a
    probe whose calls all answer returns its own figures, not
    [(False, 0, 0, 0)]. *)
Lemma zero_profit_probe_returns_its_figures :
  answers_all zero_profit_probe = true
  /\ simulate_arbitrage zero_profit_probe (Z.to_N ether)
     = Ok {| profitable := false;
             estimated_profit := 0;
             net_profit_weth := PFloat (S754_finite true 5878170294696774 (-59));
             gas_cost := PFloat (S754_finite false 8301034833169298 (-60)) |}
  /\ simulate_arbitrage zero_profit_probe (Z.to_N ether) <> Ok failure_tuple.
Proof.
  split; [reflexivity | split; [vm_compute; reflexivity |]].
  vm_compute. discriminate.
Qed.

(** C3, amended. Take a probe in which every call answers, in [uint256].
    When the contract reports a profit other than 0, the gross profit is a
    [Decimal] while the fee is a float: the subtraction raises [TypeError] in
    the body, the handler catches it and the probe returns [(False, 0, 0, 0)].
    When the contract reports a profit of 0, [from_wei] hands back the [int]
    0, nothing is raised, and the probe returns
    [(profitable, 0, 0 - fees - gas, gas)], where [fees] is
    [int(token_out * 0.003 + weth_out * 0.003) / 1e18] and [gas] is
    [int(units * GAS_BUFFER * price) / 10**18]; this net profit does not
    exceed 0.  Either way, and
    for every probe whatever its calls answer, the result never passes the
    test of the selection loop: no probe yields a selectable opportunity and
    every cycle ends right after the scan. *)
Theorem probe_never_yields_an_opportunity :
  forall (w : probe_env) (amount_in token_out weth_out : N) (flag : bool)
         (profit units price : N),
    answers w token_out weth_out flag profit units price ->
    is_uint256 amount_in -> is_uint256 token_out -> is_uint256 weth_out ->
    is_uint256 profit -> is_uint256 units -> is_uint256 price ->
    (profit <> 0%N ->
       simulate_arbitrage_body w amount_in = Raise TypeError
       /\ simulate_arbitrage w amount_in = Ok failure_tuple)
    /\ (profit = 0%N ->
        exists (fees_wei : Z) (fees buffered product : float) (cost_wei : Z)
               (cost : float),
          total_fees_wei token_out weth_out = Ok fees_wei
          /\ int_div_float fees_wei (float_literal (10 ^ 18) 1) = Ok fees
          /\ int_mul_float (Z.of_N units) GAS_BUFFER = Ok buffered
          /\ float_mul_int buffered (Z.of_N price) = Ok product
          /\ int_of_float product = Ok cost_wei
          /\ int_truediv cost_wei (10 ^ 18) = Ok cost
          /\ simulate_arbitrage w amount_in
             = Ok {| profitable := flag; estimated_profit := 0;
                     net_profit_weth :=
                       PFloat (float_sub (float_sub (exact_int 0) fees) cost);
                     gas_cost := PFloat cost |}
          /\ py_gt (PFloat (float_sub (float_sub (exact_int 0) fees) cost)) (PInt 0)
             = false)
    /\ (forall w' amount',
          is_uint256 amount' ->
          exists r, simulate_arbitrage w' amount' = Ok r
                    /\ (forall cfg b, improves cfg b r = false)
                    /\ (forall cfg, qualifies cfg r = false))
    /\ (forall cfg env s,
          Forall is_uint256 (LOAN_AMOUNTS cfg) ->
          execute_arbitrage cfg env s = idle_outcome NoProfitableOpportunity s).
Proof.
  intros w amount_in token_out weth_out flag profit units price
         Hanswers Ha Ht Hw Hp Hu Hpr.
  split; [| split; [| split]].
  - intro Hne.
    pose proof (nonzero_profit_raises_TypeError _ _ _ _ _ _ _ _ Hanswers Ha Ht Hw Hp Hne)
      as Hbody.
    split; [exact Hbody |]. unfold simulate_arbitrage. rewrite Hbody. cbn [rcatch].
    destruct (from_wei_uint256 _ Ha) as [v ->]. reflexivity.
  - intros ->.
    destruct (zero_profit_figures _ _ _ _ _ _ _ Hanswers Ha Ht Hw Hu Hpr)
      as (fees_wei & fees & buffered & product & cost_wei & cost
          & H1 & H2 & H3 & H4 & H5 & H6 & Hr & Hsign).
    exists fees_wei, fees, buffered, product, cost_wei, cost.
    repeat (split; [assumption |]). exact (not_positive_not_gt _ Hsign).
  - intros w' amount' Ha'.
    destruct (simulate_arbitrage_never_improves w' amount' Ha') as (r & Hr & _ & H1 & H2).
    exists r. repeat split; assumption.
  - intros cfg env s. apply execute_arbitrage_idle.
Qed.

Lemma probe_never_yields_an_opportunity_witness :
  simulate_arbitrage_body profitable_probe (Z.to_N ether) = Raise TypeError
  /\ simulate_arbitrage profitable_probe (Z.to_N ether) = Ok failure_tuple.
Proof.
  assert (Hanswers : answers profitable_probe 2000000000 (Z.to_N (1020 * 10 ^ 15)) true
                             (Z.to_N (20 * 10 ^ 15)) 200000 (Z.to_N (30 * gwei))).
  { exists [Z.to_N ether; 2000000000%N], [2000000000%N; Z.to_N (1020 * 10 ^ 15)].
    repeat split; reflexivity. }
  assert (Hsmall : forall n, (N.leb n MAX_WEI = true) -> is_uint256 n)
    by (intros n H; apply N.leb_le; exact H).
  refine (proj1 (probe_never_yields_an_opportunity
                   profitable_probe (Z.to_N ether) 2000000000 (Z.to_N (1020 * 10 ^ 15)) true
                   (Z.to_N (20 * 10 ^ 15)) 200000 (Z.to_N (30 * gwei))
                   Hanswers _ _ _ _ _ _) _);
    try (apply Hsmall; vm_compute; reflexivity).
  vm_compute. discriminate.
Defined.

(** ** Submission and the nonce *)

Ltac run_agent_step :=
  cbv beta iota zeta delta
    [attempt catch submit resynchronize acquire_nonce bind call emit ret
     get_last_nonce put_last_nonce subscript rbind] in *;
  cbn [last_nonce trace tx_pair tx_amount tx_deadline maxFeePerGas
       maxPriorityFeePerGas nonce chainId gas fst snd] in *.

(** Follow the control flow: split on the innermost call that decides it. *)
Ltac walk :=
  repeat (run_agent_step;
          match goal with
          | |- context [match ?x with _ => _ end] =>
              lazymatch x with
              | context [match _ with _ => _ end] => fail
              | _ => destruct x eqn:?
              end
          end);
  run_agent_step.

Section Submission.

Lemma new_events_app (held held' : option Z) (tr evs : list event) :
  new_events {| last_nonce := held; trace := tr |}
             {| last_nonce := held'; trace := tr ++ evs |} = evs.
Proof.
  unfold new_events. cbn [trace].
  rewrite skipn_app, skipn_all, Nat.sub_diag. reflexivity.
Qed.

Lemma new_events_same (held held' : option Z) (tr : list event) :
  new_events {| last_nonce := held; trace := tr |}
             {| last_nonce := held'; trace := tr |} = [].
Proof. unfold new_events. cbn [trace]. apply skipn_all. Qed.

Ltac settle_events :=
  rewrite <- ?app_assoc; cbn [app];
  rewrite ?new_events_app, ?new_events_same.

Lemma py_min_is_min (cap suggested : Z) :
  py_min (Some cap) suggested = Ok (Z.min cap suggested).
Proof.
  unfold py_min. f_equal. destruct (Z.ltb_spec suggested cap); lia.
Qed.

(** Every transaction of an attempt carries the fees the attempt was given. *)
Lemma attempt_fees (env : cycle_env) (b : best) (max_fee priority_fee : Z)
    (s : agent_state) (tx : transaction) :
  In tx (transactions_in (new_events s (snd (attempt env b max_fee priority_fee s)))) ->
  maxFeePerGas tx = max_fee /\ maxPriorityFeePerGas tx = priority_fee.
Proof.
  destruct s as [held tr]. unfold attempt, catch, submit. walk;
    settle_events; cbn [transactions_in flat_map app In];
    intro H; repeat (destruct H as [<- | H]; [split; reflexivity |]);
    destruct H.
Qed.

(** An attempt that logs the failure status of its receipt holds afterwards
    one less than the nonce it acquired. *)
Lemma attempt_reverted (env : cycle_env) (b : best) (max_fee priority_fee : Z)
    (s : agent_state) :
  In (Logged TransactionFailed)
     (new_events s (snd (attempt env b max_fee priority_fee s))) ->
  fst (attempt env b max_fee priority_fee s) = Ok false
  /\ match last_nonce s with
     | Some held => last_nonce (snd (attempt env b max_fee priority_fee s)) = Some held
     | None => exists count,
         get_transaction_count env = Ok count
         /\ last_nonce (snd (attempt env b max_fee priority_fee s)) = Some (count - 1)
     end.
Proof.
  destruct s as [held tr]. unfold attempt, catch, submit. walk;
    settle_events; cbn [In]; intro H;
    try (exfalso; clear - H; intuition discriminate); clear H.
  - split; [reflexivity | f_equal; lia].
  - split; [reflexivity | eexists; split; reflexivity].
Qed.

(** An attempt that returns [True] holds afterwards the nonce it acquired. *)
Lemma attempt_confirmed (env : cycle_env) (b : best) (max_fee priority_fee : Z)
    (s : agent_state) :
  fst (attempt env b max_fee priority_fee s) = Ok true ->
  match last_nonce s with
  | Some held => last_nonce (snd (attempt env b max_fee priority_fee s)) = Some (held + 1)
  | None => exists count,
      get_transaction_count env = Ok count
      /\ last_nonce (snd (attempt env b max_fee priority_fee s)) = Some count
  end.
Proof.
  destruct s as [held tr]. unfold attempt, catch, submit. walk;
    intro H; try discriminate H; try reflexivity.
  eexists; split; reflexivity.
Qed.

(** An attempt whose [try] body raises and whose handler gets an answer
    holds that answer afterwards. *)
Lemma attempt_resynchronized (env : cycle_env) (b : best) (max_fee priority_fee : Z)
    (s : agent_state) (e : exn) (count : Z) :
  fst (submit env b max_fee priority_fee s) = Raise e ->
  resync_transaction_count env = Ok count ->
  fst (attempt env b max_fee priority_fee s) = Ok false
  /\ last_nonce (snd (attempt env b max_fee priority_fee s)) = Some count.
Proof.
  unfold attempt, catch. intros Hraise Hcount.
  destruct (submit env b max_fee priority_fee s) as [[ok | e'] s'];
    [discriminate Hraise |].
  unfold resynchronize. run_agent_step. rewrite Hcount. run_agent_step.
  split; reflexivity.
Qed.

(** An attempt never logs a refusal of the gas guard. *)
Lemma attempt_logs_no_refusal (env : cycle_env) (b : best) (max_fee priority_fee : Z)
    (s : agent_state) (fee : Z) :
  ~ In (Logged (MaxFeeTooHigh fee))
       (new_events s (snd (attempt env b max_fee priority_fee s))).
Proof.
  destruct s as [held tr]. unfold attempt, catch, submit. walk;
    settle_events; cbn [In]; intro H; clear - H; intuition discriminate.
Qed.

Lemma after_scan_nothing_selected (cfg : config) (env : cycle_env) (b : best)
    (s : agent_state) :
  best_profitable b = false ->
  after_scan cfg env b s = idle_outcome NoProfitableOpportunity s.
Proof. unfold after_scan. intros ->. reflexivity. Qed.

(** [w3.from_wei(number, 'gwei')] answers on [0 .. 2**256 - 1] and raises
    [ValueError] everywhere else. *)
Lemma from_wei_gwei_convertible (number : Z) :
  convertible number -> exists v, from_wei_gwei number = Ok v.
Proof.
  unfold convertible, from_wei_gwei. intro H.
  destruct (number =? 0); [eexists; reflexivity |].
  destruct (Z.ltb_spec number 0); [lia |].
  destruct (Z.ltb_spec (Z.of_N MAX_WEI) number); [lia |].
  eexists. reflexivity.
Qed.

Lemma from_wei_gwei_out_of_range (number : Z) :
  ~ convertible number -> from_wei_gwei number = Raise ValueError.
Proof.
  unfold convertible, from_wei_gwei. intro H.
  destruct (Z.eqb_spec number 0) as [-> | _];
    [exfalso; apply H; split; [lia | vm_compute; discriminate] |].
  destruct (Z.ltb_spec number 0); [reflexivity |].
  destruct (Z.ltb_spec (Z.of_N MAX_WEI) number); [reflexivity | lia].
Qed.

Lemma convertible_dec (number : Z) : {convertible number} + {~ convertible number}.
Proof.
  unfold convertible.
  destruct (Z_le_dec 0 number); [| right; lia].
  destruct (Z_le_dec number (Z.of_N MAX_WEI)); [left; lia | right; lia].
Qed.

Lemma after_scan_rejected (cfg : config) (env : cycle_env) (b : best) (s : agent_state)
    (base_fee suggested cap max_cap : Z) :
  best_profitable b = true ->
  latest_baseFeePerGas env = Ok base_fee ->
  max_priority_fee env = Ok suggested ->
  BASE_PRIORITY_FEE cfg = Some cap ->
  MAX_GAS_PRICE cfg = Some max_cap ->
  max_cap < base_fee + Z.min cap suggested ->
  convertible (base_fee + Z.min cap suggested) ->
  after_scan cfg env b s = idle_outcome (MaxFeeTooHigh (base_fee + Z.min cap suggested)) s.
Proof.
  unfold after_scan. intros -> Hbase Hsuggested -> -> Hgt Hwei.
  cbn [negb]. unfold bind, call. rewrite Hbase, Hsuggested, py_min_is_min.
  unfold exceeds. destruct (Z.ltb_spec max_cap (base_fee + Z.min cap suggested)); [| lia].
  destruct (from_wei_gwei_convertible _ Hwei) as [v ->]. reflexivity.
Qed.

(** A fee the warning cannot format: line 265 raises out of the cycle. *)
Lemma after_scan_unformatted (cfg : config) (env : cycle_env) (b : best) (s : agent_state)
    (base_fee suggested cap max_cap : Z) :
  best_profitable b = true ->
  latest_baseFeePerGas env = Ok base_fee ->
  max_priority_fee env = Ok suggested ->
  BASE_PRIORITY_FEE cfg = Some cap ->
  MAX_GAS_PRICE cfg = Some max_cap ->
  max_cap < base_fee + Z.min cap suggested ->
  ~ convertible (base_fee + Z.min cap suggested) ->
  after_scan cfg env b s = (Raise ValueError, s).
Proof.
  unfold after_scan. intros -> Hbase Hsuggested -> -> Hgt Hwei.
  cbn [negb]. unfold bind, call. rewrite Hbase, Hsuggested, py_min_is_min.
  unfold exceeds. destruct (Z.ltb_spec max_cap (base_fee + Z.min cap suggested)); [| lia].
  rewrite (from_wei_gwei_out_of_range _ Hwei). reflexivity.
Qed.

(** With a selected pair, an attempt builds its transaction as soon as the
    calls before [build_transaction] and that call answer, and broadcasts it
    as soon as the gas estimation, the signature and the broadcast do. *)
Lemma attempt_builds (env : cycle_env) (b : best) (max_fee priority_fee : Z)
    (s : agent_state) (p : Pair) (count chain filled : Z) :
  best_pair b = Some p ->
  fst (acquire_nonce env s) = Ok count ->
  chain_id env = Ok chain ->
  build_transaction env = Ok filled ->
  In (Built {| tx_pair := p; tx_amount := best_amount b;
               tx_deadline := build_deadline env;
               maxFeePerGas := max_fee; maxPriorityFeePerGas := priority_fee;
               nonce := count; chainId := chain; gas := filled |})
     (new_events s (snd (attempt env b max_fee priority_fee s)))
  /\ forall estimate buffered limit signed hash,
      estimate_gas env = Ok estimate ->
      int_mul_float estimate GAS_BUFFER = Ok buffered ->
      int_of_float buffered = Ok limit ->
      sign_transaction env = Ok signed ->
      send_raw_transaction env = Ok hash ->
      In (Broadcast {| tx_pair := p; tx_amount := best_amount b;
                       tx_deadline := build_deadline env;
                       maxFeePerGas := max_fee; maxPriorityFeePerGas := priority_fee;
                       nonce := count; chainId := chain; gas := limit |})
         (new_events s (snd (attempt env b max_fee priority_fee s))).
Proof.
  destruct s as [held tr]. intros Hp Hcount Hchain Hfilled.
  split.
  - revert Hcount. unfold attempt, catch, submit. rewrite Hp, Hchain, Hfilled.
    walk; intro Hcount; try discriminate Hcount; injection Hcount as <-;
      settle_events; cbn [In]; auto.
  - intros estimate buffered limit signed hash Hest Hbuf Hlimit Hsign Hsend.
    revert Hcount. unfold attempt, catch, submit.
    rewrite Hp, Hchain, Hfilled, Hest, Hsign, Hsend.
    cbv beta iota zeta delta [bind call rbind]. rewrite Hbuf, Hlimit.
    walk; intro Hcount; try discriminate Hcount; injection Hcount as <-;
      settle_events; cbn [In]; auto.
Qed.

Lemma after_scan_admitted (cfg : config) (env : cycle_env) (b : best) (s : agent_state)
    (base_fee suggested cap max_cap : Z) :
  best_profitable b = true ->
  latest_baseFeePerGas env = Ok base_fee ->
  max_priority_fee env = Ok suggested ->
  BASE_PRIORITY_FEE cfg = Some cap ->
  MAX_GAS_PRICE cfg = Some max_cap ->
  base_fee + Z.min cap suggested <= max_cap ->
  after_scan cfg env b s
  = attempt env b (base_fee + Z.min cap suggested) (Z.min cap suggested) s.
Proof.
  unfold after_scan. intros -> Hbase Hsuggested -> -> Hle.
  cbn [negb]. unfold bind, call. rewrite Hbase, Hsuggested, py_min_is_min.
  unfold exceeds. destruct (Z.ltb_spec max_cap (base_fee + Z.min cap suggested)); [lia |].
  reflexivity.
Qed.

(** With a cap left at [None] the guard raises instead of deciding. *)
Lemma after_scan_unset_caps (env : cycle_env) (b : best) (s : agent_state)
    (base_fee suggested : Z) :
  best_profitable b = true ->
  latest_baseFeePerGas env = Ok base_fee ->
  max_priority_fee env = Ok suggested ->
  after_scan deployed_config env b s = (Raise TypeError, s).
Proof.
  unfold after_scan. intros -> Hbase Hsuggested.
  cbn [negb]. unfold bind, call. rewrite Hbase, Hsuggested. reflexivity.
Qed.

End Submission.

(** C4. With a selected opportunity, an observed base fee, a suggested
    priority fee and the two caps, the guard takes
    [priority_fee = min(cap, suggested)] and [max_fee = base_fee + priority_fee].

    When [max_fee] exceeds the cap on the max fee, nothing is submitted: no
    transaction is built, signed or broadcast and the nonce is not touched.
    The cycle returns [False] having only logged the fee; when the fee is
    not one [w3.from_wei] converts, the warning itself raises [ValueError]
    out of the cycle.

    Otherwise the cycle goes on with the submission attempt for exactly
    these two fees: no refusal is logged, every transaction it builds, signs
    or broadcasts carries [max_fee] and [priority_fee], the transaction of
    the selected pair and amount is built with them as soon as the nonce,
    the chain id and [build_transaction] answer, and it is broadcast with
    them as soon as the gas estimation, the signature and the broadcast
    answer too. *)
Theorem gas_guard_rejects_exactly_above_the_cap :
  forall (cfg : config) (env : cycle_env) (b : best) (s : agent_state)
         (base_fee suggested cap max_cap : Z),
    best_profitable b = true ->
    latest_baseFeePerGas env = Ok base_fee ->
    max_priority_fee env = Ok suggested ->
    BASE_PRIORITY_FEE cfg = Some cap ->
    MAX_GAS_PRICE cfg = Some max_cap ->
    let priority_fee := Z.min cap suggested in
    let max_fee := base_fee + priority_fee in
    (max_cap < max_fee ->
       transactions_in (new_events s (snd (after_scan cfg env b s))) = []
       /\ last_nonce (snd (after_scan cfg env b s)) = last_nonce s
       /\ (convertible max_fee ->
           after_scan cfg env b s = idle_outcome (MaxFeeTooHigh max_fee) s)
       /\ (~ convertible max_fee ->
           after_scan cfg env b s = (Raise ValueError, s)))
    /\ (max_fee <= max_cap ->
          after_scan cfg env b s = attempt env b max_fee priority_fee s
          /\ (forall fee, ~ In (Logged (MaxFeeTooHigh fee))
                               (new_events s (snd (after_scan cfg env b s))))
          /\ (forall tx,
                 In tx (transactions_in (new_events s (snd (after_scan cfg env b s)))) ->
                 maxFeePerGas tx = max_fee /\ maxPriorityFeePerGas tx = priority_fee)
          /\ (forall (p : Pair) (count chain filled : Z),
                 best_pair b = Some p ->
                 fst (acquire_nonce env s) = Ok count ->
                 chain_id env = Ok chain ->
                 build_transaction env = Ok filled ->
                 let built := {| tx_pair := p; tx_amount := best_amount b;
                                 tx_deadline := build_deadline env;
                                 maxFeePerGas := max_fee;
                                 maxPriorityFeePerGas := priority_fee;
                                 nonce := count; chainId := chain; gas := filled |} in
                 In (Built built) (new_events s (snd (after_scan cfg env b s)))
                 /\ forall estimate buffered limit signed hash,
                     estimate_gas env = Ok estimate ->
                     int_mul_float estimate GAS_BUFFER = Ok buffered ->
                     int_of_float buffered = Ok limit ->
                     sign_transaction env = Ok signed ->
                     send_raw_transaction env = Ok hash ->
                     In (Broadcast (with_gas limit built))
                        (new_events s (snd (after_scan cfg env b s))))).
Proof.
  intros cfg env b s base_fee suggested cap max_cap Hsel Hbase Hsug Hcap Hmax
         priority_fee max_fee.
  split; intro Hcmp.
  - destruct (convertible_dec max_fee) as [Hwei | Hwei].
    + pose proof (after_scan_rejected cfg env b s _ _ _ _ Hsel Hbase Hsug Hcap Hmax
                    Hcmp Hwei) as Hrun.
      fold priority_fee in Hrun. fold max_fee in Hrun. rewrite Hrun.
      destruct s as [held tr]. unfold idle_outcome. cbn [snd last_nonce trace].
      rewrite new_events_app. repeat split. intro Hno. contradiction.
    + pose proof (after_scan_unformatted cfg env b s _ _ _ _ Hsel Hbase Hsug Hcap Hmax
                    Hcmp Hwei) as Hrun.
      rewrite Hrun. destruct s as [held tr]. cbn [snd last_nonce].
      rewrite new_events_same. repeat split. intro Hyes. contradiction.
  - rewrite (after_scan_admitted cfg env b s _ _ _ _ Hsel Hbase Hsug Hcap Hmax Hcmp).
    fold priority_fee. fold max_fee. split; [reflexivity | split; [| split]].
    + intro fee. apply attempt_logs_no_refusal.
    + intro tx. apply attempt_fees.
    + intros p count chain filled Hp Hcount Hchain Hfilled built.
      exact (attempt_builds env b max_fee priority_fee s p count chain filled
               Hp Hcount Hchain Hfilled).
Qed.

(** The spec's example: base fee 80 gwei, cap 2 gwei on the priority fee,
    5 gwei suggested, cap 100 gwei on the max fee.  The cycle is accepted
    with a max fee of 82 gwei: the transaction is built with the gas the
    library filled in and broadcast with its own gas limit, both with a max
    fee of 82 gwei and a priority fee of 2 gwei. *)
Lemma gas_guard_rejects_exactly_above_the_cap_witness :
  let b := select_best reference_config two_candidates in
  let s := initial_state in
  80 * gwei + Z.min (2 * gwei) (5 * gwei) <= 100 * gwei
  /\ after_scan reference_config confirmed_cycle b s
     = attempt confirmed_cycle b (82 * gwei) (2 * gwei) s
  /\ In (Built (with_gas 250000 sent_transaction))
        (new_events s (snd (after_scan reference_config confirmed_cycle b s)))
  /\ In (Broadcast sent_transaction)
        (new_events s (snd (after_scan reference_config confirmed_cycle b s)))
  /\ maxFeePerGas sent_transaction = 82 * gwei
  /\ maxPriorityFeePerGas sent_transaction = 2 * gwei.
Proof.
  intros b s.
  assert (Hcmp : 80 * gwei + Z.min (2 * gwei) (5 * gwei) <= 100 * gwei)
    by (vm_compute; discriminate).
  destruct (gas_guard_rejects_exactly_above_the_cap
              reference_config confirmed_cycle b s (80 * gwei) (5 * gwei) (2 * gwei)
              (100 * gwei) eq_refl eq_refl eq_refl eq_refl eq_refl)
    as [_ Haccept].
  destruct (Haccept Hcmp) as (Hrun & _ & _ & Hsent).
  assert (Hpair : best_pair b = Some USDC_WETH) by (vm_compute; reflexivity).
  destruct (Hsent USDC_WETH 5 1 250000 Hpair eq_refl eq_refl eq_refl)
    as [Hbuilt Hbroadcast].
  assert (Hlimit : exists buffered,
             int_mul_float 250000 GAS_BUFFER = Ok buffered
             /\ int_of_float buffered = Ok 300000)
    by (eexists; split; vm_compute; reflexivity).
  destruct Hlimit as (buffered & Hbuffered & Hlimit).
  split; [exact Hcmp | split; [exact Hrun | split; [exact Hbuilt | split]]].
  - exact (Hbroadcast 250000 buffered 300000 tt "0x5e1f"%string
             eq_refl Hbuffered Hlimit eq_refl eq_refl).
  - split; reflexivity.
Defined.

(** The same example, run: accepted with a max fee of 82 gwei, sent with the
    nonce the network counted, confirmed. *)
Lemma gas_guard_example_82_gwei :
  fst (execute_selected reference_config confirmed_cycle two_candidates initial_state)
  = Ok true
  /\ map maxFeePerGas
       (transactions_in
          (trace (snd (execute_selected reference_config confirmed_cycle
                                        two_candidates initial_state))))
     = [82 * gwei; 82 * gwei; 82 * gwei]
  /\ execute_selected reference_config expensive_cycle two_candidates initial_state
     = idle_outcome (MaxFeeTooHigh (101 * gwei)) initial_state.
Proof. vm_compute. repeat split; reflexivity. Qed.

(** C5. An attempt that starts with the held nonce [preAttempt] and ends on
    a receipt with a failure status returns [False] and holds [preAttempt]
    again: the increment of the acquisition is undone by the decrement of
    the failure branch. *)
Theorem reverted_attempt_holds_the_nonce_it_started_with :
  forall (env : cycle_env) (b : best) (max_fee priority_fee : Z)
         (s : agent_state) (preAttempt : Z),
    last_nonce s = Some preAttempt ->
    In (Logged TransactionFailed)
       (new_events s (snd (attempt env b max_fee priority_fee s))) ->
    fst (attempt env b max_fee priority_fee s) = Ok false
    /\ last_nonce (snd (attempt env b max_fee priority_fee s)) = Some preAttempt.
Proof.
  intros env b max_fee priority_fee s preAttempt Hheld Hreverted.
  destruct (attempt_reverted env b max_fee priority_fee s Hreverted) as [Hret Hnonce].
  rewrite Hheld in Hnonce. split; assumption.
Qed.

Lemma reverted_attempt_holds_the_nonce_it_started_with_witness :
  let b := select_best reference_config two_candidates in
  last_nonce holding_7 = Some 7
  /\ In (Logged TransactionFailed)
        (new_events holding_7 (snd (attempt reverted_cycle b (82 * gwei) (2 * gwei) holding_7)))
  /\ fst (attempt reverted_cycle b (82 * gwei) (2 * gwei) holding_7) = Ok false
  /\ last_nonce (snd (attempt reverted_cycle b (82 * gwei) (2 * gwei) holding_7)) = Some 7.
Proof.
  intro b.
  assert (H1 : last_nonce holding_7 = Some 7) by reflexivity.
  assert (H2 : In (Logged TransactionFailed)
                  (new_events holding_7
                     (snd (attempt reverted_cycle b (82 * gwei) (2 * gwei) holding_7))))
    by (vm_compute; tauto).
  split; [exact H1 | split; [exact H2 |]].
  exact (reverted_attempt_holds_the_nonce_it_started_with
           reverted_cycle b (82 * gwei) (2 * gwei) holding_7 7 H1 H2).
Defined.

(** ** Consecutive submissions *)

Section Consecutive.

Lemma submissions_cons (a : submission) (rest : list submission) (s : agent_state) :
  submissions (a :: rest) s
  = (fst (attempt (sub_env a) (sub_best a) (sub_max_fee a) (sub_priority_fee a) s)
       :: fst (submissions rest
                 (snd (attempt (sub_env a) (sub_best a) (sub_max_fee a)
                               (sub_priority_fee a) s))),
     snd (submissions rest
            (snd (attempt (sub_env a) (sub_best a) (sub_max_fee a)
                          (sub_priority_fee a) s)))).
Proof.
  cbn [submissions].
  destruct (attempt _ _ _ _ s) as [r s1]. cbn [fst snd].
  destruct (submissions rest s1) as [rs s2]. reflexivity.
Qed.

(** From a held nonce, every confirmed submission adds one. *)
Lemma confirmed_submissions_count (attempts : list submission) (s : agent_state) (held : Z) :
  last_nonce s = Some held ->
  Forall (fun r => r = Ok true) (fst (submissions attempts s)) ->
  last_nonce (snd (submissions attempts s)) = Some (held + Z.of_nat (List.length attempts)).
Proof.
  revert s held. induction attempts as [|a rest IH]; intros s held Hheld Hall.
  - cbn. rewrite Hheld. f_equal. lia.
  - rewrite submissions_cons in *. cbn [fst snd] in *.
    inversion Hall as [| r rs Hfirst Hrest]; subst.
    pose proof (attempt_confirmed _ _ _ _ s Hfirst) as Hnext. rewrite Hheld in Hnext.
    rewrite (IH _ (held + 1) Hnext Hrest). f_equal. cbn [List.length]. lia.
Qed.

End Consecutive.

(** C6 as stated fails: after one confirmed submission from a process with
    no held nonce, where the network counted 5 pending transactions, the
    held nonce is 5, the nonce of the transaction just sent, not 5 + 1. *)
Lemma one_confirmed_submission_holds_initial :
  let first := {| sub_env := confirmed_cycle;
                  sub_best := select_best reference_config two_candidates;
                  sub_max_fee := 82 * gwei;
                  sub_priority_fee := 2 * gwei |} in
  last_nonce initial_state = None
  /\ get_transaction_count confirmed_cycle = Ok 5
  /\ fst (submissions [first] initial_state) = [Ok true]
  /\ last_nonce (snd (submissions [first] initial_state)) = Some 5
  /\ last_nonce (snd (submissions [first] initial_state)) <> Some (5 + 1).
Proof. vm_compute. repeat split; try reflexivity. discriminate. Qed.

(** C6, amended. Starting with no held nonce, after [N >= 1] consecutive
    submissions that all confirm, the held nonce is [initial + N - 1], the
    nonce of the last transaction sent, where [initial] is the pending
    count fetched at the first acquisition. *)
Theorem confirmed_submissions_hold_the_last_nonce_sent :
  forall (first : submission) (rest : list submission) (s : agent_state) (initial : Z),
    last_nonce s = None ->
    get_transaction_count (sub_env first) = Ok initial ->
    Forall (fun r => r = Ok true) (fst (submissions (first :: rest) s)) ->
    last_nonce (snd (submissions (first :: rest) s))
    = Some (initial + Z.of_nat (List.length (first :: rest)) - 1).
Proof.
  intros first rest s initial Hnone Hcount Hall.
  rewrite submissions_cons in *. cbn [fst snd] in *.
  inversion Hall as [| r rs Hfirst Hrest]; subst.
  pose proof (attempt_confirmed _ _ _ _ s Hfirst) as Hnext. rewrite Hnone in Hnext.
  destruct Hnext as (count & Hcount' & Hnext).
  rewrite Hcount in Hcount'. injection Hcount' as <-.
  rewrite (confirmed_submissions_count _ _ initial Hnext Hrest).
  f_equal. cbn [List.length]. lia.
Qed.

Lemma confirmed_submissions_hold_the_last_nonce_sent_witness :
  let a := {| sub_env := confirmed_cycle;
              sub_best := select_best reference_config two_candidates;
              sub_max_fee := 82 * gwei;
              sub_priority_fee := 2 * gwei |} in
  last_nonce initial_state = None
  /\ get_transaction_count (sub_env a) = Ok 5
  /\ Forall (fun r => r = Ok true) (fst (submissions [a; a; a] initial_state))
  /\ last_nonce (snd (submissions [a; a; a] initial_state)) = Some (5 + 3 - 1).
Proof.
  intro a.
  assert (H1 : last_nonce initial_state = None) by reflexivity.
  assert (H2 : get_transaction_count (sub_env a) = Ok 5) by reflexivity.
  assert (H3 : Forall (fun r => r = Ok true) (fst (submissions [a; a; a] initial_state)))
    by (vm_compute; repeat constructor).
  split; [exact H1 | split; [exact H2 | split; [exact H3 |]]].
  exact (confirmed_submissions_hold_the_last_nonce_sent a [a; a] initial_state 5 H1 H2 H3).
Defined.

(** After a failed attempt whose handler fetched [count], the next
    acquisition hands out [count + 1]: the handler stores the pending count
    where the acquisition expects the last nonce used. *)
Lemma acquisition_after_resynchronization (env next : cycle_env) (b : best)
    (max_fee priority_fee : Z) (s : agent_state) (e : exn) (count : Z) :
  fst (submit env b max_fee priority_fee s) = Raise e ->
  resync_transaction_count env = Ok count ->
  fst (acquire_nonce next (snd (attempt env b max_fee priority_fee s))) = Ok (count + 1).
Proof.
  intros Hraise Hcount.
  destruct (attempt_resynchronized env b max_fee priority_fee s e count Hraise Hcount)
    as [_ Hheld].
  unfold acquire_nonce, bind, get_last_nonce. rewrite Hheld. reflexivity.
Qed.

(** C7, the code at the failing input. The process holds no nonce; the
    network counts 5 pending transactions; the broadcast raises, so nothing
    reaches the network, and the handler fetches 5 again.  The agent then
    holds 5, and the next acquisition hands out 6, not the fetched 5. *)
Theorem resynchronized_nonce_is_skipped :
  let b := select_best reference_config two_candidates in
  let failed := attempt unsent_cycle b (82 * gwei) (2 * gwei) initial_state in
  fst (submit unsent_cycle b (82 * gwei) (2 * gwei) initial_state)
  = Raise (Web3Error "connection closed")
  /\ resync_transaction_count unsent_cycle = Ok 5
  /\ fst failed = Ok false
  /\ last_nonce (snd failed) = Some 5
  /\ fst (acquire_nonce confirmed_cycle (snd failed)) = Ok 6
  /\ map nonce (transactions_in
                  (new_events (snd failed)
                     (snd (attempt confirmed_cycle b (82 * gwei) (2 * gwei) (snd failed)))))
     = [6; 6; 6].
Proof. vm_compute. repeat split; reflexivity. Qed.

(** ** Abandoned cycles *)

Section Abandoned.

Lemma no_candidate_nothing_selected (cfg : config) (results : list (Pair * N * probe_result)) :
  (forall x, In x results -> qualifies cfg (result_of x) = false) ->
  best_profitable (select_best cfg results) = false.
Proof.
  intro Hnone. pose proof (select_best_selection cfg results) as H.
  remember (select_best cfg results) as b eqn:Hb.
  destruct H as [_ | before after p amount_in r Hres Hq _ _]; [reflexivity|].
  assert (Hin : In (p, amount_in, r) results)
    by (rewrite Hres; apply in_or_app; right; left; reflexivity).
  specialize (Hnone _ Hin). unfold result_of in Hnone. cbn [snd] in Hnone. congruence.
Qed.

Lemma idle_outcome_is_quiet (what : report) (s : agent_state) :
  fst (idle_outcome what s) = Ok false
  /\ last_nonce (snd (idle_outcome what s)) = last_nonce s
  /\ transactions_in (new_events s (snd (idle_outcome what s))) = [].
Proof.
  destruct s as [held tr]. unfold idle_outcome. cbn [fst snd last_nonce trace].
  rewrite new_events_app. repeat split.
Qed.

Lemma after_scan_abandoned (cfg : config) (env : cycle_env) (b : best) (s : agent_state) :
  best_profitable b = false \/ guard_rejects cfg env ->
  last_nonce (snd (after_scan cfg env b s)) = last_nonce s
  /\ transactions_in (new_events s (snd (after_scan cfg env b s))) = []
  /\ (fst (after_scan cfg env b s) = Ok false
      \/ fst (after_scan cfg env b s) = Raise ValueError)
  /\ (guard_fee_convertible cfg env -> fst (after_scan cfg env b s) = Ok false).
Proof.
  assert (Hidle : forall what,
             after_scan cfg env b s = idle_outcome what s ->
             last_nonce (snd (after_scan cfg env b s)) = last_nonce s
             /\ transactions_in (new_events s (snd (after_scan cfg env b s))) = []
             /\ (fst (after_scan cfg env b s) = Ok false
                 \/ fst (after_scan cfg env b s) = Raise ValueError)
             /\ (guard_fee_convertible cfg env -> fst (after_scan cfg env b s) = Ok false)).
  { intros what ->. destruct (idle_outcome_is_quiet what s) as (H1 & H2 & H3).
    repeat split; auto. }
  destruct (best_profitable b) eqn:Hsel.
  - intros [H | (base_fee & suggested & cap & max_cap & H1 & H2 & H3 & H4 & H5)];
      [discriminate H |].
    destruct (convertible_dec (base_fee + Z.min cap suggested)) as [Hwei | Hwei].
    + exact (Hidle _ (after_scan_rejected cfg env b s _ _ _ _ Hsel H1 H2 H3 H4 H5 Hwei)).
    + rewrite (after_scan_unformatted cfg env b s _ _ _ _ Hsel H1 H2 H3 H4 H5 Hwei).
      destruct s as [held tr]. cbn [fst snd last_nonce]. rewrite new_events_same.
      repeat split; auto.
      intro Hall. destruct (Hwei (Hall _ _ _ H1 H2 H3)).
  - intros _. exact (Hidle _ (after_scan_nothing_selected cfg env b s Hsel)).
Qed.

End Abandoned.

(** C8. In a cycle in which no candidate qualifies, and in a cycle whose
    selected opportunity the gas guard rejects, no transaction is built,
    signed or broadcast, and the held nonce is what it was when the cycle
    started.  The cycle returns [False]; the one other way out is the
    [ValueError] of the guard's warning, for a fee [w3.from_wei] does not
    convert.  This holds of the cycle run on any list of probe results and
    of the whole cycle with its scan. *)
Theorem abandoned_cycle_submits_nothing_and_keeps_the_nonce :
  forall (cfg : config) (env : cycle_env) (results : list (Pair * N * probe_result))
         (s : agent_state),
    (forall x, In x results -> qualifies cfg (result_of x) = false)
    \/ guard_rejects cfg env ->
    (last_nonce (snd (execute_selected cfg env results s)) = last_nonce s
     /\ transactions_in (new_events s (snd (execute_selected cfg env results s))) = []
     /\ (fst (execute_selected cfg env results s) = Ok false
         \/ fst (execute_selected cfg env results s) = Raise ValueError)
     /\ (guard_fee_convertible cfg env ->
         fst (execute_selected cfg env results s) = Ok false))
    /\ (forall b,
          scan_loop cfg (probe_sequence cfg (world env)) initial_best = Ok b ->
          best_profitable b = false \/ guard_rejects cfg env ->
          last_nonce (snd (execute_arbitrage cfg env s)) = last_nonce s
          /\ transactions_in (new_events s (snd (execute_arbitrage cfg env s))) = []
          /\ (fst (execute_arbitrage cfg env s) = Ok false
              \/ fst (execute_arbitrage cfg env s) = Raise ValueError)
          /\ (guard_fee_convertible cfg env ->
              fst (execute_arbitrage cfg env s) = Ok false)).
Proof.
  intros cfg env results s H. split.
  - unfold execute_selected. apply after_scan_abandoned.
    destruct H as [H | H]; [left; exact (no_candidate_nothing_selected _ _ H) | right; exact H].
  - intros b Hscan Hb. unfold execute_arbitrage, bind, call. rewrite Hscan.
    exact (after_scan_abandoned cfg env b s Hb).
Qed.

(** A qualifying opportunity met by a base fee of 99 gwei: the fee of 101
    gwei is refused, the cycle returns [False]. *)
Lemma abandoned_cycle_submits_nothing_and_keeps_the_nonce_witness :
  guard_rejects reference_config expensive_cycle
  /\ guard_fee_convertible reference_config expensive_cycle
  /\ qualifies reference_config (candidate (float_literal 2 1000)) = true
  /\ last_nonce (snd (execute_selected reference_config expensive_cycle two_candidates holding_7))
     = last_nonce holding_7
  /\ transactions_in
       (new_events holding_7
          (snd (execute_selected reference_config expensive_cycle two_candidates holding_7)))
     = []
  /\ fst (execute_selected reference_config expensive_cycle two_candidates holding_7) = Ok false.
Proof.
  assert (H : guard_rejects reference_config expensive_cycle).
  { exists (99 * gwei), (5 * gwei), (2 * gwei), (100 * gwei).
    repeat split; vm_compute; reflexivity. }
  assert (Hwei : guard_fee_convertible reference_config expensive_cycle).
  { intros base_fee suggested cap H1 H2 H3.
    injection H1 as <-. injection H2 as <-. injection H3 as <-.
    split; vm_compute; discriminate. }
  split; [exact H | split; [exact Hwei | split; [vm_compute; reflexivity |]]].
  destruct (proj1 (abandoned_cycle_submits_nothing_and_keeps_the_nonce
                     reference_config expensive_cycle two_candidates holding_7
                     (or_intror H)))
    as (Hnonce & Hnone & _ & Hreturn).
  split; [exact Hnonce | split; [exact Hnone | exact (Hreturn Hwei)]].
Defined.

(** ** Errors of a probe *)

Section ProbeErrors.

(** A probe in which some call fails, or a quote is empty, ends in the
    handler. *)
Lemma failed_call_gives_failure_tuple (w : probe_env) (amount_in : N) :
  is_uint256 amount_in ->
  answers_all w = false ->
  simulate_arbitrage w amount_in = Ok failure_tuple.
Proof.
  intros Hamount Hfail.
  destruct (simulate_arbitrage_never_improves w amount_in Hamount)
    as (r & Hr & [Hbody | ->] & _); [| exact Hr].
  destruct (simulate_arbitrage_body_returns _ _ _ Hbody) as (_ & _ & Hall & _).
  congruence.
Qed.

Lemma gas_estimation_fails_not_all (w : probe_env) :
  gas_estimation_fails w -> answers_all w = false.
Proof.
  unfold answers_all. intros [[e He] | [e He]]; rewrite He;
    repeat match goal with
           | |- context [match ?x with _ => _ end] => destruct x
           end; reflexivity.
Qed.

(** A probe whose gas estimation fails ends in the handler like any other:
    the fallback cost is assigned and lost. *)
Lemma failed_gas_estimation_gives_failure_tuple (w : probe_env) (amount_in : N) :
  is_uint256 amount_in ->
  gas_estimation_fails w ->
  simulate_arbitrage w amount_in = Ok failure_tuple.
Proof.
  intros Hamount Hfails.
  exact (failed_call_gives_failure_tuple w amount_in Hamount
           (gas_estimation_fails_not_all w Hfails)).
Qed.

End ProbeErrors.

(** C9, the code at the failing input. A probe of 1 WETH through WETH/USDT
    in which the quotes and the simulation answer (no profit) and the gas
    estimation raises.  The inner handler assigns the fallback cost 0.01,
    leaving [gas_estimate], [gas_price] and [gas_cost_wei] unbound, and the
    body continues up to line 213, which prints [gas_estimate]: it raises
    [UnboundLocalError], the outer handler catches it and the probe returns
    [(False, 0, 0, 0)].  The probe is aborted and the fallback is in no
    result: the gas cost reported is 0, not 0.01.  The same holds of every
    probe on a [uint256] amount whose gas estimation or gas price fails. *)
Theorem failed_gas_estimation_aborts_the_probe :
  gas_estimation_fails unestimated_probe
  /\ estimate_gas_cost unestimated_probe (Z.to_N ether)
     = Ok {| gas_estimate := None; gas_price := None; gas_cost_wei := None;
             gas_cost_weth := float_literal 1 100 |}
  /\ simulate_arbitrage_body unestimated_probe (Z.to_N ether) = Raise UnboundLocalError
  /\ simulate_arbitrage unestimated_probe (Z.to_N ether) = Ok failure_tuple
  /\ gas_cost failure_tuple = PInt 0
  /\ py_gt (PFloat (float_literal 1 100)) (gas_cost failure_tuple) = true
  /\ (forall (w : probe_env) (amount_in : N),
        is_uint256 amount_in ->
        gas_estimation_fails w ->
        simulate_arbitrage w amount_in = Ok failure_tuple).
Proof.
  split; [left; eexists; reflexivity |].
  split; [vm_compute; reflexivity |].
  split; [vm_compute; reflexivity |].
  split; [vm_compute; reflexivity |].
  split; [reflexivity |].
  split; [vm_compute; reflexivity |].
  exact failed_gas_estimation_gives_failure_tuple.
Qed.

(** ** The fee *)

(** C2, the code at the failing input. A probe of 1 WETH through WETH/USDT
    quotes 2000 USDT (2000000000 units of 6 decimals) and back 1.02 WETH.
    The code adds 0.3% of the raw token amount, 6000000, to 0.3% of the wei
    amount, as if a unit of USDT were a wei.  In the base asset's unit, at
    the rate of the quote (510000000 wei a unit), the two fees come to
    6120000000000000 wei; the code's figure is the one the spec's words give
    only if a unit of the token is worth exactly one wei.  The net profit
    is not computed either: the subtraction raises [TypeError]. *)
Theorem fee_adds_raw_token_units_to_wei :
  total_fees_wei 2000000000 (Z.to_N (1020 * 10 ^ 15)) = Ok 3060000006000000
  /\ (feeCost_spec (510000000 # 1) 2000000000 (Z.to_N (1020 * 10 ^ 15))
      == 6120000000000000 # 1)%Q
  /\ (forall rate : Q,
        (feeCost_spec rate 2000000000 (Z.to_N (1020 * 10 ^ 15))
         == 3060000006000000 # 1)%Q ->
        (rate == 1)%Q)
  /\ simulate_arbitrage_body profitable_probe (Z.to_N ether) = Raise TypeError
  /\ simulate_arbitrage profitable_probe (Z.to_N ether) = Ok failure_tuple.
Proof.
  split; [vm_compute; reflexivity |].
  split; [vm_compute; reflexivity |].
  split; [| split; vm_compute; reflexivity].
  intros rate H. unfold feeCost_spec in H.
  change (Z.of_N 2000000000) with 2000000000 in H.
  change (Z.of_N (Z.to_N (1020 * 10 ^ 15))) with 1020000000000000000 in H.
  unfold inject_Z in H. lra.
Qed.

(** ** The polling loop *)

Section Polling.

(** The handler always returns: whatever a cycle raises becomes
    [(False, INITIAL_BACKOFF)]. *)
Lemma handle_new_block_catches (cfg : config) (env : cycle_env) (n : Z)
    (s : agent_state) (e : exn) :
  fst (execute_arbitrage cfg env
         {| last_nonce := last_nonce s; trace := trace s ++ [Logged (NewBlock n)] |})
  = Raise e ->
  fst (handle_new_block cfg env n s) = (false, INITIAL_BACKOFF).
Proof.
  unfold handle_new_block, bind, emit. intro H.
  destruct (execute_arbitrage cfg env _) as [[ok | e'] s']; [discriminate H | reflexivity].
Qed.

(** As long as every height read answers, the loop is still running. *)
Lemma poll_keeps_running (cfg : config) (ticks : list tick) (last_block : Z)
    (s : agent_state) :
  Forall (fun t => exists n, block_number t = Ok n) ticks ->
  exists last_block' s', poll cfg ticks last_block s = Polling last_block' s'.
Proof.
  intro H. revert last_block s.
  induction H as [| t ticks [n Hn] _ IH]; intros last_block s; cbn [poll].
  - eexists. eexists. reflexivity.
  - rewrite Hn. destruct (last_block <? n); [| apply IH].
    destruct (handle_new_block cfg (cycle t) n s) as [[success backoff] s'].
    destruct (negb success && negb (backoff =? 0)); apply IH.
Qed.

End Polling.

(** C10, the code at the failing input. The agent has started and read the
    height 100.  The next read gives 101 and a cycle runs; the read after
    that fails.  Line 394 stands outside every [try]: the exception leaves
    [main] and the process ends, with nothing logged about it. *)
Theorem later_height_read_failure_ends_the_process :
  main booted [next_height; failed_read]
  = Crashed (Web3Error "connection closed")
            {| last_nonce := None;
               trace := [Logged (NewBlock 101); Logged NoProfitableOpportunity] |}.
Proof. vm_compute. reflexivity. Qed.

(** * The rest of the module *)

(** ** Telegram text *)

Section Escaping.

Local Open Scope string_scope.

Lemma backslash_not_special : special backslash = false.
Proof. reflexivity. Qed.

Lemma unescape_escape (text : string) : unescape (escape_markdown text) = text.
Proof.
  induction text as [|c rest IH]; [reflexivity|].
  cbn [escape_markdown]. destruct (special c) eqn:Hc.
  - cbn [unescape]. rewrite Ascii.eqb_refl, Hc. cbn [andb]. rewrite IH. reflexivity.
  - destruct rest as [|d rest']; [reflexivity|].
    cbn [escape_markdown] in *. destruct (special d) eqn:Hd.
    + cbn [unescape] in *. rewrite backslash_not_special, andb_false_r.
      rewrite Ascii.eqb_refl, Hd in *. cbn [andb] in *. rewrite IH. reflexivity.
    + remember (String d (escape_markdown rest')) as escaped.
      cbn [unescape]. rewrite Heqescaped at 1. rewrite Hd, andb_false_r.
      rewrite IH. reflexivity.
Qed.

Lemma escape_markdown_length (text : string) :
  String.length (escape_markdown text) = (String.length text + count_special text)%nat.
Proof.
  induction text as [|c rest IH]; [reflexivity|].
  cbn [escape_markdown count_special]. destruct (special c); cbn [String.length]; lia.
Qed.

Lemma escape_markdown_app (a b : string) :
  escape_markdown (a ++ b) = escape_markdown a ++ escape_markdown b.
Proof.
  induction a as [|c a IH]; [reflexivity|].
  cbn [append escape_markdown]. rewrite IH. destruct (special c); reflexivity.
Qed.

Lemma replace_char_app (old : ascii) (new a b : string) :
  replace_char old new (a ++ b) = replace_char old new a ++ replace_char old new b.
Proof.
  induction a as [|c a IH]; [reflexivity|].
  cbn [append replace_char]. rewrite IH. destruct (Ascii.eqb c old); [| reflexivity].
  clear IH. generalize (replace_char old new a) as x, (replace_char old new b) as y.
  intros x y. induction new as [|n new' IHn]; [reflexivity|].
  cbn [append]. rewrite IHn. reflexivity.
Qed.

(** What the two [replace] calls of line 223 do to one character. *)
Lemma escape_parentheses_cons (c : ascii) (rest : string) :
  escape_parentheses (String c rest)
  = if Ascii.eqb c "(" || Ascii.eqb c ")"
    then String backslash (String c (escape_parentheses rest))
    else String c (escape_parentheses rest).
Proof.
  unfold escape_parentheses. cbn [replace_char].
  destruct (Ascii.eqb_spec c "(") as [-> | Hopen]; [reflexivity|].
  cbn [replace_char orb]. destruct (Ascii.eqb_spec c ")") as [-> | Hclose]; reflexivity.
Qed.

Lemma parenthesis_is_special (c : ascii) :
  Ascii.eqb c "(" || Ascii.eqb c ")" = true -> special c = true.
Proof.
  intro H. apply orb_true_iff in H.
  destruct H as [H | H]; apply Ascii.eqb_eq in H; subst; reflexivity.
Qed.

Lemma backslash_is_no_parenthesis :
  Ascii.eqb backslash "(" || Ascii.eqb backslash ")" = false.
Proof. reflexivity. Qed.

End Escaping.

(** X1. [escape_markdown] loses nothing: reading an escaped text back gives
    the text, so two texts with the same escaped form are the same text. *)
Theorem escape_markdown_is_injective :
  forall text1 text2 : string,
    (unescape (escape_markdown text1) = text1)
    /\ (escape_markdown text1 = escape_markdown text2 -> text1 = text2).
Proof.
  intros text1 text2. split; [apply unescape_escape|].
  intro H. rewrite <- (unescape_escape text1), <- (unescape_escape text2), H.
  reflexivity.
Qed.

(** X2. In the text [escape_markdown] returns, every character of
    [escape_chars] stands right after a backslash. *)
Theorem escaped_text_has_a_backslash_before_every_special_character :
  forall (text before after : string) (c : ascii),
    escape_markdown text = (before ++ String c after)%string ->
    special c = true ->
    exists before', before = (before' ++ String backslash EmptyString)%string.
Proof.
  induction text as [|x rest IH]; intros before after c Hsplit Hc.
  - destruct before; discriminate Hsplit.
  - cbn [escape_markdown] in Hsplit. destruct (special x) eqn:Hx.
    + destruct before as [|b before1]; cbn [append] in Hsplit.
      * injection Hsplit as <- _. rewrite backslash_not_special in Hc. discriminate.
      * injection Hsplit as <- Hrest.
        destruct before1 as [|b1 before2]; cbn [append] in Hrest.
        -- exists EmptyString. reflexivity.
        -- injection Hrest as <- Hrest.
           destruct (IH _ _ _ Hrest Hc) as [before' ->].
           exists (String backslash (String x before')). reflexivity.
    + destruct before as [|b before1]; cbn [append] in Hsplit.
      * injection Hsplit as <- _. congruence.
      * injection Hsplit as <- Hrest.
        destruct (IH _ _ _ Hrest Hc) as [before' ->].
        exists (String x before'). reflexivity.
Qed.

Lemma escaped_text_has_a_backslash_before_every_special_character_witness :
  escape_markdown "Profit=0.5" = ("Profit\" ++ String "=" "0\.5")%string
  /\ special "=" = true
  /\ exists before', "Profit\"%string = (before' ++ String backslash EmptyString)%string.
Proof.
  split; [reflexivity | split; [reflexivity |]].
  apply (escaped_text_has_a_backslash_before_every_special_character
           "Profit=0.5" "Profit\" "0\.5" "=");
    reflexivity.
Defined.

(** X3. The alert of line 223 escapes the parentheses of the reason, and
    [send_telegram_alert] escapes the text again: the two commute, every
    parenthesis leaves with two backslashes in front, and the text sent is
    longer than the reason by one for each character of [escape_chars] and
    one more for each parenthesis. *)
Theorem parentheses_of_a_reason_are_escaped_twice :
  forall reason : string,
    escape_markdown (escape_parentheses reason)
    = escape_parentheses (escape_markdown reason)
    /\ String.length (escape_markdown (escape_parentheses reason))
       = (String.length reason + count_special reason + count_parentheses reason)%nat
    /\ unescape (escape_markdown (escape_parentheses reason)) = escape_parentheses reason.
Proof.
  intro reason. split; [| split; [| apply unescape_escape]].
  - induction reason as [|c rest IH]; [reflexivity|].
    rewrite escape_parentheses_cons. cbn [escape_markdown].
    destruct (Ascii.eqb c "(" || Ascii.eqb c ")") eqn:Hp.
    + rewrite (parenthesis_is_special c Hp). cbn [escape_markdown].
      rewrite backslash_not_special, (parenthesis_is_special c Hp), IH.
      rewrite escape_parentheses_cons, backslash_is_no_parenthesis.
      rewrite escape_parentheses_cons, Hp. reflexivity.
    + destruct (special c) eqn:Hc; cbn [escape_markdown]; rewrite ?Hc, IH.
      * rewrite escape_parentheses_cons, backslash_is_no_parenthesis.
        rewrite escape_parentheses_cons, Hp. reflexivity.
      * rewrite escape_parentheses_cons, Hp. reflexivity.
  - induction reason as [|c rest IH]; [reflexivity|].
    rewrite escape_parentheses_cons. cbn [count_special count_parentheses String.length].
    destruct (Ascii.eqb c "(" || Ascii.eqb c ")") eqn:Hp.
    + rewrite (parenthesis_is_special c Hp). cbn [escape_markdown].
      rewrite backslash_not_special, (parenthesis_is_special c Hp).
      cbn [String.length]. rewrite IH. lia.
    + cbn [escape_markdown]. destruct (special c); cbn [String.length]; rewrite IH; lia.
Qed.

(** ** The alert *)

(** X4. [send_telegram_alert] never raises, whatever the post and the read
    of the response body do.  It logs nothing exactly when the post answers
    with status 200, and one error line otherwise. *)
Theorem send_telegram_alert_swallows_every_failure :
  forall (session_post : string -> result telegram_response) (message : string),
    fst (send_telegram_alert session_post message) = Ok tt
    /\ (List.length (snd (send_telegram_alert session_post message)) <= 1)%nat
    /\ (snd (send_telegram_alert session_post message) = []
        <-> exists response,
            session_post (escape_markdown message) = Ok response
            /\ status response = 200).
Proof.
  intros session_post message. unfold send_telegram_alert.
  destruct (session_post (escape_markdown message)) as [response | e].
  - destruct (Z.eqb_spec (status response) 200) as [H200 | H200]; cbn [negb].
    + repeat split; auto. exists response. auto.
    + destruct (response_text response); cbn [fst snd List.length];
        (repeat split; auto; [discriminate | intros (r & Hr & Hs)]);
        injection Hr as <-; contradiction.
  - cbn [fst snd List.length]. repeat split; auto; [discriminate |].
    intros (r & Hr & _). discriminate Hr.
Qed.

(** ** The shape of a submission attempt *)

Section AttemptShape.

Ltac settle :=
  rewrite <- ?app_assoc; cbn [app];
  rewrite ?new_events_app, ?new_events_same;
  cbn [transactions_in broadcasts flat_map app In firstn].

(** X5. Every transaction an attempt builds, signs or broadcasts carries
    the nonce the attempt acquired: one more than the held nonce, or the
    pending count the network answered when none was held. *)
Theorem every_transaction_carries_the_acquired_nonce (env : cycle_env) (b : best) (max_fee priority_fee : Z)
    (s : agent_state) (tx : transaction) :
  In tx (transactions_in (new_events s (snd (attempt env b max_fee priority_fee s)))) ->
  match last_nonce s with
  | Some held => nonce tx = held + 1
  | None => get_transaction_count env = Ok (nonce tx)
  end.
Proof.
  destruct s as [held tr]. unfold attempt, catch, submit. walk; settle;
    intro H; repeat (destruct H as [<- | H]; [reflexivity |]); destruct H.
Qed.

(** X6. An attempt broadcasts at most one transaction, and only as the
    third of its steps: [build_transaction] answered with the gas the
    library filled in, and the transaction that is signed and broadcast is
    the built one with that gas overwritten by [int(estimate * GAS_BUFFER)],
    from a gas estimation that answered. *)
Theorem a_broadcast_follows_the_build_and_the_signature (env : cycle_env) (b : best) (max_fee priority_fee : Z)
    (s : agent_state) (tx : transaction) :
  In (Broadcast tx) (new_events s (snd (attempt env b max_fee priority_fee s))) ->
  broadcasts (new_events s (snd (attempt env b max_fee priority_fee s))) = [tx]
  /\ exists filled estimate buffered,
      build_transaction env = Ok filled
      /\ firstn 4 (new_events s (snd (attempt env b max_fee priority_fee s)))
         = [Built (with_gas filled tx); Signed tx; Broadcast tx; Logged TransactionSent]
      /\ estimate_gas env = Ok estimate
      /\ int_mul_float estimate GAS_BUFFER = Ok buffered
      /\ int_of_float buffered = Ok (gas tx).
Proof.
  destruct s as [held tr]. unfold attempt, catch, submit. walk; settle;
    intro H;
    repeat (destruct H as [H | H]; [try discriminate H |]); try contradiction;
    injection H as <-;
    (split; [reflexivity |]);
    do 3 eexists; repeat split; eassumption.
Qed.

(** X7. When the gas estimation of the submission fails, no fallback is
    taken: the attempt signs nothing and broadcasts nothing, it does not
    return [True], and when the handler's fetch answers it returns [False]
    holding the fetched count. *)
Theorem failed_estimation_aborts_the_submission (env : cycle_env) (b : best) (max_fee priority_fee : Z)
    (s : agent_state) (e : exn) :
  estimate_gas env = Raise e ->
  (forall tx, ~ In (Signed tx) (new_events s (snd (attempt env b max_fee priority_fee s)))
              /\ ~ In (Broadcast tx)
                      (new_events s (snd (attempt env b max_fee priority_fee s))))
  /\ fst (attempt env b max_fee priority_fee s) <> Ok true
  /\ forall count,
      resync_transaction_count env = Ok count ->
      fst (attempt env b max_fee priority_fee s) = Ok false
      /\ last_nonce (snd (attempt env b max_fee priority_fee s)) = Some count.
Proof.
  intro Hfail. destruct s as [held tr]. unfold attempt, catch, submit.
  walk; settle; try congruence;
    (split; [intro tx; split; intro H; cbn [In] in H; clear - H; intuition discriminate |]);
    (split; [discriminate |]); intros count Hcount; try discriminate Hcount;
    injection Hcount as <-; split; reflexivity.
Qed.

(** X8. The one exception that leaves an attempt is the one the handler's
    own fetch raises: the body raised first, and its exception was logged. *)
Theorem only_the_handler_can_make_an_attempt_raise (env : cycle_env) (b : best) (max_fee priority_fee : Z)
    (s : agent_state) (e : exn) :
  fst (attempt env b max_fee priority_fee s) = Raise e ->
  resync_transaction_count env = Raise e
  /\ exists e0,
      fst (submit env b max_fee priority_fee s) = Raise e0
      /\ In (Logged (ExecutionFailed e0))
            (new_events s (snd (attempt env b max_fee priority_fee s))).
Proof.
  unfold attempt, catch.
  destruct (submit env b max_fee priority_fee s) as [[ok | e0] s1] eqn:Hbody;
    [discriminate |].
  destruct s as [held tr].
  assert (Hext : exists evs, trace s1 = tr ++ evs).
  { revert Hbody. unfold submit. walk; intro H; injection H as _ <-;
      cbn [trace]; rewrite <- ?app_assoc; eexists; try reflexivity.
    all: symmetry; apply app_nil_r. }
  destruct Hext as [evs Hevs]. destruct s1 as [held1 tr1]. cbn [trace] in Hevs. subst tr1.
  unfold resynchronize. run_agent_step.
  destruct (resync_transaction_count env) as [count | e'] eqn:Hresync;
    run_agent_step; intro H; [discriminate H | injection H as ->].
  split; [reflexivity |]. exists e0. split; [reflexivity |].
  rewrite <- app_assoc, new_events_app. apply in_or_app. right. left. reflexivity.
Qed.

(** X9. After an attempt that ends on a receipt with a failure status, the
    next acquisition hands out the nonce of the transaction that was
    broadcast and mined. *)
Theorem reverted_nonce_is_handed_out_again (env : cycle_env) (b : best) (max_fee priority_fee : Z)
    (s : agent_state) :
  In (Logged TransactionFailed)
     (new_events s (snd (attempt env b max_fee priority_fee s))) ->
  exists tx,
    broadcasts (new_events s (snd (attempt env b max_fee priority_fee s))) = [tx]
    /\ forall next,
        fst (acquire_nonce next (snd (attempt env b max_fee priority_fee s)))
        = Ok (nonce tx).
Proof.
  destruct s as [held tr]. unfold attempt, catch, submit. walk; settle; cbn [In];
    intro H; try (exfalso; clear - H; intuition discriminate); clear H;
    eexists; (split; [reflexivity |]); intro next; run_agent_step;
    cbn [nonce]; f_equal; lia.
Qed.

(** X10. Every transaction an attempt builds, signs or broadcasts is the
    selected trade: the selected pair and amount, the chain id the network
    answered, and the deadline of [build_deadline]: the POSIX time of the
    local reading [DEADLINE_DELTA] seconds ahead of the wall clock.  On a
    host whose zone keeps one offset the deadline is [DEADLINE_DELTA]
    seconds after the POSIX time of the call. *)
Theorem every_transaction_is_the_selected_trade (env : cycle_env) (b : best)
    (max_fee priority_fee : Z) (s : agent_state) (tx : transaction) :
  In tx (transactions_in (new_events s (snd (attempt env b max_fee priority_fee s)))) ->
  best_pair b = Some (tx_pair tx)
  /\ tx_amount tx = best_amount b
  /\ chain_id env = Ok (chainId tx)
  /\ tx_deadline tx = timestamp env (now env + DEADLINE_DELTA)
  /\ forall offset,
      (forall reading, timestamp env reading = reading - offset) ->
      tx_deadline tx = timestamp env (now env) + DEADLINE_DELTA.
Proof.
  assert (Hzone : forall offset,
             (forall reading, timestamp env reading = reading - offset) ->
             timestamp env (now env + DEADLINE_DELTA)
             = timestamp env (now env) + DEADLINE_DELTA)
    by (intros offset H; rewrite !H; lia).
  destruct s as [held tr]. unfold attempt, catch, submit. walk; settle;
    intro H;
    repeat (destruct H as [<- | H];
            [cbn [tx_pair tx_amount tx_deadline chainId];
             repeat split; solve [assumption | exact Hzone] |]);
    destruct H.
Qed.

End AttemptShape.

Lemma every_transaction_is_the_selected_trade_witness :
  let b := select_best reference_config two_candidates in
  In sent_transaction
     (transactions_in
        (new_events initial_state
           (snd (attempt confirmed_cycle b (82 * gwei) (2 * gwei) initial_state))))
  /\ best_pair b = Some USDC_WETH
  /\ tx_deadline sent_transaction
     = timestamp confirmed_cycle (now confirmed_cycle + DEADLINE_DELTA).
Proof.
  intro b.
  assert (H : In sent_transaction
                 (transactions_in
                    (new_events initial_state
                       (snd (attempt confirmed_cycle b (82 * gwei) (2 * gwei) initial_state)))))
    by (vm_compute; tauto).
  split; [exact H |].
  destruct (every_transaction_is_the_selected_trade
              confirmed_cycle b (82 * gwei) (2 * gwei) initial_state sent_transaction H)
    as (H1 & _ & _ & H4 & _).
  split; [exact H1 | exact H4].
Defined.

(** Across a change of the clocks the deadline is not 300 seconds away: the
    clocks go back one hour 100 seconds after the call, and the deadline
    lies 3900 seconds after the call. *)
Lemma deadline_across_a_clock_change :
  build_deadline clock_change_cycle
  = timestamp clock_change_cycle (now clock_change_cycle) + 3900.
Proof. reflexivity. Qed.

Lemma every_transaction_carries_the_acquired_nonce_witness :
  let b := select_best reference_config two_candidates in
  In sent_transaction
     (transactions_in
        (new_events initial_state
           (snd (attempt confirmed_cycle b (82 * gwei) (2 * gwei) initial_state))))
  /\ get_transaction_count confirmed_cycle = Ok 5.
Proof.
  intro b.
  assert (H : In sent_transaction
                 (transactions_in
                    (new_events initial_state
                       (snd (attempt confirmed_cycle b (82 * gwei) (2 * gwei) initial_state)))))
    by (vm_compute; tauto).
  split; [exact H |].
  exact (every_transaction_carries_the_acquired_nonce
           confirmed_cycle b (82 * gwei) (2 * gwei) initial_state sent_transaction H).
Defined.

Lemma a_broadcast_follows_the_build_and_the_signature_witness :
  let b := select_best reference_config two_candidates in
  let events := new_events initial_state
                  (snd (attempt confirmed_cycle b (82 * gwei) (2 * gwei) initial_state)) in
  In (Broadcast sent_transaction) events
  /\ broadcasts events = [sent_transaction]
  /\ exists filled,
      build_transaction confirmed_cycle = Ok filled
      /\ firstn 4 events
         = [Built (with_gas filled sent_transaction); Signed sent_transaction;
            Broadcast sent_transaction; Logged TransactionSent].
Proof.
  intros b events.
  assert (H : In (Broadcast sent_transaction) events) by (vm_compute; tauto).
  split; [exact H |].
  destruct (a_broadcast_follows_the_build_and_the_signature
              confirmed_cycle b (82 * gwei) (2 * gwei) initial_state sent_transaction H)
    as (H1 & filled & _ & _ & H2 & H3 & _).
  split; [exact H1 |]. exists filled. split; [exact H2 | exact H3].
Defined.

Lemma failed_estimation_aborts_the_submission_witness :
  let b := select_best reference_config two_candidates in
  estimate_gas unestimated_cycle = Raise (Web3Error "execution reverted")
  /\ fst (attempt unestimated_cycle b (82 * gwei) (2 * gwei) holding_7) = Ok false
  /\ last_nonce (snd (attempt unestimated_cycle b (82 * gwei) (2 * gwei) holding_7)) = Some 5.
Proof.
  intro b.
  assert (H : estimate_gas unestimated_cycle = Raise (Web3Error "execution reverted"))
    by reflexivity.
  split; [exact H |].
  exact (proj2 (proj2 (failed_estimation_aborts_the_submission
                         unestimated_cycle b (82 * gwei) (2 * gwei) holding_7 _ H))
               5 eq_refl).
Defined.

Lemma only_the_handler_can_make_an_attempt_raise_witness :
  let b := select_best reference_config two_candidates in
  fst (attempt disconnected_cycle b (82 * gwei) (2 * gwei) initial_state)
  = Raise (Web3Error "connection closed")
  /\ resync_transaction_count disconnected_cycle = Raise (Web3Error "connection closed").
Proof.
  intro b.
  assert (H : fst (attempt disconnected_cycle b (82 * gwei) (2 * gwei) initial_state)
              = Raise (Web3Error "connection closed"))
    by (vm_compute; reflexivity).
  split; [exact H |].
  exact (proj1 (only_the_handler_can_make_an_attempt_raise
                  disconnected_cycle b (82 * gwei) (2 * gwei) initial_state _ H)).
Defined.

Lemma reverted_nonce_is_handed_out_again_witness :
  let b := select_best reference_config two_candidates in
  let reverted := attempt reverted_cycle b (82 * gwei) (2 * gwei) holding_7 in
  In (Logged TransactionFailed) (new_events holding_7 (snd reverted))
  /\ exists tx,
      broadcasts (new_events holding_7 (snd reverted)) = [tx]
      /\ forall next, fst (acquire_nonce next (snd reverted)) = Ok (nonce tx).
Proof.
  intros b reverted.
  assert (H : In (Logged TransactionFailed) (new_events holding_7 (snd reverted)))
    by (vm_compute; tauto).
  split; [exact H |].
  exact (reverted_nonce_is_handed_out_again
           reverted_cycle b (82 * gwei) (2 * gwei) holding_7 H).
Defined.

(** ** Selection and scan order *)

Section ScanOrder.

Variable cfg : config.

Lemma xgt_asym (a b : xval) : xgt a b = true -> xgt b a = false.
Proof.
  destruct a as [| |p|], b as [| |q|]; try reflexivity; try discriminate.
  rewrite xgt_fin, xgt_fin_false. apply Qlt_le_weak.
Qed.

(** What is selected is a candidate of the scan that no candidate exceeds. *)
Lemma selection_is_greatest (seen : list (Pair * N * probe_result)) (b : best) :
  selection cfg seen b ->
  (b = initial_best /\ forall x, In x seen -> qualifies cfg (result_of x) = false)
  \/ (best_profitable b = true
      /\ (exists x, In x seen /\ qualifies cfg (result_of x) = true
                    /\ net_profit_weth (result_of x) = best_net_profit b)
      /\ forall x, In x seen -> qualifies cfg (result_of x) = true ->
                   py_gt (net_profit_weth (result_of x)) (best_net_profit b) = false).
Proof.
  intros [Hnone | before after p amount_in r Hseen Hq Hbefore Hafter].
  - left. split; [reflexivity | exact Hnone].
  - right. split; [reflexivity |]. split.
    + exists (p, amount_in, r). subst seen. split; [| split; [exact Hq | reflexivity]].
      apply in_or_app. right. left. reflexivity.
    + intros x Hx Hqx. subst seen. cbn [chosen best_net_profit].
      apply in_app_or in Hx. destruct Hx as [Hx | [<- | Hx]].
      * apply xgt_asym. exact (Hbefore x Hx Hqx).
      * apply xgt_irrefl.
      * exact (Hafter x Hx Hqx).
Qed.

End ScanOrder.

(** X11. The order of the scan decides between candidates of equal net
    profit only: over the same probe results in any two orders, the
    selection finds an opportunity in both or in neither, and neither of the
    two selected net profits exceeds the other. *)
Theorem scan_order_changes_no_selected_net_profit :
  forall (cfg : config) (results results' : list (Pair * N * probe_result)),
    Permutation results results' ->
    best_profitable (select_best cfg results) = best_profitable (select_best cfg results')
    /\ py_gt (best_net_profit (select_best cfg results))
             (best_net_profit (select_best cfg results')) = false
    /\ py_gt (best_net_profit (select_best cfg results'))
             (best_net_profit (select_best cfg results)) = false.
Proof.
  intros cfg results results' Hperm.
  destruct (selection_is_greatest cfg _ _ (select_best_selection cfg results))
    as [[-> Hnone] | (Hp & (x & Hx & Hqx & Hnx) & Hmax)];
    destruct (selection_is_greatest cfg _ _ (select_best_selection cfg results'))
      as [[-> Hnone'] | (Hp' & (x' & Hx' & Hqx' & Hnx') & Hmax')].
  - repeat split.
  - rewrite (Hnone x' (Permutation_in _ (Permutation_sym Hperm) Hx')) in Hqx'.
    discriminate Hqx'.
  - rewrite (Hnone' x (Permutation_in _ Hperm Hx)) in Hqx. discriminate Hqx.
  - rewrite Hp, Hp'. split; [reflexivity |]. split.
    + rewrite <- Hnx. exact (Hmax' x (Permutation_in _ Hperm Hx) Hqx).
    + rewrite <- Hnx'.
      exact (Hmax x' (Permutation_in _ (Permutation_sym Hperm) Hx') Hqx').
Qed.

Lemma scan_order_changes_no_selected_net_profit_witness :
  Permutation two_candidates (rev two_candidates)
  /\ best_profitable (select_best reference_config two_candidates)
     = best_profitable (select_best reference_config (rev two_candidates)).
Proof.
  assert (H : Permutation two_candidates (rev two_candidates))
    by (apply perm_swap).
  split; [exact H |].
  exact (proj1 (scan_order_changes_no_selected_net_profit
                  reference_config two_candidates (rev two_candidates) H)).
Defined.

(** ** The loop of [main] *)

Section Loop.

Lemma sleeps_app (a b : list event) : sleeps (a ++ b) = sleeps a ++ sleeps b.
Proof. apply flat_map_app. Qed.

Lemma heights_handled_app (a b : list event) :
  heights_handled (a ++ b) = heights_handled a ++ heights_handled b.
Proof. apply flat_map_app. Qed.

Lemma new_events_from (s s' : agent_state) (evs : list event) :
  trace s' = trace s ++ evs -> new_events s s' = evs.
Proof.
  intro H. unfold new_events. rewrite H, skipn_app, skipn_all, Nat.sub_diag.
  reflexivity.
Qed.

Lemma last_cons (n d : Z) (hs : list Z) : last (n :: hs) d = last hs n.
Proof.
  revert n d. induction hs as [| h hs IH]; intros n d; [reflexivity |].
  change (last (n :: h :: hs) d) with (last (h :: hs) d).
  rewrite (IH h d). symmetry. apply (IH h n).
Qed.

(** A cycle neither sleeps nor announces a block. *)
Lemma after_scan_frame (cfg : config) (env : cycle_env) (b : best) (s : agent_state) :
  exists evs,
    trace (snd (after_scan cfg env b s)) = trace s ++ evs
    /\ sleeps evs = [] /\ heights_handled evs = [].
Proof.
  destruct s as [held tr]. unfold after_scan.
  destruct (negb (best_profitable b)); walk; eexists;
    (split; [rewrite <- ?app_assoc; cbn [app];
             first [reflexivity | symmetry; apply app_nil_r]
            | split; reflexivity]).
Qed.

Lemma execute_arbitrage_frame (cfg : config) (env : cycle_env) (s : agent_state) :
  exists evs,
    trace (snd (execute_arbitrage cfg env s)) = trace s ++ evs
    /\ sleeps evs = [] /\ heights_handled evs = [].
Proof.
  unfold execute_arbitrage, bind, call.
  destruct (scan_loop cfg (probe_sequence cfg (world env)) initial_best) as [b | e].
  - apply after_scan_frame.
  - exists []. cbn [snd]. rewrite app_nil_r. repeat split.
Qed.

(** The handler announces its block once, and asks for a backoff of
    [INITIAL_BACKOFF] or for none. *)
Lemma handle_new_block_frame (cfg : config) (env : cycle_env) (n : Z) (s : agent_state) :
  exists evs,
    trace (snd (handle_new_block cfg env n s)) = trace s ++ Logged (NewBlock n) :: evs
    /\ sleeps evs = [] /\ heights_handled evs = []
    /\ (snd (fst (handle_new_block cfg env n s)) = 0
        \/ fst (handle_new_block cfg env n s) = (false, INITIAL_BACKOFF)).
Proof.
  unfold handle_new_block, bind, emit.
  destruct (execute_arbitrage_frame cfg env
              {| last_nonce := last_nonce s;
                 trace := trace s ++ [Logged (NewBlock n)] |})
    as (evs & Htrace & Hsleeps & Hheights).
  destruct (execute_arbitrage cfg env _) as [[ok | e] s1]; cbn [fst snd trace] in *.
  - exists evs. rewrite Htrace, <- app_assoc. repeat split; auto.
  - exists (evs ++ [Logged (BlockHandlingError e)]).
    rewrite Htrace, <- !app_assoc, sleeps_app, heights_handled_app, Hsleeps, Hheights.
    repeat split; auto.
Qed.

(** The trace of the loop, turn after turn. *)
Lemma poll_trace (cfg : config) (ticks : list tick) :
  forall (last_block : Z) (s : agent_state),
  exists evs,
    trace (run_state (poll cfg ticks last_block s)) = trace s ++ evs
    /\ Forall (fun d => d = POLL_INTERVAL \/ d = INITIAL_BACKOFF) (sleeps evs)
    /\ (List.length (sleeps evs) <= List.length ticks)%nat
    /\ StronglySorted Z.lt (heights_handled evs)
    /\ Forall (fun n => last_block < n) (heights_handled evs)
    /\ forall last_block' s',
        poll cfg ticks last_block s = Polling last_block' s' ->
        last_block' = last (heights_handled evs) last_block.
Proof.
  induction ticks as [| t rest IH]; intros last_block s; cbn [poll].
  - exists []. cbn [run_state]. rewrite app_nil_r.
    repeat split; try constructor. intros l' s' H. injection H as <- _. reflexivity.
  - destruct (block_number t) as [current_block | e].
    2:{ exists []. cbn [run_state]. rewrite app_nil_r.
        repeat split; try constructor; [cbn; lia | intros l' s' H; discriminate H]. }
    destruct (Z.ltb_spec last_block current_block) as [Hnew | Hold].
    + destruct (handle_new_block_frame cfg (cycle t) current_block s)
        as (evs0 & Htrace & Hsleeps & Hheights & Hbackoff).
      destruct (handle_new_block cfg (cycle t) current_block s)
        as [[success backoff] s1]; cbn [fst snd] in *.
      destruct (negb success && negb (backoff =? 0)) eqn:Hsleep.
      * destruct (IH current_block (sleep backoff s1))
          as (evs & Ht & Hs & Hlen & Hsorted & Habove & Hlast).
        exists (Logged (NewBlock current_block) :: evs0 ++ Slept backoff :: evs).
        rewrite Ht. unfold sleep at 1. cbn [trace]. rewrite Htrace.
        split; [rewrite <- !app_assoc; reflexivity |].
        change (Logged (NewBlock current_block) :: evs0 ++ Slept backoff :: evs)
          with ([Logged (NewBlock current_block)] ++ evs0 ++ [Slept backoff] ++ evs).
        rewrite !sleeps_app, !heights_handled_app, Hsleeps, Hheights.
        cbn [sleeps heights_handled flat_map app List.length].
        assert (Hb : backoff = INITIAL_BACKOFF).
        { destruct Hbackoff as [-> | Hb]; [| congruence].
          rewrite andb_false_r in Hsleep. discriminate Hsleep. }
        repeat split.
        -- constructor; [right; exact Hb | exact Hs].
        -- lia.
        -- constructor; assumption.
        -- constructor; [exact Hnew |].
           apply (Forall_impl _ (fun n Hn => Z.lt_trans _ _ _ Hnew Hn) Habove).
        -- intros l' s' H. rewrite last_cons. exact (Hlast l' s' H).
      * destruct (IH current_block s1)
          as (evs & Ht & Hs & Hlen & Hsorted & Habove & Hlast).
        exists (Logged (NewBlock current_block) :: evs0 ++ evs).
        rewrite Ht, Htrace.
        split; [rewrite <- !app_assoc; reflexivity |].
        change (Logged (NewBlock current_block) :: evs0 ++ evs)
          with ([Logged (NewBlock current_block)] ++ evs0 ++ evs).
        rewrite !sleeps_app, !heights_handled_app, Hsleeps, Hheights.
        cbn [sleeps heights_handled flat_map app List.length].
        repeat split.
        -- exact Hs.
        -- lia.
        -- constructor; assumption.
        -- constructor; [exact Hnew |].
           apply (Forall_impl _ (fun n Hn => Z.lt_trans _ _ _ Hnew Hn) Habove).
        -- intros l' s' H. rewrite last_cons. exact (Hlast l' s' H).
    + destruct (IH last_block (sleep POLL_INTERVAL s))
        as (evs & Ht & Hs & Hlen & Hsorted & Habove & Hlast).
      exists (Slept POLL_INTERVAL :: evs).
      rewrite Ht. unfold sleep at 1. cbn [trace].
      split; [rewrite <- !app_assoc; reflexivity |].
      cbn [sleeps heights_handled flat_map app List.length].
      repeat split; auto.
      apply le_n_S. exact Hlen.
Qed.

End Loop.

(** X12. The loop of [main] never escalates its waiting: each of its own
    sleeps (lines 399 and 401; the throttle inside the scan is not one of
    them) lasts [POLL_INTERVAL] or, after a cycle that raised,
    [INITIAL_BACKOFF], and a turn sleeps at most once.  [MAX_BACKOFF] is
    never reached. *)
Theorem loop_sleeps_the_poll_interval_or_the_initial_backoff :
  forall (cfg : config) (ticks : list tick) (last_block : Z) (s : agent_state),
    Forall (fun d => d = POLL_INTERVAL \/ d = INITIAL_BACKOFF)
           (sleeps (new_events s (run_state (poll cfg ticks last_block s))))
    /\ (List.length (sleeps (new_events s (run_state (poll cfg ticks last_block s))))
        <= List.length ticks)%nat.
Proof.
  intros cfg ticks last_block s.
  destruct (poll_trace cfg ticks last_block s) as (evs & Ht & Hs & Hlen & _).
  rewrite (new_events_from _ _ _ Ht). split; assumption.
Qed.

(** X13. The heights the loop hands to [handle_new_block] are strictly
    increasing and all above the height the loop started from: no height is
    handled twice, whatever the reads return, and the height the loop
    remembers is the last one handled. *)
Theorem handled_heights_strictly_increase :
  forall (cfg : config) (ticks : list tick) (last_block : Z) (s : agent_state),
    StronglySorted Z.lt
      (heights_handled (new_events s (run_state (poll cfg ticks last_block s))))
    /\ Forall (fun n => last_block < n)
         (heights_handled (new_events s (run_state (poll cfg ticks last_block s))))
    /\ forall last_block' s',
        poll cfg ticks last_block s = Polling last_block' s' ->
        last_block'
        = last (heights_handled (new_events s s')) last_block.
Proof.
  intros cfg ticks last_block s.
  destruct (poll_trace cfg ticks last_block s) as (evs & Ht & _ & _ & Hs & Ha & Hl).
  rewrite (new_events_from _ _ _ Ht). split; [exact Hs | split; [exact Ha |]].
  intros l' s' H. rewrite H in Ht. cbn [run_state] in Ht.
  rewrite (new_events_from _ _ _ Ht). exact (Hl l' s' H).
Qed.

(** X14. The loop ends on an exception only through a height read: when it
    crashes, the exception is the one a read raised, every earlier read
    answered, and the state left behind is the one the loop had after the
    earlier turns, with nothing logged about the failure. *)
Theorem loop_crashes_only_on_a_failed_height_read :
  forall (cfg : config) (ticks : list tick) (last_block : Z) (s s' : agent_state)
         (e : exn),
    poll cfg ticks last_block s = Crashed e s' ->
    exists before t after,
      ticks = before ++ t :: after
      /\ block_number t = Raise e
      /\ Forall height_read before
      /\ exists last_block', poll cfg before last_block s = Polling last_block' s'.
Proof.
  intros cfg ticks. induction ticks as [| t rest IH]; intros last_block s s' e;
    cbn [poll]; [discriminate |].
  destruct (block_number t) as [current_block | e0] eqn:Hread.
  - assert (Hstep : forall l1 s1,
               poll cfg rest l1 s1 = Crashed e s' ->
               (forall l', poll cfg [t] last_block s = Polling l' s1 -> l' = l1) ->
               (exists l', poll cfg [t] last_block s = Polling l' s1) ->
               exists before t0 after,
                 t :: rest = before ++ t0 :: after
                 /\ block_number t0 = Raise e
                 /\ Forall height_read before
                 /\ exists l', poll cfg before last_block s = Polling l' s').
    { intros l1 s1 Hcrash Hsame [l' Hturn].
      destruct (IH l1 s1 s' e Hcrash) as (before & t0 & after & -> & Hraise & Hreads & l2 & Hl2).
      exists (t :: before), t0, after. split; [reflexivity |]. split; [exact Hraise |].
      split; [constructor; [exists current_block; exact Hread | exact Hreads] |].
      exists l2. rewrite <- Hl2. pose proof (Hsame l' Hturn) as ->.
      revert Hturn. cbn [poll]. rewrite Hread.
      destruct (last_block <? current_block).
      - destruct (handle_new_block cfg (cycle t) current_block s) as [[success backoff] s2].
        destruct (negb success && negb (backoff =? 0)); intro H; injection H as <- <-;
          reflexivity.
      - intro H. injection H as <- <-. reflexivity. }
    destruct (last_block <? current_block) eqn:Hnew.
    + destruct (handle_new_block cfg (cycle t) current_block s) as [[success backoff] s1] eqn:Hh.
      destruct (negb success && negb (backoff =? 0)) eqn:Hsleep; intro Hcrash;
        apply (Hstep _ _ Hcrash); cbn [poll]; rewrite Hread, Hnew, Hh, Hsleep;
        try (intros l' H; injection H as <-; reflexivity);
        eexists; reflexivity.
    + intro Hcrash. apply (Hstep _ _ Hcrash); cbn [poll]; rewrite Hread, Hnew;
        try (intros l' H; injection H as <-; reflexivity);
        eexists; reflexivity.
  - intro H. injection H as <- <-.
    exists [], t, rest. repeat split; [exact Hread | constructor |].
    exists last_block. reflexivity.
Qed.

Lemma loop_crashes_only_on_a_failed_height_read_witness :
  poll deployed_config [next_height; failed_read] 100 initial_state
  = Crashed (Web3Error "connection closed")
            {| last_nonce := None;
               trace := [Logged (NewBlock 101); Logged NoProfitableOpportunity] |}
  /\ exists before t after,
      [next_height; failed_read] = before ++ t :: after
      /\ block_number t = Raise (Web3Error "connection closed")
      /\ Forall height_read before.
Proof.
  assert (H : poll deployed_config [next_height; failed_read] 100 initial_state
              = Crashed (Web3Error "connection closed")
                        {| last_nonce := None;
                           trace := [Logged (NewBlock 101);
                                     Logged NoProfitableOpportunity] |})
    by (vm_compute; reflexivity).
  split; [exact H |].
  destruct (loop_crashes_only_on_a_failed_height_read _ _ _ _ _ _ H)
    as (before & t & after & H1 & H2 & H3 & _).
  exists before, t, after. repeat split; assumption.
Defined.

(** ** A run in which no cycle gets past the scan *)

Section QuietRun.

Variable cfg : config.
Hypothesis amounts : Forall is_uint256 (LOAN_AMOUNTS cfg).

Lemma handle_new_block_idle (env : cycle_env) (n : Z) (s : agent_state) :
  handle_new_block cfg env n s
  = ((false, 0),
     {| last_nonce := last_nonce s;
        trace := trace s ++ [Logged (NewBlock n); Logged NoProfitableOpportunity] |}).
Proof.
  unfold handle_new_block, bind, emit.
  rewrite (execute_arbitrage_idle cfg env _ amounts). unfold idle_outcome.
  cbn [last_nonce trace]. rewrite <- app_assoc. reflexivity.
Qed.

Lemma poll_idle (ticks : list tick) :
  forall (last_block : Z) (s : agent_state),
    last_nonce (run_state (poll cfg ticks last_block s)) = last_nonce s
    /\ exists evs,
        trace (run_state (poll cfg ticks last_block s)) = trace s ++ evs
        /\ forallb idle_event evs = true.
Proof.
  induction ticks as [| t rest IH]; intros last_block s; cbn [poll].
  - split; [reflexivity |]. exists []. rewrite app_nil_r. split; reflexivity.
  - destruct (block_number t) as [current_block | e].
    2:{ split; [reflexivity |]. exists []. cbn [run_state]. rewrite app_nil_r.
        split; reflexivity. }
    destruct (last_block <? current_block).
    + rewrite handle_new_block_idle.
      change (negb false && negb (0 =? 0)) with false. cbv iota.
      destruct (IH current_block
                  {| last_nonce := last_nonce s;
                     trace := trace s ++ [Logged (NewBlock current_block);
                                          Logged NoProfitableOpportunity] |})
        as (Hnonce & evs & Htrace & Hidle).
      split; [exact Hnonce |].
      exists (Logged (NewBlock current_block) :: Logged NoProfitableOpportunity :: evs).
      rewrite Htrace. cbn [trace]. rewrite <- app_assoc. split; [reflexivity |].
      cbn [forallb idle_event andb]. exact Hidle.
    + destruct (IH last_block (sleep POLL_INTERVAL s)) as (Hnonce & evs & Htrace & Hidle).
      split; [exact Hnonce |].
      exists (Slept POLL_INTERVAL :: evs).
      rewrite Htrace. unfold sleep. cbn [trace]. rewrite <- app_assoc.
      split; [reflexivity |]. cbn [forallb idle_event]. rewrite Hidle. reflexivity.
Qed.

End QuietRun.

Lemma idle_events_hold_no_transaction (events : list event) :
  forallb idle_event events = true -> transactions_in events = [].
Proof.
  induction events as [| e events IH]; [reflexivity |].
  cbn [forallb]. intro H. apply andb_true_iff in H. destruct H as [He H].
  destruct e as [tx | tx | tx | r | d]; try discriminate He; exact (IH H).
Qed.

(** X15. With loan amounts in [uint256], as [main] sets them, a whole run
    of the agent builds, signs and broadcasts nothing and never comes to
    hold a nonce, whatever the network answers and however long it runs:
    its trace holds the logs of the new heights, of the missing opportunity
    and of a failed first height read, and the loop's sleeps of
    [POLL_INTERVAL], and nothing else. *)
Theorem agent_never_submits_a_transaction :
  forall (cfg : config) (boot : startup) (ticks : list tick),
    Forall is_uint256 (LOAN_AMOUNTS cfg) ->
    last_nonce (run_state (run_agent cfg boot ticks)) = None
    /\ forallb idle_event (trace (run_state (run_agent cfg boot ticks))) = true
    /\ transactions_in (trace (run_state (run_agent cfg boot ticks))) = [].
Proof.
  intros cfg boot ticks Hamounts.
  assert (H : last_nonce (run_state (run_agent cfg boot ticks)) = None
              /\ forallb idle_event (trace (run_state (run_agent cfg boot ticks))) = true).
  { unfold run_agent.
    destruct (negb (environment_complete boot)); [split; reflexivity |].
    destruct (negb (abi_loaded boot)); [split; reflexivity |].
    destruct (connect boot); [| split; reflexivity].
    destruct (first_block_number boot) as [last_block | e]; [| split; reflexivity].
    destruct (poll_idle cfg Hamounts ticks last_block initial_state)
      as (Hnonce & evs & Htrace & Hidle).
    split; [exact Hnonce |]. rewrite Htrace. exact Hidle. }
  destruct H as [Hnonce Hidle].
  split; [exact Hnonce | split; [exact Hidle |]].
  apply idle_events_hold_no_transaction. exact Hidle.
Qed.

Lemma agent_never_submits_a_transaction_witness :
  Forall is_uint256 (LOAN_AMOUNTS deployed_config)
  /\ transactions_in
       (trace (run_state (main booted [next_height; same_height; failed_read]))) = [].
Proof.
  assert (H : Forall is_uint256 (LOAN_AMOUNTS deployed_config))
    by (repeat constructor; apply N.leb_le; vm_compute; reflexivity).
  split; [exact H |].
  exact (proj2 (proj2 (agent_never_submits_a_transaction
                         deployed_config booted
                         [next_height; same_height; failed_read] H))).
Defined.

(** X16. With a fee cap left at [None], as [main] leaves both, a scan
    that holds a candidate does not reach the submission: once the two fee
    reads have answered, the guard raises [TypeError] out of the cycle, and
    nothing was logged, built or changed. *)
Theorem unset_cap_raises_before_the_submission :
  forall (cfg : config) (env : cycle_env) (results : list (Pair * N * probe_result))
         (s : agent_state) (base_fee suggested : Z),
    BASE_PRIORITY_FEE cfg = None \/ MAX_GAS_PRICE cfg = None ->
    (exists x, In x results /\ qualifies cfg (result_of x) = true) ->
    latest_baseFeePerGas env = Ok base_fee ->
    max_priority_fee env = Ok suggested ->
    execute_selected cfg env results s = (Raise TypeError, s).
Proof.
  intros cfg env results s base_fee suggested Hcap (x & Hx & Hqx) Hbase Hsuggested.
  unfold execute_selected.
  destruct (selection_is_greatest cfg _ _ (select_best_selection cfg results))
    as [[_ Hnone] | (Hp & _)].
  - rewrite (Hnone x Hx) in Hqx. discriminate Hqx.
  - unfold after_scan. rewrite Hp. cbn [negb]. unfold bind, call.
    rewrite Hbase, Hsuggested.
    destruct (BASE_PRIORITY_FEE cfg) as [cap |]; [| reflexivity].
    destruct Hcap as [Hcap | ->]; [discriminate Hcap | reflexivity].
Qed.

Lemma unset_cap_raises_before_the_submission_witness :
  (BASE_PRIORITY_FEE deployed_config = None \/ MAX_GAS_PRICE deployed_config = None)
  /\ (exists x, In x two_candidates /\ qualifies deployed_config (result_of x) = true)
  /\ execute_selected deployed_config confirmed_cycle two_candidates initial_state
     = (Raise TypeError, initial_state).
Proof.
  assert (Hcap : BASE_PRIORITY_FEE deployed_config = None
                 \/ MAX_GAS_PRICE deployed_config = None)
    by (left; reflexivity).
  assert (Hcandidate : exists x, In x two_candidates
                                 /\ qualifies deployed_config (result_of x) = true).
  { exists (WETH_USDT, Z.to_N (1 * ether), candidate (float_literal 5 10000)).
    split; [left; reflexivity | vm_compute; reflexivity]. }
  split; [exact Hcap | split; [exact Hcandidate |]].
  exact (unset_cap_raises_before_the_submission
           deployed_config confirmed_cycle two_candidates initial_state
           (80 * gwei) (5 * gwei) Hcap Hcandidate eq_refl eq_refl).
Defined.

(** ** Loan amounts beyond [uint256] *)

Section Oversized.

Lemma from_wei_oversized (n : N) : ~ is_uint256 n -> from_wei n = Raise ValueError.
Proof.
  unfold is_uint256, from_wei. intro H.
  destruct (N.eqb_spec n 0) as [-> | _]; [exfalso; apply H; vm_compute; discriminate |].
  destruct (N.ltb_spec MAX_WEI n); [reflexivity | contradiction].
Qed.

(** The body of the probe formats the amount before it returns. *)
Lemma body_formats_the_amount (w : probe_env) (amount_in : N) (r : probe_result) :
  simulate_arbitrage_body w amount_in = Ok r -> exists v, from_wei amount_in = Ok v.
Proof.
  unfold simulate_arbitrage_body. intro H.
  step H as out1 Eout1. step H as token_out Etoken. step H as out2 Eout2.
  step H as weth_out Eweth. step H as fee_step1 Efee1. step H as fee_step2 Efee2.
  step H as fees_wei Efees. step H as total_fees_weth Eweth_fees.
  step H as answer Esim. destruct answer as [flag profit].
  step H as g Egas. step H as gross Egross.
  step H as after_fees Eafter. step H as net Enet. step H as logged Elog.
  exists logged. reflexivity.
Qed.

Lemma simulate_arbitrage_oversized (w : probe_env) (amount_in : N) :
  ~ is_uint256 amount_in -> simulate_arbitrage w amount_in = Raise ValueError.
Proof.
  intro H. unfold simulate_arbitrage.
  destruct (simulate_arbitrage_body w amount_in) as [r | e] eqn:Hbody; cbn [rcatch].
  - destruct (body_formats_the_amount _ _ _ Hbody) as [v Hv].
    rewrite (from_wei_oversized _ H) in Hv. discriminate Hv.
  - rewrite (from_wei_oversized _ H). reflexivity.
Qed.

Lemma scan_loop_oversized (cfg : config) (probes : list (Pair * N * probe_env)) :
  Exists (fun probe => ~ is_uint256 (snd (fst probe))) probes ->
  forall b, scan_loop cfg probes b = Raise ValueError.
Proof.
  induction probes as [| [[p amount_in] w] probes IH]; intros H b;
    [inversion H |].
  cbn [scan_loop].
  destruct (N.leb_spec amount_in MAX_WEI) as [Hsmall | Hlarge].
  - destruct (simulate_arbitrage_never_improves w amount_in Hsmall) as (r & -> & _).
    destruct (from_wei_uint256 _ Hsmall) as [v ->]. cbn [rbind].
    apply IH. inversion H as [x l Hhead | x l Htail]; subst; [| exact Htail].
    cbn [fst snd] in Hhead. contradiction.
  - rewrite simulate_arbitrage_oversized; [reflexivity |].
    unfold is_uint256. lia.
Qed.

Lemma probe_sequence_oversized (cfg : config) (world : nat -> nat -> probe_env) :
  PAIRS cfg <> [] ->
  Exists (fun amount_in => ~ is_uint256 amount_in) (LOAN_AMOUNTS cfg) ->
  Exists (fun probe => ~ is_uint256 (snd (fst probe))) (probe_sequence cfg world).
Proof.
  intros Hpairs Hamount. apply Exists_exists in Hamount.
  destruct Hamount as (amount_in & Hin & Hlarge).
  destruct (PAIRS cfg) as [| p pairs] eqn:Hp; [contradiction |].
  assert (Hprod : In (p, amount_in) (map fst (probe_sequence cfg world))).
  { rewrite probe_sequence_order, Hp. apply in_prod; [left; reflexivity | exact Hin]. }
  apply in_map_iff in Hprod. destruct Hprod as (probe & Hfst & Hprobe).
  apply Exists_exists. exists probe. split; [exact Hprobe |].
  rewrite Hfst. exact Hlarge.
Qed.

End Oversized.

(** X17. A probe raises exactly when its amount is beyond [uint256], and
    then it raises [ValueError] whatever the network answers: the body and
    the handler both format the amount with [w3.from_wei]. *)
Theorem probe_raises_exactly_beyond_uint256 :
  forall (w : probe_env) (amount_in : N) (e : exn),
    simulate_arbitrage w amount_in = Raise e
    <-> e = ValueError /\ ~ is_uint256 amount_in.
Proof.
  intros w amount_in e. split.
  - intro H. destruct (N.leb_spec amount_in MAX_WEI) as [Hsmall | Hlarge].
    + destruct (simulate_arbitrage_never_improves w amount_in Hsmall) as (r & Hr & _).
      rewrite Hr in H. discriminate H.
    + assert (Hno : ~ is_uint256 amount_in) by (unfold is_uint256; lia).
      rewrite (simulate_arbitrage_oversized w _ Hno) in H. injection H as <-.
      split; [reflexivity | exact Hno].
  - intros [-> H]. exact (simulate_arbitrage_oversized w _ H).
Qed.

(** X18. One loan amount beyond [uint256] fails every cycle: the scan
    raises [ValueError] out of [execute_arbitrage] before anything is
    selected, and the block handler turns it into [(False, INITIAL_BACKOFF)]
    with one error line. *)
Theorem oversized_loan_amount_fails_every_cycle :
  forall (cfg : config) (env : cycle_env) (n : Z) (s : agent_state),
    PAIRS cfg <> [] ->
    Exists (fun amount_in => ~ is_uint256 amount_in) (LOAN_AMOUNTS cfg) ->
    execute_arbitrage cfg env s = (Raise ValueError, s)
    /\ handle_new_block cfg env n s
       = ((false, INITIAL_BACKOFF),
          {| last_nonce := last_nonce s;
             trace := trace s ++ [Logged (NewBlock n);
                                  Logged (BlockHandlingError ValueError)] |}).
Proof.
  intros cfg env n s Hpairs Hamount.
  assert (Hcycle : forall s0, execute_arbitrage cfg env s0 = (Raise ValueError, s0)).
  { intro s0. unfold execute_arbitrage, bind, call.
    rewrite (scan_loop_oversized cfg _
               (probe_sequence_oversized cfg (world env) Hpairs Hamount)).
    reflexivity. }
  split; [apply Hcycle |].
  unfold handle_new_block, bind, emit. rewrite Hcycle. cbn [last_nonce trace].
  rewrite <- app_assoc. reflexivity.
Qed.

Lemma oversized_loan_amount_fails_every_cycle_witness :
  PAIRS oversized_config <> []
  /\ Exists (fun amount_in => ~ is_uint256 amount_in) (LOAN_AMOUNTS oversized_config)
  /\ execute_arbitrage oversized_config confirmed_cycle initial_state
     = (Raise ValueError, initial_state).
Proof.
  assert (Hpairs : PAIRS oversized_config <> []) by discriminate.
  assert (Hamount : Exists (fun amount_in => ~ is_uint256 amount_in)
                           (LOAN_AMOUNTS oversized_config)).
  { apply Exists_cons_tl. apply Exists_cons_hd. intro H. apply H.
    vm_compute. reflexivity. }
  split; [exact Hpairs | split; [exact Hamount |]].
  exact (proj1 (oversized_loan_amount_fails_every_cycle
                  oversized_config confirmed_cycle 101 initial_state Hpairs Hamount)).
Defined.

(** ** The float arithmetic of a probe *)

(** X19. On quotes in [uint256] the fee arithmetic of lines 155-165 never
    overflows: [int(token_out * 0.003 + weth_out * 0.003)] is an integer
    that is not negative, and its division by [1e18] is a float that is not
    negative. *)
Theorem fee_arithmetic_stays_in_range :
  forall (token_out weth_out : N),
    is_uint256 token_out -> is_uint256 weth_out ->
    exists fees_wei total_fees_weth,
      total_fees_wei token_out weth_out = Ok fees_wei
      /\ 0 <= fees_wei
      /\ int_div_float fees_wei (float_literal (10 ^ 18) 1) = Ok total_fees_weth
      /\ not_negative total_fees_weth = true.
Proof.
  intros token_out weth_out Ht Hw.
  destruct (fees_go_through token_out weth_out Ht Hw)
    as (f1 & f2 & fees_wei & total & _ & _ & Hfees & Hdiv).
  exists fees_wei, total.
  pose proof (total_fees_wei_nonneg _ _ _ Hfees) as Hsign.
  repeat split; try assumption.
  rewrite literal_1e18 in Hdiv.
  exact (int_div_float_nonneg _ _ _ _ Hsign Hdiv).
Qed.

Lemma fee_arithmetic_stays_in_range_witness :
  is_uint256 2000000000 /\ is_uint256 (Z.to_N (999 * 10 ^ 15))
  /\ exists fees_wei total_fees_weth,
      total_fees_wei 2000000000 (Z.to_N (999 * 10 ^ 15)) = Ok fees_wei
      /\ 0 <= fees_wei
      /\ int_div_float fees_wei (float_literal (10 ^ 18) 1) = Ok total_fees_weth
      /\ not_negative total_fees_weth = true.
Proof.
  assert (Ht : is_uint256 2000000000) by (apply N.leb_le; vm_compute; reflexivity).
  assert (Hw : is_uint256 (Z.to_N (999 * 10 ^ 15)))
    by (apply N.leb_le; vm_compute; reflexivity).
  split; [exact Ht | split; [exact Hw |]].
  exact (fee_arithmetic_stays_in_range 2000000000 (Z.to_N (999 * 10 ^ 15)) Ht Hw).
Defined.

(** X20. When the gas estimation and the gas price of a probe answer in
    [uint256], the inner [try] does not fall back, whatever the amount:
    [int(gas_estimate * GAS_BUFFER * gas_price)] does not overflow, the four
    locals are bound and the cost in WETH is a float that is not negative. *)
Theorem gas_arithmetic_stays_in_range :
  forall (w : probe_env) (amount_in units price : N),
    probe_estimate_gas w = Ok units -> probe_gas_price w = Ok price ->
    is_uint256 units -> is_uint256 price ->
    exists cost_wei cost_weth,
      estimate_gas_cost w amount_in
      = Ok {| gas_estimate := Some units; gas_price := Some price;
              gas_cost_wei := Some cost_wei; gas_cost_weth := cost_weth |}
      /\ not_negative cost_weth = true.
Proof.
  intros w amount_in units price Hunits Hprice Hu Hp.
  destruct (gas_goes_through w amount_in units price Hunits Hprice Hu Hp)
    as (cost_wei & cost_weth & Hcost).
  exists cost_wei, cost_weth. split; [exact Hcost |].
  exact (estimate_gas_cost_nonneg _ _ _ Hcost).
Qed.

Lemma gas_arithmetic_stays_in_range_witness :
  probe_estimate_gas zero_profit_probe = Ok 200000%N
  /\ probe_gas_price zero_profit_probe = Ok (Z.to_N (30 * gwei))
  /\ exists cost_wei cost_weth,
      estimate_gas_cost zero_profit_probe (Z.to_N ether)
      = Ok {| gas_estimate := Some 200000%N; gas_price := Some (Z.to_N (30 * gwei));
              gas_cost_wei := Some cost_wei; gas_cost_weth := cost_weth |}
      /\ not_negative cost_weth = true.
Proof.
  split; [reflexivity | split; [reflexivity |]].
  apply (gas_arithmetic_stays_in_range zero_profit_probe (Z.to_N ether)
           200000 (Z.to_N (30 * gwei)) eq_refl eq_refl);
    apply N.leb_le; vm_compute; reflexivity.
Defined.
